(** * borg-archive: a shallow embedding of the lifecycle controller

    The development follows [src/borg_archive/utils.py] and
    [src/borg_archive/core.py].  Python values are modelled as follows:

    - [str] and [bytes] are [string] (a list of 8-bit characters);
    - [int] is [Z]; a [set] of strings is a [gset string];
    - [pathlib.Path] is the normalised path string that [str(path)] prints;
    - the file system is a finite map from absolute paths to nodes;
    - an exception is a value of type [exn]; a computation is a function
      from a state to a [result] and a new state;
    - everything outside the Python process (the programs found on PATH,
      [tempfile.mkdtemp], [json.loads]) is a [platform], a record of
      functions that every definition takes as a parameter.

    Every command the process starts is recorded in the [trace] of the world,
    so that what an operation ran can be stated.  Console output ([rich]
    printing and status spinners) has no influence on control flow and is left
    out; the answer to the one prompt of the command line, [Confirm.ask], is
    a parameter of the commands that ask.

    The programs themselves (borg, tar, zstd, mksquashfs, ...) are not part of
    the repository.  General statements quantify over the platform; module
    [Ref] gives one executable platform, used to evaluate the program on
    concrete worlds. *)

From Stdlib Require Import ZArith Lia Ascii.
From stdpp Require Import base decidable option list strings pretty gmap fin_maps fin_sets.

Local Open Scope Z_scope.

(** ** Exceptions *)

(** The classes of [exceptions.py]; all derive from [BorgArchiveError]. *)
Inductive error_kind :=
| BorgArchiveError | CollapseError | CommandNotFoundError | DuplicateTagException
| ArchiveError | CreationError | MountError | ValidationError | ExpandError
| RepoError | ExtractError | UpdateError | ConfigurationError.

#[local] Set Warnings "-register-all".

(** An exception object.  [Err k text cause] is [k(f"{text}{cause}")]:
    the message of a re-wrapped exception is kept as the literal part and the
    wrapped exception rather than as one formatted string. *)
Inductive exn :=
| CalledProcessError (returncode : Z) (cmd : list string)
                     (output stderr : option string)
| OSError (what : string)
| TypeError
| AttributeError
| KeyError (key : string)
| IndexError
| ValueError (msg : string)
| RuntimeError (msg : string)
| JSONDecodeError
| SystemExit (code : Z)
| OutOfFuel   (* not a Python exception: a loop cut off by the model *)
| Err (kind : error_kind) (text : string) (cause : option exn).

Global Instance error_kind_eq_dec : EqDecision error_kind.
Proof. solve_decision. Defined.

(** [isinstance(e, subprocess.CalledProcessError)] *)
Definition is_CalledProcessError (e : exn) : bool :=
  match e with CalledProcessError _ _ _ _ => true | _ => false end.

(** [isinstance(e, k)] for a class [k] of [exceptions.py]. *)
Definition is_instance (k : error_kind) (e : exn) : bool :=
  match e with
  | Err k' _ _ => bool_decide (k = BorgArchiveError) || bool_decide (k = k')
  | _ => false
  end.

(** ** Computations: state and exceptions *)

Inductive result (A : Type) :=
| Ok (a : A)
| Raise (e : exn).
Arguments Ok {A} a.
Arguments Raise {A} e.

Definition ST (S A : Type) : Type := S → result A * S.

Section monad.
Context {S : Type}.

Definition ret {A} (a : A) : ST S A := λ s, (Ok a, s).

Definition bind {A B} (m : ST S A) (k : A → ST S B) : ST S B :=
  λ s, match m s with
       | (Ok a, s') => k a s'
       | (Raise e, s') => (Raise e, s')
       end.

Definition raise {A} (e : exn) : ST S A := λ s, (Raise e, s).

Definition gets {A} (f : S → A) : ST S A := λ s, (Ok (f s), s).

Definition modify (f : S → S) : ST S unit := λ s, (Ok tt, f s).

(** [try: m  except Exception as e: h e] *)
Definition try_except {A} (m : ST S A) (h : exn → ST S A) : ST S A :=
  λ s, match m s with
       | (Ok a, s') => (Ok a, s')
       | (Raise e, s') => h e s'
       end.

(** [try: m  finally: f] *)
Definition try_finally {A} (m : ST S A) (f : ST S unit) : ST S A :=
  λ s, match m s with
       | (r, s') =>
           match f s' with
           | (Ok _, s'') => (r, s'')
           | (Raise e, s'') => (Raise e, s'')
           end
       end.
End monad.

Notation "x <- m ;; k" := (bind m (λ x, k))
  (at level 100, m at next level, right associativity,
   format "x  <-  m  ;;  '/' k").
Notation "m ;;; k" := (bind m (λ _, k))
  (at level 100, right associativity, format "m  ;;;  '/' k").

(** ** Strings, paths *)

(** The double-quote character, for messages that quote a path or a tag. *)
Definition dq : string := String (Ascii.ascii_of_nat 34) EmptyString.

(** [s.startswith(p)] *)
Definition startswith (s p : string) : bool := String.prefix p s.

(** [needle in hay] on strings. *)
Fixpoint contains (hay needle : string) : bool :=
  String.prefix needle hay ||
  match hay with
  | EmptyString => false
  | String _ rest => contains rest needle
  end.

(** The first [n] characters of [s]: what [fin.read(n)] returns on a freshly
    opened file with contents [s]. *)
Fixpoint take_str (n : nat) (s : string) : string :=
  match n, s with
  | O, _ => EmptyString
  | _, EmptyString => EmptyString
  | S n', String c rest => String c (take_str n' rest)
  end.

(** Split [s] at its last slash. *)
Fixpoint rsplit_slash (s : string) : option (string * string) :=
  match s with
  | EmptyString => None
  | String c rest =>
      match rsplit_slash rest with
      | Some (a, b) => Some (String c a, b)
      | None => if Ascii.eqb c "/"%char then Some (EmptyString, rest) else None
      end
  end.

(** [path.parent] *)
Definition parent (p : string) : string :=
  match rsplit_slash p with
  | None => "."
  | Some (EmptyString, _) => "/"
  | Some (a, _) => a
  end.

(** [path.name] *)
Definition name (p : string) : string :=
  match rsplit_slash p with
  | None => p
  | Some (_, b) => b
  end.

(** [p / c] *)
Definition joinpath (p c : string) : string :=
  if String.prefix "/" c then c
  else if String.eqb p "/" then "/" +:+ c
  else if String.eqb p "." then c
  else p +:+ "/" +:+ c.

(** [q] is [p] or lies below it. *)
Definition within (p q : string) : bool :=
  String.eqb p q || String.prefix (p +:+ "/") q.

(** The chain of directories that [mkdir(parents=True)] walks: every
    ancestor of [s] below the root, then [s] itself. *)
Fixpoint dir_chain (acc s : string) : list string :=
  match s with
  | EmptyString => [acc]
  | String c rest =>
      if Ascii.eqb c "/"%char && negb (String.eqb acc "" || String.eqb acc "/")
      then acc :: dir_chain (acc +:+ "/") rest
      else dir_chain (acc +:+ String c EmptyString) rest
  end.

(** ** The world outside the process *)

(** A Borg repository as the program can observe it: the archives (tags) in
    insertion order, each with the time the engine reports for it. *)
Definition repository : Type := list (string * string).

Inductive node :=
| File (data : string)
| Dir (repo : option repository).

(** What the process asked the operating system to run. *)
Inductive event :=
| Run (argv : list string)
| Pipe (cmds : list (list string)) (stdin stdout : option string).

Record world := World {
  fs : gmap string node;          (* absolute path -> node *)
  cwd : string;                   (* os.getcwd() *)
  environ : gmap string string;   (* os.environ *)
  mounts : gmap string string;    (* mount point -> what is mounted there *)
  tmp_seq : nat;                  (* how many scratch directories were made *)
  trace : list event              (* commands run so far, oldest first *)
}.

Definition set_fs (f : gmap string node → gmap string node) (w : world) : world :=
  World (f (fs w)) (cwd w) (environ w) (mounts w) (tmp_seq w) (trace w).
Definition set_cwd (d : string) (w : world) : world :=
  World (fs w) d (environ w) (mounts w) (tmp_seq w) (trace w).
Definition set_environ (k v : string) (w : world) : world :=
  World (fs w) (cwd w) (<[k:=v]> (environ w)) (mounts w) (tmp_seq w) (trace w).
Definition set_trace (t : list event) (w : world) : world :=
  World (fs w) (cwd w) (environ w) (mounts w) (tmp_seq w) t.

(** A decoded JSON document, as far as [json.loads] results are inspected. *)
Inductive json :=
| JStr (s : string)
| JObj (fields : list (string * json))
| JOther.

(** What a finished child process hands back: exit status, and what
    [communicate()] read from its stdout and stderr pipes. *)
Definition proc_result : Type := Z * option string * option string.

Record platform := Platform {
  (** [shutil.which] *)
  which : string → option string;
  (** run one program to completion; [inl] when it cannot be started *)
  spawn : list string → world → (exn + Z * string * string) * world;
  (** start the stages of a pipeline, connected by pipes, and wait for all *)
  spawn_pipeline : list (list string) → option string → option string →
                   world → (exn + list proc_result) * world;
  (** [tempfile.mkdtemp] *)
  mkdtemp : world → string * world;
  (** [json.loads]; [None] when the text is not JSON *)
  json_loads : string → option json
}.

Definition W : Type → Type := ST world.

(** ** The file system, as [os], [pathlib] and [shutil] act on it *)

(** [os.path.abspath]: a relative path is taken from the working directory. *)
Definition abspath (w : world) (p : string) : string :=
  if String.prefix "/" p then p
  else if String.eqb p "." then cwd w
  else joinpath (cwd w) p.

Definition lookup_path (w : world) (p : string) : option node :=
  fs w !! abspath w p.

(** [path.is_dir()], [path.is_file()], [path.exists()] *)
Definition is_dir (p : string) : W bool :=
  gets (λ w, match lookup_path w p with Some (Dir _) => true | _ => false end).
Definition is_file (p : string) : W bool :=
  gets (λ w, match lookup_path w p with Some (File _) => true | _ => false end).
Definition exists_ (p : string) : W bool :=
  gets (λ w, match lookup_path w p with Some _ => true | None => false end).

(** One [mkdir] of the walk of [mkdir(parents=True, exist_ok=True)]. *)
Definition mkdir_step (d : string) : W unit :=
  λ w, match fs w !! d with
       | None => (Ok tt, set_fs (<[d := Dir None]>) w)
       | Some (Dir _) => (Ok tt, w)
       | Some (File _) => (Raise (OSError "FileExistsError"), w)
       end.

Fixpoint mkdir_chain (ds : list string) : W unit :=
  match ds with
  | [] => ret tt
  | d :: rest => mkdir_step d ;;; mkdir_chain rest
  end.

(** [utils.ensure_dir]: [path.mkdir(parents=True, exist_ok=True)] *)
Definition ensure_dir (path : string) : W unit :=
  λ w, mkdir_chain (dir_chain "" (abspath w path)) w.

(** [shutil.rmtree(p)] *)
Definition rmtree (p : string) : W unit :=
  λ w, let a := abspath w p in
       match fs w !! a with
       | Some (Dir _) => (Ok tt, set_fs (filter (λ kv, within a kv.1 = false)) w)
       | Some (File _) => (Raise (OSError "NotADirectoryError"), w)
       | None => (Raise (OSError "FileNotFoundError"), w)
       end.

(** The directory a new file is to be created in must exist. *)
Definition parent_is_dir (w : world) (a : string) : bool :=
  String.eqb (parent a) "/" ||
  match fs w !! parent a with Some (Dir _) => true | _ => false end.

(** [open(p, "w")] followed by writing [data]: [path.write_text(data)], and
    with empty [data] the truncation done by [open(p, "wb")]. *)
Definition write_file (p data : string) : W unit :=
  λ w, let a := abspath w p in
       match fs w !! a with
       | Some (Dir _) => (Raise (OSError "IsADirectoryError"), w)
       | _ => if parent_is_dir w a
              then (Ok tt, set_fs (<[a := File data]>) w)
              else (Raise (OSError "FileNotFoundError"), w)
       end.

(** [path.read_text()], and [open(p, "rb").read()] *)
Definition read_file (p : string) : W string :=
  λ w, match lookup_path w p with
       | Some (File data) => (Ok data, w)
       | Some (Dir _) => (Raise (OSError "IsADirectoryError"), w)
       | None => (Raise (OSError "FileNotFoundError"), w)
       end.

(** [path.unlink()] *)
Definition unlink (p : string) : W unit :=
  λ w, let a := abspath w p in
       match fs w !! a with
       | Some (File _) => (Ok tt, set_fs (delete a) w)
       | Some (Dir _) => (Raise (OSError "IsADirectoryError"), w)
       | None => (Raise (OSError "FileNotFoundError"), w)
       end.

(** [os.getcwd()], [os.chdir(p)] *)
Definition getcwd : W string := gets cwd.
Definition chdir (p : string) : W unit :=
  λ w, match lookup_path w p with
       | Some (Dir _) => (Ok tt, set_cwd (abspath w p) w)
       | Some (File _) => (Raise (OSError "NotADirectoryError"), w)
       | None =>
           if String.eqb (abspath w p) "/" then (Ok tt, set_cwd "/" w)
           else (Raise (OSError "FileNotFoundError"), w)
       end.

(** [os.environ[k] = v] *)
Definition setenv (k v : string) : W unit := modify (set_environ k v).

(** Truth value of what [shutil.which] returns. *)
Definition truthy (o : option string) : bool :=
  match o with
  | Some s => negb (String.eqb s "")
  | None => false
  end.

(** [s.split()]: the maximal runs of characters other than white space. *)
Definition is_space (c : ascii) : bool :=
  let n := nat_of_ascii c in
  (Nat.eqb n 32 || (Nat.leb 9 n && Nat.leb n 13) || (Nat.leb 28 n && Nat.leb n 31))%nat.

Fixpoint split_go (cur : string) (s : string) : list string :=
  match s with
  | EmptyString => if String.eqb cur "" then [] else [cur]
  | String c rest =>
      if is_space c
      then (if String.eqb cur "" then split_go "" rest else cur :: split_go "" rest)
      else split_go (cur +:+ String c EmptyString) rest
  end.
Definition split (s : string) : list string := split_go "" s.

(** [subprocess.CompletedProcess] *)
Record CompletedProcess := Completed {
  args : list string;
  returncode : Z;
  stdout : option string;
  stderr : option string
}.

(** ** utils.py *)

Section utils.
Context (P : platform).

(** The loop of [check_required_commands] over the required commands. *)
Fixpoint check_commands (required_commands : list string) : result unit :=
  match required_commands with
  | [] => Ok tt
  | cmd :: rest =>
      if negb (truthy (which P cmd))
      then Raise (Err CommandNotFoundError
                      ("Required command '" +:+ cmd +:+ "' not found in PATH") None)
      else check_commands rest
  end.

Definition check_required_commands : result unit :=
  check_commands ["borg"; "tar"; "zstd"].

Definition get_best_compressor (archiver : string) : result (string * string) :=
  if String.eqb archiver "tar" then
    if truthy (which P "zstd") then Ok ("zstd -9", "zstd -d")
    else if truthy (which P "pigz") then Ok ("pigz -9", "pigz -d")
    else if truthy (which P "gzip") then Ok ("gzip -9", "gzip -d")
    else Raise (Err CommandNotFoundError
                    "No supported compression command found (tried: zstd, pigz, gzip)" None)
  else if String.eqb archiver "squashfs" then
    if truthy (which P "zstd")
    then Ok ("-comp zstd -Xcompression-level 9", "-comp zstd")
    else if truthy (which P "gzip")
    then Ok ("-comp gzip -Xcompression-level 9", "-comp gzip")
    else Raise (Err CommandNotFoundError
                    "No supported compression command found (tried: zstd, gzip)" None)
  else Raise (RuntimeError ("Bad archiver type in `for_archiver`: " +:+ archiver
                            +:+ " (must be 'tar' or 'squashfs').")).

(** [get_best_archiver(file_path)].  [is_squashfs] is an [option] because
    the source tests it against [None]; it never is [None]. *)
Definition get_best_archiver (file_path : option string) : W string :=
  is_squashfs <-
    match file_path with
    | Some p =>
        f <- is_file p ;;
        if (f : bool) then
          data <- read_file p ;;
          ret (if String.eqb (take_str 4 data) "hsqs" then Some true else Some false)
        else ret (Some false)
    | None => ret (Some false)
    end ;;
  let has_squashfs := truthy (which P "mksquashfs") in
  let is_squashfs :=
    match is_squashfs with Some b => b | None => has_squashfs end in
  match file_path with
  | Some _ => if (is_squashfs : bool) then ret "squashfs" else ret "tar"
  | None => if has_squashfs then ret "squashfs" else ret "tar"
  end.

Definition log (e : event) (before after : world) : world :=
  set_trace (trace before ++ [e]) after.

(** [subprocess.run(cmd, check=check, capture_output=capture_output)]:
    the child runs to completion; its output is kept only when captured;
    with [check], a non-zero exit status raises. *)
Definition subprocess_run (cmd : list string) (check capture_output : bool)
  : W CompletedProcess :=
  λ w, match spawn P cmd w with
       | (inl e, w') => (Raise e, log (Run cmd) w w')
       | (inr (rc, out, err), w') =>
           let o := if capture_output then Some out else None in
           let e := if capture_output then Some err else None in
           if check && negb (rc =? 0)
           then (Raise (CalledProcessError rc cmd o e), log (Run cmd) w w')
           else (Ok (Completed cmd rc o e), log (Run cmd) w w')
       end.

(** [run_command]; [suppress_stderr] only decides whether the child's
    stderr reaches the terminal.  The handler prints and re-raises. *)
Definition run_command (cmd : list string) (check capture_output : bool)
           (suppress_stderr : bool) : W CompletedProcess :=
  try_except (subprocess_run cmd check capture_output)
             (λ e, raise e).

(** The [for proc in processes] loop of [run_pipeline]. *)
Definition communicate_step (n : nat) (suppress_stderr : bool)
           (acc : option string * option string * list Z)
           (ip : nat * proc_result) : option string * option string * list Z :=
  let '(stdout, stderr_output, return_codes) := acc in
  let '(i, (rc, out, err)) := ip in
  let is_last := Nat.eqb i (n - 1)%nat in
  let return_codes := return_codes ++ [rc] in
  let stdout := if is_last && negb (truthy stdout) then out else stdout in
  let stderr_output := Some "" in
  let stderr_output :=
    if is_last && negb suppress_stderr then err else stderr_output in
  (stdout, stderr_output, return_codes).

Definition communicate_all (processes : list proc_result) (suppress_stderr : bool)
  : option string * option string * list Z :=
  fold_left (communicate_step (length processes) suppress_stderr)
            (imap pair processes) (None, None, []).

(** [next(code for code in return_codes if code != 0)] *)
Definition next_nonzero (return_codes : list Z) : option Z :=
  head (filter (λ code, code ≠ 0) return_codes).

(** [return_codes.index(c)] *)
Fixpoint index (c : Z) (return_codes : list Z) : option nat :=
  match return_codes with
  | [] => None
  | x :: rest => if x =? c then Some O else S <$> index c rest
  end.

Definition from_option {S A} (e : exn) (o : option A) : ST S A :=
  match o with Some a => ret a | None => raise e end.

Definition popen_pipeline (cmds : list (list string)) (stdin stdout : option string)
  : W (list proc_result) :=
  λ w, match spawn_pipeline P cmds stdin stdout w with
       | (inl e, w') => (Raise e, log (Pipe cmds stdin stdout) w w')
       | (inr rs, w') => (Ok rs, log (Pipe cmds stdin stdout) w w')
       end.

Definition run_pipeline (cmds : list (list string)) (check : bool)
           (stdin stdout : option string) (suppress_stderr : bool)
  : W CompletedProcess :=
  match cmds with
  | [] => raise (ValueError "Pipeline requires at least one command")
  | _ =>
      processes <- popen_pipeline cmds stdin stdout ;;
      let '(stdout, stderr_output, return_codes) :=
        communicate_all processes suppress_stderr in
      if check && bool_decide (Exists (λ code, code ≠ 0) return_codes) then
        code <- from_option IndexError (next_nonzero return_codes) ;;
        i <- from_option (ValueError "not in list") (index code return_codes) ;;
        failed_cmd <- from_option IndexError (cmds !! i) ;;
        rc_last <- from_option IndexError (last return_codes) ;;
        raise (CalledProcessError rc_last failed_cmd stdout stderr_output)
      else
        rc_last <- from_option IndexError (last return_codes) ;;
        last_cmd <- from_option IndexError (last cmds) ;;
        ret (Completed last_cmd rc_last stdout stderr_output)
  end.

(** [confirm_overwrite(path)]; [ask] is [Confirm.ask(..., default=False)],
    the answer of the user. *)
Definition confirm_overwrite (ask : W bool) (path : string) : W bool :=
  e <- exists_ path ;;
  if negb e then ret true
  else
    response <- ask ;;
    ret response.
End utils.

(** [s.splitlines()], for the line boundaries that are single bytes:
    LF, CR, CR LF, VT, FF, FS, GS and RS. *)
Definition is_linebreak (c : ascii) : bool :=
  let n := nat_of_ascii c in
  (Nat.eqb n 10 || Nat.eqb n 11 || Nat.eqb n 12 ||
   Nat.eqb n 28 || Nat.eqb n 29 || Nat.eqb n 30)%nat.

Fixpoint splitlines_go (cur s : string) : list string :=
  match s with
  | EmptyString => if String.eqb cur "" then [] else [cur]
  | String c rest =>
      if Nat.eqb (nat_of_ascii c) 13 then
        match rest with
        | String c2 rest2 =>
            if Nat.eqb (nat_of_ascii c2) 10
            then cur :: splitlines_go "" rest2
            else cur :: splitlines_go "" rest
        | EmptyString => [cur]
        end
      else if is_linebreak c then cur :: splitlines_go "" rest
      else splitlines_go (cur +:+ String c EmptyString) rest
  end.
Definition splitlines (s : string) : list string := splitlines_go "" s.

(** [str(x)] for an optional path: [None] prints as the word None. *)
Definition str_opt (o : option string) : string := default "None" o.

(** ** core.py *)

Definition DEBUG : bool := false.

(** The attributes of a [BorgArchive] instance.  [borg_dir_is_temp] is first
    assigned in [__enter__]; before that the attribute does not exist. *)
Record BorgArchive := Self {
  archive_path : option string;
  borg_dir : option string;
  temp_dir : option string;
  is_mounted : bool;
  sqfs_is_mounted : bool;
  borg_dir_is_temp : option bool
}.

Definition with_borg_dir (d : option string) (o : BorgArchive) : BorgArchive :=
  Self (archive_path o) d (temp_dir o) (is_mounted o) (sqfs_is_mounted o)
       (borg_dir_is_temp o).
Definition with_temp_dir (d : option string) (o : BorgArchive) : BorgArchive :=
  Self (archive_path o) (borg_dir o) d (is_mounted o) (sqfs_is_mounted o)
       (borg_dir_is_temp o).
Definition with_is_mounted (b : bool) (o : BorgArchive) : BorgArchive :=
  Self (archive_path o) (borg_dir o) (temp_dir o) b (sqfs_is_mounted o)
       (borg_dir_is_temp o).
Definition with_borg_dir_is_temp (b : bool) (o : BorgArchive) : BorgArchive :=
  Self (archive_path o) (borg_dir o) (temp_dir o) (is_mounted o)
       (sqfs_is_mounted o) (Some b).

(** A method runs on the instance and the world. *)
Definition M : Type → Type := ST (BorgArchive * world).

Definition liftW {A} (m : W A) : M A :=
  λ s, match m s.2 with (r, w') => (r, (s.1, w')) end.

Definition self_ {A} (f : BorgArchive → A) : M A := gets (λ s, f s.1).
Definition set_self (f : BorgArchive → BorgArchive) : M unit :=
  modify (λ s, (f s.1, s.2)).

Definition of_result {S A} (r : result A) : ST S A :=
  match r with Ok a => ret a | Raise e => raise e end.

(** An argument that must not be [None] where it is used. *)
Definition need {S A} (o : option A) : ST S A :=
  match o with Some a => ret a | None => raise TypeError end.

(** An object whose attribute is read; [None] has none. *)
Definition need_attr {S A} (o : option A) : ST S A :=
  match o with Some a => ret a | None => raise AttributeError end.

(** Reading [self.borg_dir_is_temp]. *)
Definition get_borg_dir_is_temp : M bool :=
  o <- self_ borg_dir_is_temp ;;
  match o with Some b => ret b | None => raise AttributeError end.

Section core.
Context (P : platform).

Definition resolve (p : string) : W string := gets (λ w, abspath w p).

Definition __init__ (archive_or_repo_path repo_path : option string)
  : W BorgArchive :=
  archive_path <-
    match archive_or_repo_path with
    | Some p => a <- resolve p ;; ret (Some a)
    | None => ret None
    end ;;
  d <- match archive_path with Some a => is_dir a | None => ret false end ;;
  let '(repo_path, archive_path) :=
    if (d : bool) && bool_decide (repo_path = None)
    then (archive_or_repo_path, None)
    else (repo_path, archive_path) in
  borg_dir <-
    match repo_path with
    | Some p => a <- resolve p ;; ret (Some a)
    | None => ret None
    end ;;
  of_result (check_required_commands P) ;;;
  ret (Self archive_path borg_dir None false false None).

Definition __set_borg_environ : W unit :=
  setenv "BORG_RELOCATED_REPO_ACCESS_IS_OK" "yes" ;;;
  setenv "BORG_UNKNOWN_UNENCRYPTED_REPO_ACCESS_IS_OK" "yes".

Definition dir_is_repo (repo_path : string) : W bool :=
  try_except
    (subprocess_run P ["borg"; "init"; repo_path; "--encryption"; "none"]
                    true true ;;;
     ret false)
    (λ e, match e with
          | CalledProcessError returncode _ _ stderr =>
              s <- from_option AttributeError stderr ;;
              if (returncode =? 2) && startswith s "A repository already exists at"
              then ret true
              else ret false
          | _ => raise e
          end).

Definition __remove_temp_dir (tmp_dir_path : option string) : M unit :=
  tmp_dir_path <-
    match tmp_dir_path with
    | None => self_ temp_dir
    | Some p => ret (Some p)
    end ;;
  tmp_dir_path <- need tmp_dir_path ;;
  e <- liftW (exists_ tmp_dir_path) ;;
  if (e : bool) then liftW (rmtree tmp_dir_path) else ret tt.

(** [k in j] *)
Definition json_in (k : string) (j : json) : result bool :=
  match j with
  | JObj fields => Ok (bool_decide (k ∈ fields.*1))
  | JStr s => Ok (contains s k)
  | JOther => Raise TypeError
  end.

(** [j[k]] *)
Definition json_get (k : string) (j : json) : result json :=
  match j with
  | JObj fields =>
      match list_find (λ kv, kv.1 = k) fields with
      | Some (_, kv) => Ok kv.2
      | None => Raise (KeyError k)
      end
  | _ => Raise TypeError
  end.

(** [Path(j)] *)
Definition json_path (j : json) : result string :=
  match j with JStr s => Ok s | _ => Raise TypeError end.

Definition remove_if_exists (p : string) : W unit :=
  e <- exists_ p ;;
  if (e : bool) then rmtree p else ret tt.

(** The two clean-up blocks of [__cleanup_borg_files], run on the decoded
    answer of [borg info]. *)
Definition purge_side_files (info : json) : M unit :=
  has_cache <- of_result (json_in "cache" info) ;;
  has_path <-
    (if (has_cache : bool)
     then c <- of_result (json_get "cache" info) ;; of_result (json_in "path" c)
     else ret false) ;;
  (if (has_path : bool) then
     c <- of_result (json_get "cache" info) ;;
     p <- of_result (json_get "path" c) ;;
     cache_path <- of_result (json_path p) ;;
     liftW (remove_if_exists cache_path)
   else ret tt) ;;;
  has_sec <- of_result (json_in "security_dir" info) ;;
  if (has_sec : bool) then
    s <- of_result (json_get "security_dir" info) ;;
    security_dir <- of_result (json_path s) ;;
    liftW (remove_if_exists security_dir)
  else ret tt.

Definition __cleanup_borg_files (tmp_repo_path : option string) : M unit :=
  tmp_repo_path <-
    match tmp_repo_path with
    | Some p => ret (Some p)
    | None => self_ borg_dir
    end ;;
  try_except
    (liftW __set_borg_environ ;;;
     repo <- need tmp_repo_path ;;
     result <- liftW (run_command P ["borg"; "info"; "--error"; "--json"; repo]
                                  false true true) ;;
     if negb (returncode result =? 0) then ret tt
     else
       out <- need (stdout result) ;;
       info <- from_option JSONDecodeError (json_loads P out) ;;
       purge_side_files info)
    (λ _, ret tt).

Definition __delete_borg_repo : M unit :=
  __cleanup_borg_files None ;;;
  try_except
    (liftW __set_borg_environ ;;;
     d <- self_ borg_dir ;;
     d <- need d ;;
     liftW (run_command P ["borg"; "delete"; "--error"; "--force"; d]
                        false false true) ;;;
     ret tt)
    (λ _, ret tt).

Definition __unmount_squashfs (mounted_squashfs : string) : M unit :=
  try_except
    (liftW (run_command P ["umount"; "-t"; "squashfs"; mounted_squashfs]
                        false false true) ;;;
     ret tt)
    (λ _, ret tt).

Definition __enter__ : M unit :=
  temp_dir <-
    (if negb DEBUG
     then liftW (λ w, match mkdtemp P w with (d, w') => (Ok d, w') end)
     else c <- liftW getcwd ;; ret (joinpath c ".borg")) ;;
  set_self (with_temp_dir (Some temp_dir)) ;;;
  d <- self_ borg_dir ;;
  match d with
  | Some d =>
      r <- liftW (dir_is_repo d) ;;
      if (r : bool) then set_self (with_borg_dir_is_temp false)
      else raise (Err RepoError
                      ("Invalid repository path supplied: " +:+ dq +:+ d +:+ dq) None)
  | None =>
      set_self (with_borg_dir (Some (joinpath temp_dir "borg-repo"))) ;;;
      set_self (with_borg_dir_is_temp true)
  end ;;;
  d <- self_ borg_dir ;;
  d <- need d ;;
  liftW (ensure_dir d).

Definition __exit__ : M unit :=
  mounted <- self_ is_mounted ;;
  if negb mounted && negb DEBUG then
    sq <- self_ sqfs_is_mounted ;;
    (if (sq : bool) then
       try_except
         (d <- self_ borg_dir ;;
          d <- need d ;;
          liftW (run_command P ["umount"; d] true false false) ;;;
          ret tt)
         (λ _, ret tt)
     else ret tt) ;;;
    t <- get_borg_dir_is_temp ;;
    (if (t : bool) then __delete_borg_repo else ret tt) ;;;
    __remove_temp_dir None
  else ret tt.
(** [open(p, "wb")]: the file is created or truncated; the handle is
    known by the absolute path it was opened at. *)
Definition open_wb (p : string) : W string :=
  write_file p "" ;;; resolve p.

(** [open(p, "rb")] *)
Definition open_rb (p : string) : W string :=
  read_file p ;;; resolve p.

Definition __create_compressed_archive (repo_dir : option string) : M unit :=
  repo_dir <-
    match repo_dir with
    | None => self_ borg_dir
    | Some d => ret (Some d)
    end ;;
  best_archiver <- liftW (get_best_archiver P None) ;;
  if String.eqb best_archiver "tar" then
    compressor <- of_result (get_best_compressor P "tar") ;;
    let compress_cmd := compressor.1 in
    cwd <- liftW getcwd ;;
    repo_dir <- need_attr repo_dir ;;
    liftW (chdir (parent repo_dir)) ;;;
    try_finally
      (try_except
         (a <- self_ archive_path ;;
          a <- need a ;;
          arch_fp <- liftW (open_wb a) ;;
          liftW (run_pipeline P
                   [["tar"; "--format=pax"; "-cv"; name repo_dir];
                    split compress_cmd]
                   true None (Some arch_fp) false) ;;;
          ret tt)
         (λ e, raise (Err ArchiveError "Failed to create tar archive: " (Some e))))
      (liftW (chdir cwd))
  else if String.eqb best_archiver "squashfs" then
    cwd <- liftW getcwd ;;
    repo_dir <- need_attr repo_dir ;;
    liftW (chdir (parent repo_dir)) ;;;
    try_finally
      (try_except
         (a <- self_ archive_path ;;
          liftW (run_command P
                   ["mksquashfs"; repo_dir; str_opt a;
                    "-quiet"; "-noappend"; "-no-xattrs"]
                   true false false) ;;;
          ret tt)
         (λ e, raise (Err ArchiveError "Failed to create squashfs archive: " (Some e))))
      (liftW (chdir cwd))
  else
    raise (Err ArchiveError
               ("Internal error: Unknown 'best archiver' found: "
                +:+ best_archiver +:+ ".") None).

Definition __extract_compressed_archive (archive_path' repo_dir : option string)
  : M unit :=
  archive_path <-
    match archive_path' with
    | Some a => ret (Some a)
    | None => self_ archive_path
    end ;;
  repo_dir <-
    match repo_dir with
    | Some d => ret (Some d)
    | None => self_ borg_dir
    end ;;
  best_archiver <- liftW (get_best_archiver P archive_path) ;;
  if String.eqb best_archiver "tar" then
    compressor <- of_result (get_best_compressor P "tar") ;;
    let decompress_cmd := compressor.2 in
    try_except
      (a <- need archive_path ;;
       arch_in <- liftW (open_rb a) ;;
       liftW (run_pipeline P
                [split decompress_cmd;
                 ["tar"; "-xf"; "-"; "-C"; str_opt repo_dir; "--strip-components=1"]]
                true (Some arch_in) None false) ;;;
       ret tt)
      (λ e, raise (Err ExpandError "Failed to expand tar archive: " (Some e)))
  else if String.eqb best_archiver "squashfs" then
    try_except
      (liftW (run_command P
                ["unsquashfs"; "-no-progress"; "-quiet"; "-dest";
                 str_opt repo_dir; str_opt archive_path]
                true false false) ;;;
       ret tt)
      (λ e, raise (Err ExpandError "Failed to expand squashfs archive: " (Some e)))
  else ret tt.

Definition collapse (repo_dir : string) (retain_repo : bool) : M unit :=
  r <- liftW (dir_is_repo repo_dir) ;;
  if negb r then
    raise (Err CollapseError
               ("Failed to collapse repository " +:+ dq +:+ repo_dir +:+ dq
                +:+ ": Not a valid repository directory.") None)
  else
    set_self (with_borg_dir (Some repo_dir)) ;;;
    try_except (__create_compressed_archive (Some repo_dir))
               (λ e, raise (Err ArchiveError "Failed to create archive file: " (Some e))) ;;;
    if negb retain_repo then
      __delete_borg_repo ;;;
      __remove_temp_dir (Some repo_dir)
    else ret tt.

Definition expand (repo_dir : string) : M unit :=
  liftW (ensure_dir repo_dir) ;;;
  try_except (__extract_compressed_archive None (Some repo_dir))
             (λ e, raise (Err ExpandError "Failed to expand archive: " (Some e))).

Definition get_tag_list (full_output : bool) : M (list string) :=
  let format_str :=
    if full_output then "{archive:<36} {time}{NL}" else "{archive}{NL}" in
  liftW __set_borg_environ ;;;
  d <- self_ borg_dir ;;
  proc1 <- liftW (run_command P
                    ["borg"; "list"; "--error"; "--format"; format_str; str_opt d]
                    true true true) ;;
  out <- from_option AttributeError (stdout proc1) ;;
  ret (splitlines out).

Definition get_most_recent_tag : M string :=
  tags <- get_tag_list false ;;
  from_option IndexError (last tags).

(** The [while str(next_tag) in tags] loop, cut off after [fuel] tests. *)
Fixpoint skip_used (fuel : nat) (tags : gset string) (next_tag : Z) : option Z :=
  match fuel with
  | O => None
  | S fuel' =>
      if bool_decide (pretty next_tag ∈ tags)
      then skip_used fuel' tags (next_tag + 1)
      else Some next_tag
  end.

Definition generate_next_tag (tag : option string) : M string :=
  l <- get_tag_list false ;;
  let tags : gset string := list_to_set l in
  match tag with
  | Some t =>
      if bool_decide (t ∈ tags)
      then raise (Err DuplicateTagException
                      ("Tag " +:+ dq +:+ t +:+ dq +:+ " already exists.") None)
      else ret t
  | None =>
      let next_tag := Z.of_nat (size tags) + 1 in
      next_tag <- from_option OutOfFuel (skip_used (S (size tags)) tags next_tag) ;;
      ret (pretty next_tag)
  end.

(** [not tag] *)
Definition falsy (tag : option string) : bool := negb (truthy tag).

Definition mount (mount_dir : string) (tag : option string) : M unit :=
  liftW (ensure_dir mount_dir) ;;;
  t <- get_borg_dir_is_temp ;;
  (if (t : bool) then
     d <- self_ borg_dir ;;
     liftW (write_file (joinpath mount_dir ".borg-repo") (str_opt d)) ;;;
     try_except (__extract_compressed_archive None None)
                (λ e, raise (Err MountError "Failed to prepare archive: " (Some e)))
   else ret tt) ;;;
  try_except
    (tag <- (if falsy tag then get_most_recent_tag else ret (default "" tag)) ;;
     liftW __set_borg_environ ;;;
     d <- self_ borg_dir ;;
     liftW (run_command P
              ["borg"; "mount"; "--error"; str_opt d +:+ "::" +:+ tag; mount_dir]
              true false false) ;;;
     ret tt)
    (λ e, raise (Err MountError "Failed to mount archive: " (Some e))) ;;;
  set_self (with_is_mounted true).

Definition unmount (mount_dir : string) : M unit :=
  e <- liftW (exists_ mount_dir) ;;
  if negb e then
    raise (Err MountError
               ("Mount directory '" +:+ mount_dir +:+ "' does not exist") None)
  else
    try_except
      (liftW (run_command P ["borg"; "umount"; "--error"; mount_dir]
                          true false false) ;;;
       s <- liftW (exists_ (joinpath mount_dir ".borg-repo")) ;;
       if (s : bool) then
         mounted_repo <- liftW (read_file (joinpath mount_dir ".borg-repo")) ;;
         __unmount_squashfs mounted_repo ;;;
         __cleanup_borg_files (Some mounted_repo) ;;;
         __remove_temp_dir (Some mounted_repo) ;;;
         liftW (unlink (joinpath mount_dir ".borg-repo"))
       else ret tt)
      (λ e, raise (Err MountError "Failed to unmount archive: " (Some e))).
Definition nl : string := String (ascii_of_nat 10) EmptyString.

Definition update (source_dir_or_repo : string) (tag : option string) : M unit :=
  source_dir_or_repo <- liftW (resolve source_dir_or_repo) ;;
  d <- liftW (is_dir source_dir_or_repo) ;;
  if negb d then
    raise (Err ValidationError
               ("Source directory '" +:+ source_dir_or_repo +:+ "' does not exist") None)
  else
    updating_archive_from_repo <- liftW (dir_is_repo source_dir_or_repo) ;;
    (if (updating_archive_from_repo : bool) then
       set_self (with_borg_dir (Some source_dir_or_repo)) ;;;
       set_self (with_borg_dir_is_temp false)
     else ret tt) ;;;
    a <- self_ archive_path ;;
    let updating_archive := bool_decide (a ≠ None) in
    t <- get_borg_dir_is_temp ;;
    (if (t : bool) then
       try_except (__extract_compressed_archive None None)
                  (λ e, raise (Err UpdateError "Failed to prepare archive: " (Some e)))
     else ret tt) ;;;
    try_except
      ((if negb updating_archive_from_repo then
          b <- self_ borg_dir ;;
          b <- need b ;;
          locked <- liftW (is_file (joinpath b "lock.roster")) ;;
          if (locked : bool) then
            raise (Err UpdateError
                       (nl +:+ "Cannot update expanded repository " +:+ dq +:+ name b
                        +:+ dq +:+ ". The repository is locked, possibly due to being mounted."
                        +:+ nl +:+ "If you have mounted an archive, use `borg-archive unmount` "
                        +:+ "to unmount it, then try updating again.") None)
          else
            cwd <- liftW getcwd ;;
            liftW (chdir (parent source_dir_or_repo)) ;;;
            try_finally
              (tag <- generate_next_tag tag ;;
               liftW __set_borg_environ ;;;
               b <- self_ borg_dir ;;
               liftW (run_command P
                        ["borg"; "create"; "--compression"; "zstd,9"; "--error";
                         "--progress"; str_opt b +:+ "::" +:+ tag;
                         name source_dir_or_repo]
                        true false true) ;;;
               ret tt)
              (liftW (chdir cwd))
        else ret tt) ;;;
       if updating_archive then __create_compressed_archive None else ret tt)
      (λ e, raise (Err UpdateError "Failed to update archive: " (Some e))).

(** [create]; [borg_options] is [None] or a list, and an empty list is
    as good as none. *)
Definition create (source_dir encryption : string) (expanded : bool)
           (borg_options : option (list string)) : M unit :=
  d <- liftW (is_dir source_dir) ;;
  if negb d then
    raise (Err ValidationError
               ("Source directory '" +:+ source_dir +:+ "' does not exist") None)
  else
    (if expanded then
       a <- self_ archive_path ;;
       set_self (with_borg_dir a) ;;;
       set_self (with_borg_dir_is_temp false)
     else ret tt) ;;;
    let tag := "1" in
    try_except
      (let cmd := ["borg"; "init"; "--error"; "--encryption"; encryption] in
       let cmd := match borg_options with
                  | Some (o :: os) => cmd ++ o :: os
                  | _ => cmd
                  end in
       b <- self_ borg_dir ;;
       let cmd := cmd ++ [str_opt b] in
       liftW (run_command P cmd true false false) ;;;
       ret tt)
      (λ e, raise (Err CreationError "Failed to initialize Borg repository: " (Some e))) ;;;
    cwd <- liftW getcwd ;;
    liftW (chdir (parent source_dir)) ;;;
    try_finally
      (try_except
         (b <- self_ borg_dir ;;
          liftW (run_command P
                   ["borg"; "create"; "--compression"; "zstd,9"; "--error";
                    "--progress"; str_opt b +:+ "::" +:+ tag; name source_dir]
                   true false false) ;;;
          ret tt)
         (λ e, raise (Err CreationError "Failed to create repository: " (Some e))))
      (liftW (chdir cwd)) ;;;
    if negb expanded then
      try_except (__create_compressed_archive None)
                 (λ e, raise (Err CreationError "Failed to create archive file: " (Some e)))
    else ret tt.

(** [extract]; the first handler is [except ExpandError], every other
    exception passes it. *)
Definition extract (output_dir : string) (tag : option string) : M unit :=
  liftW (ensure_dir output_dir) ;;;
  try_except
    (t <- get_borg_dir_is_temp ;;
     if (t : bool) then
       b <- self_ borg_dir ;;
       b <- need b ;;
       expand b
     else ret tt)
    (λ e, if is_instance ExpandError e
          then raise (Err ExtractError "Failed to extract archive: " (Some e))
          else raise e) ;;;
  cwd <- liftW getcwd ;;
  liftW (chdir output_dir) ;;;
  try_finally
    (try_except
       (tag <- (if falsy tag then get_most_recent_tag else ret (default "" tag)) ;;
        liftW __set_borg_environ ;;;
        b <- self_ borg_dir ;;
        liftW (run_command P
                 ["borg"; "extract"; "--error"; "--progress";
                  str_opt b +:+ "::" +:+ tag]
                 true false true) ;;;
        ret tt)
       (λ e, raise (Err ExtractError "Failed to extract archive: " (Some e))))
    (liftW (chdir cwd)).

(** [list_tags]; the lines of the listing go to the console. *)
Definition list_tags : M unit :=
  t <- get_borg_dir_is_temp ;;
  (if (t : bool) then
     try_except (__extract_compressed_archive None None)
                (λ e, raise (Err ArchiveError "Failed to read archive: " (Some e)))
   else ret tt) ;;;
  try_except
    (get_tag_list true ;;;
     ret tt)
    (λ e, raise (Err ArchiveError "Failed to read repository: " (Some e))).

(** [with BorgArchive(a, r) as archive: body].  [__exit__] returns [None],
    so an exception of the body propagates after it has run. *)
Definition with_BorgArchive (archive_or_repo_path repo_path : option string)
           (body : M unit) : W unit :=
  self <- __init__ archive_or_repo_path repo_path ;;
  λ w, match (__enter__ ;;; try_finally body __exit__) (self, w) with
       | (r, s) => (r, s.2)
       end.

(** ** cli.py: the [with] blocks of the commands

    Here the handlers that print a [BorgArchiveError] and exit are left out:
    the exception that would reach them is the result.  The commands with
    their handlers follow below. *)

Definition collapse_command (repo_directory archive_file : string)
           (keep_repo : bool) : W unit :=
  with_BorgArchive (Some archive_file) None (collapse repo_directory keep_repo).

Definition expand_command (archive_file repo_directory : string) : W unit :=
  with_BorgArchive (Some archive_file) None (expand repo_directory).

Definition mount_command (archive_file mount_dir : string) (tag : option string)
  : W unit :=
  with_BorgArchive (Some archive_file) None (mount mount_dir tag).

Definition do_unmount (mount_dir : string) : W unit :=
  with_BorgArchive None None (unmount mount_dir).

(** [update] first refuses two repositories; [sys.exit(1)] is the
    exception [SystemExit]. *)
Definition update_command (archive_or_repo source_dir_or_repo : string)
           (tag : option string) : W unit :=
  a <- is_dir archive_or_repo ;;
  s <- is_dir source_dir_or_repo ;;
  both <- (if (a : bool) && (s : bool) then dir_is_repo source_dir_or_repo
           else ret false) ;;
  if (both : bool) then raise (SystemExit 1)
  else with_BorgArchive (Some archive_or_repo) None (update source_dir_or_repo tag).

(** [create] and [create-expanded] differ in the [expanded] flag only.
    [sys.exit(0)] after a declined prompt is the exception [SystemExit]. *)
Definition create_command (ask : W bool) (archive_file source_dir : string)
           (expanded : bool) (borg_options : list string) : W unit :=
  e <- exists_ archive_file ;;
  declined <-
    (if (e : bool) then c <- confirm_overwrite ask archive_file ;; ret (negb c)
     else ret false) ;;
  if (declined : bool) then raise (SystemExit 0)
  else
    with_BorgArchive (Some archive_file) None
      (create source_dir "none" expanded
              (match borg_options with [] => None | _ => Some borg_options end)).

Definition extract_command (ask : W bool) (archive_file output_dir : string)
           (tag : option string) : W unit :=
  e <- exists_ output_dir ;;
  declined <-
    (if (e : bool) then c <- confirm_overwrite ask output_dir ;; ret (negb c)
     else ret false) ;;
  if (declined : bool) then raise (SystemExit 0)
  else with_BorgArchive (Some archive_file) None (extract output_dir tag).

Definition list_command (archive_or_repo : string) : W unit :=
  d <- is_dir archive_or_repo ;;
  if (d : bool) then with_BorgArchive None (Some archive_or_repo) list_tags
  else with_BorgArchive (Some archive_or_repo) None list_tags.

(** ** cli.py: the commands with their handlers *)

(** [except BorgArchiveError as e: console.print(...); sys.exit(1)] *)
Definition exit_on_error (m : W unit) : W unit :=
  try_except m
    (λ e, if is_instance BorgArchiveError e then raise (SystemExit 1) else raise e).

(** The handler of [collapse] prints and does not exit. *)
Definition cli_collapse (repo_directory archive_file : string) (keep_repo : bool)
  : W unit :=
  try_except (collapse_command repo_directory archive_file keep_repo)
    (λ e, if is_instance BorgArchiveError e then ret tt else raise e).

Definition cli_create (ask : W bool) (archive_file source_dir : string)
           (borg_options : list string) : W unit :=
  exit_on_error (create_command ask archive_file source_dir false borg_options).

Definition cli_create_expanded (ask : W bool) (repo_directory source_dir : string)
           (borg_options : list string) : W unit :=
  exit_on_error (create_command ask repo_directory source_dir true borg_options).

Definition cli_expand (archive_file repo_directory : string) : W unit :=
  exit_on_error (expand_command archive_file repo_directory).

Definition cli_extract (ask : W bool) (archive_file output_dir : string)
           (tag : option string) : W unit :=
  exit_on_error (extract_command ask archive_file output_dir tag).

Definition cli_list (archive_or_repo : string) : W unit :=
  exit_on_error (list_command archive_or_repo).

Definition cli_mount (archive_file mount_dir : string) (tag : option string)
  : W unit :=
  exit_on_error (mount_command archive_file mount_dir tag).

(** [umount], and its hidden alias [unmount] *)
Definition cli_umount (mount_dir : string) : W unit :=
  exit_on_error (do_unmount mount_dir).

(** The guard of [update] stands before the [try]. *)
Definition cli_update (archive_or_repo source_dir_or_repo : string)
           (tag : option string) : W unit :=
  a <- is_dir archive_or_repo ;;
  s <- is_dir source_dir_or_repo ;;
  both <- (if (a : bool) && (s : bool) then dir_is_repo source_dir_or_repo
           else ret false) ;;
  if (both : bool) then raise (SystemExit 1)
  else
    exit_on_error
      (with_BorgArchive (Some archive_or_repo) None (update source_dir_or_repo tag)).
End core.

(** ** A reference platform

    The programs that [core.py] runs are not part of the repository.  This
    module gives them an executable meaning, after the interface the program
    relies on: the engine refuses to initialise over an existing repository
    with exit status 2 and a message on stderr, lists archives in insertion
    order, and so on; the archivers write a container that starts with their
    magic number and read it back.  Relative paths given to a program are
    taken from the working directory it is started in.  A directory is
    archived as the repository it holds; what else lies below it is not
    archived. *)
Module Ref.
Inductive pat := Lit (s : string) | Any.

Fixpoint match_argv (ps : list pat) (argv : list string) : option (list string) :=
  match ps, argv with
  | [], [] => Some []
  | Lit s :: ps', a :: argv' =>
      if String.eqb s a then match_argv ps' argv' else None
  | Any :: ps', a :: argv' => cons a <$> match_argv ps' argv'
  | _, _ => None
  end.

Definition tab : string := String (ascii_of_nat 9) EmptyString.
Definition nl : string := String (ascii_of_nat 10) EmptyString.

Fixpoint concat_str (l : list string) : string :=
  match l with [] => "" | s :: rest => s +:+ concat_str rest end.

Fixpoint split_tab (cur s : string) : option (string * string) :=
  match s with
  | EmptyString => None
  | String c rest =>
      if Nat.eqb (nat_of_ascii c) 9 then Some (cur, rest)
      else split_tab (cur +:+ String c EmptyString) rest
  end.

Fixpoint split_colons (cur s : string) : option (string * string) :=
  match s with
  | String c1 rest1 =>
      match rest1 with
      | String c2 rest2 =>
          if Ascii.eqb c1 ":" && Ascii.eqb c2 ":" then Some (cur, rest2)
          else split_colons (cur +:+ String c1 EmptyString) rest1
      | EmptyString => None
      end
  | EmptyString => None
  end.

Fixpoint drop_str (n : nat) (s : string) : string :=
  match n, s with
  | O, _ => s
  | S n', String _ rest => drop_str n' rest
  | S _, EmptyString => EmptyString
  end.

(** The payload of a container: the repository held by the directory. *)
Definition encode (c : option repository) : string :=
  match c with
  | None => "P"
  | Some r => "R" +:+ concat_str (map (λ a, a.1 +:+ tab +:+ a.2 +:+ nl) r)
  end.

Definition decode (s : string) : option (option repository) :=
  match s with
  | String c rest =>
      if Ascii.eqb c "P" then
        (if String.eqb rest "" then Some None else None)
      else if Ascii.eqb c "R" then
        Some <$> mapM (split_tab "") (splitlines rest)
      else None
  | EmptyString => None
  end.

Definition zstd_magic : string :=
  String (ascii_of_nat 40) (String (ascii_of_nat 181)
    (String (ascii_of_nat 47) (String (ascii_of_nat 253) EmptyString))).
Definition gzip_magic : string :=
  String (ascii_of_nat 31) (String (ascii_of_nat 139) EmptyString).
Definition squashfs_magic : string := "hsqs".

Definition has_children (a : string) (w : world) : bool :=
  existsb (λ kv : string * node, String.prefix (a +:+ "/") kv.1)
          (map_to_list (fs w)).

Definition out (rc : Z) (o e : string) (w : world)
  : (exn + Z * string * string) * world := (inr (rc, o, e), w).

Definition repo_at (w : world) (p : string) : option repository :=
  match lookup_path w p with
  | Some (Dir (Some r)) => Some r
  | _ => None
  end.

(** [borg init <path> --encryption none] *)
Definition borg_init (p : string) (w : world) :=
  let a := abspath w p in
  match fs w !! a with
  | Some (Dir (Some _)) =>
      out 2 "" ("A repository already exists at " +:+ a +:+ "." +:+ nl) w
  | Some (Dir None) =>
      if has_children a w
      then out 2 "" ("There is already something at " +:+ a +:+ "." +:+ nl) w
      else out 0 "" "" (set_fs (<[a := Dir (Some [])]>) w)
  | Some (File _) =>
      out 2 "" ("There is already something at " +:+ a +:+ "." +:+ nl) w
  | None =>
      if parent_is_dir w a
      then out 0 "" "" (set_fs (<[a := Dir (Some [])]>) w)
      else out 2 "" ("The parent path of the repo directory does not exist." +:+ nl) w
  end.

Fixpoint pad (n : nat) (s : string) : string :=
  match n with
  | O => s
  | S n' => match s with
            | EmptyString => String " " (pad n' EmptyString)
            | String c rest => String c (pad n' rest)
            end
  end.

(** [borg list --error --format <fmt> <path>] *)
Definition borg_list (fmt p : string) (w : world) :=
  match repo_at w p with
  | Some r =>
      if String.eqb fmt "{archive}{NL}"
      then out 0 (concat_str (map (λ a, a.1 +:+ nl) r)) "" w
      else out 0 (concat_str (map (λ a, pad 36 a.1 +:+ " " +:+ a.2 +:+ nl) r)) "" w
  | None => out 2 "" ("Repository " +:+ abspath w p +:+ " does not exist." +:+ nl) w
  end.

(** [borg create ... <repo>::<tag> <source>] *)
Definition borg_create (target src : string) (w : world) :=
  match split_colons "" target with
  | Some (p, tag) =>
      match repo_at w p, lookup_path w src with
      | Some r, Some (Dir _) =>
          if bool_decide (tag ∈ r.*1)
          then out 2 "" ("Archive " +:+ tag +:+ " already exists" +:+ nl) w
          else out 0 "" ""
                   (set_fs (<[abspath w p :=
                                Dir (Some (r ++ [(tag, "T" +:+ pretty (length r))]))]>) w)
      | _, _ => out 2 "" ("Repository or source does not exist." +:+ nl) w
      end
  | None => out 2 "" ("Invalid archive location." +:+ nl) w
  end.

Definition set_mounts (f : gmap string string → gmap string string) (w : world)
  : world :=
  World (fs w) (cwd w) (environ w) (f (mounts w)) (tmp_seq w) (trace w).

(** [borg mount --error <repo>::<tag> <dir>]: the repository stays locked
    while it is mounted. *)
Definition borg_mount (target mdir : string) (w : world) :=
  match split_colons "" target with
  | Some (p, tag) =>
      match repo_at w p, lookup_path w mdir with
      | Some r, Some (Dir _) =>
          if bool_decide (tag ∈ r.*1)
          then out 0 "" ""
                   (set_mounts (<[abspath w mdir := abspath w p]>)
                      (set_fs (<[joinpath (abspath w p) "lock.roster" := File ""]>) w))
          else out 2 "" ("Archive " +:+ tag +:+ " does not exist" +:+ nl) w
      | _, _ => out 2 "" ("Repository or mount point does not exist." +:+ nl) w
      end
  | None => out 2 "" ("Invalid archive location." +:+ nl) w
  end.

(** [borg umount --error <dir>] *)
Definition borg_umount (mdir : string) (w : world) :=
  match mounts w !! abspath w mdir with
  | Some p =>
      out 0 "" ""
          (set_mounts (delete (abspath w mdir))
             (set_fs (delete (joinpath p "lock.roster")) w))
  | None => out 2 "" ("Not mounted." +:+ nl) w
  end.

Definition cache_dir : string := "/home/user/.cache/borg/0".
Definition security_dir : string := "/home/user/.config/borg/security/0".

Definition info_text : string :=
  "{" +:+ dq +:+ "cache" +:+ dq +:+ ": {" +:+ dq +:+ "path" +:+ dq +:+ ": "
  +:+ dq +:+ cache_dir +:+ dq +:+ "}, " +:+ dq +:+ "security_dir" +:+ dq
  +:+ ": " +:+ dq +:+ security_dir +:+ dq +:+ "}".

(** [borg info --error --json <path>] *)
Definition borg_info (p : string) (w : world) :=
  match repo_at w p with
  | Some _ => out 0 info_text "" w
  | None => out 2 "" ("Repository " +:+ abspath w p +:+ " does not exist." +:+ nl) w
  end.

(** [borg delete --error --force <path>]: the repository directory goes. *)
Definition borg_delete (p : string) (w : world) :=
  match repo_at w p with
  | Some _ =>
      out 0 "" ""
          (set_fs (filter (λ kv, within (abspath w p) kv.1 = false)) w)
  | None => out 2 "" ("Repository " +:+ abspath w p +:+ " does not exist." +:+ nl) w
  end.

(** [mksquashfs <dir> <file> -quiet -noappend -no-xattrs] *)
Definition mksquashfs (src dst : string) (w : world) :=
  match lookup_path w src with
  | Some (Dir c) =>
      out 0 "" "" (set_fs (<[abspath w dst := File (squashfs_magic +:+ encode c)]>) w)
  | _ => out 1 "" ("Cannot stat source directory " +:+ dq +:+ src +:+ dq
                   +:+ " because No such file or directory" +:+ nl) w
  end.

(** [unsquashfs -no-progress -quiet -dest <dir> <file>] *)
Definition unsquashfs (dst src : string) (w : world) :=
  match lookup_path w src with
  | Some (File data) =>
      if String.eqb (take_str 4 data) squashfs_magic then
        match decode (drop_str 4 data) with
        | Some c => out 0 "" "" (set_fs (<[abspath w dst := Dir c]>) w)
        | None => out 1 "" ("Corrupted filesystem." +:+ nl) w
        end
      else out 1 "" ("Can't find a valid SQUASHFS superblock." +:+ nl) w
  | _ => out 1 "" ("Could not open " +:+ src +:+ nl) w
  end.

(** [umount <dir>] and [umount -t squashfs <dir>] *)
Definition umount (p : string) (w : world) :=
  match mounts w !! abspath w p with
  | Some _ => out 0 "" "" (set_mounts (delete (abspath w p)) w)
  | None => out 32 "" ("umount: " +:+ p +:+ ": not mounted." +:+ nl) w
  end.
Section host.
(** The programs installed on the host. *)
Context (installed : list string).

Definition ref_which (cmd : string) : option string :=
  if bool_decide (cmd ∈ installed) then Some ("/usr/bin/" +:+ cmd) else None.

Definition borg (argv : list string) (w : world) :=
  match match_argv [Lit "init"; Any; Lit "--encryption"; Lit "none"] argv with
  | Some [p] => borg_init p w
  | _ =>
  match match_argv [Lit "list"; Lit "--error"; Lit "--format"; Any; Any] argv with
  | Some [fmt; p] => borg_list fmt p w
  | _ =>
  match match_argv [Lit "create"; Lit "--compression"; Lit "zstd,9"; Lit "--error";
                    Lit "--progress"; Any; Any] argv with
  | Some [target; src] => borg_create target src w
  | _ =>
  match match_argv [Lit "mount"; Lit "--error"; Any; Any] argv with
  | Some [target; mdir] => borg_mount target mdir w
  | _ =>
  match match_argv [Lit "umount"; Lit "--error"; Any] argv with
  | Some [mdir] => borg_umount mdir w
  | _ =>
  match match_argv [Lit "info"; Lit "--error"; Lit "--json"; Any] argv with
  | Some [p] => borg_info p w
  | _ =>
  match match_argv [Lit "delete"; Lit "--error"; Lit "--force"; Any] argv with
  | Some [p] => borg_delete p w
  | _ => out 2 "" ("borg: error: invalid arguments" +:+ nl) w
  end end end end end end end.

Definition ref_spawn (argv : list string) (w : world)
  : (exn + Z * string * string) * world :=
  match argv with
  | [] => (inl IndexError, w)
  | prog :: rest =>
      if negb (bool_decide (prog ∈ installed))
      then (inl (OSError "FileNotFoundError"), w)
      else if String.eqb prog "borg" then borg rest w
      else if String.eqb prog "mksquashfs" then
        match match_argv [Any; Any; Lit "-quiet"; Lit "-noappend"; Lit "-no-xattrs"]
                         rest with
        | Some [src; dst] => mksquashfs src dst w
        | _ => out 1 "" "" w
        end
      else if String.eqb prog "unsquashfs" then
        match match_argv [Lit "-no-progress"; Lit "-quiet"; Lit "-dest"; Any; Any]
                         rest with
        | Some [dst; src] => unsquashfs dst src w
        | _ => out 1 "" "" w
        end
      else if String.eqb prog "umount" then
        match rest with
        | [p] => umount p w
        | [_; _; p] => umount p w
        | _ => out 1 "" "" w
        end
      else out 127 "" "" w
  end.

(** The magic number of what a compressor writes. *)
Definition magic_of (tool : string) : string :=
  if String.eqb tool "zstd" then zstd_magic else gzip_magic.

Definition is_compressor (tool : string) : bool :=
  bool_decide (tool ∈ ["zstd"; "pigz"; "gzip"]) && bool_decide (tool ∈ installed).

(** [tar --format=pax -cv <name> | <tool> -9 > <file>] *)
Definition pack (nm tool : string) (dst : option string) (w : world)
  : (exn + list proc_result) * world :=
  match lookup_path w nm with
  | Some (Dir c) =>
      (inr [(0, Some "", Some (nm +:+ "/" +:+ nl)); (0, None, Some "")],
       match dst with
       | Some f => set_fs (<[f := File (magic_of tool +:+ encode c)]>) w
       | None => w
       end)
  | _ =>
      (inr [(2, Some "", Some ("tar: " +:+ nm +:+ ": Cannot stat: No such file or directory" +:+ nl));
            (0, None, Some "")],
       match dst with
       | Some f => set_fs (<[f := File (magic_of tool)]>) w
       | None => w
       end)
  end.

(** [<tool> -d < <file> | tar -xf - -C <dir> --strip-components=1] *)
Definition unpack (tool dst : string) (src : option string) (w : world)
  : (exn + list proc_result) * world :=
  let data :=
    match src with
    | Some f => match fs w !! f with Some (File d) => d | _ => "" end
    | None => ""
    end in
  let n := String.length (magic_of tool) in
  if String.eqb (take_str n data) (magic_of tool) then
    match decode (drop_str n data), lookup_path w dst with
    | Some c, Some (Dir _) =>
        (inr [(0, Some "", Some ""); (0, None, Some "")],
         set_fs (<[abspath w dst := Dir c]>) w)
    | _, _ =>
        (inr [(0, Some "", Some "");
              (2, None, Some ("tar: Error is not recoverable: exiting now" +:+ nl))], w)
    end
  else
    (inr [(1, Some "", Some (tool +:+ ": unsupported format" +:+ nl));
          (2, None, Some ("tar: This does not look like a tar archive" +:+ nl))], w).

Definition ref_spawn_pipeline (cmds : list (list string))
           (stdin stdout : option string) (w : world)
  : (exn + list proc_result) * world :=
  match cmds with
  | [(tar :: targs); [tool; level]] =>
      if String.eqb tar "tar" && is_compressor tool && String.eqb level "-9"
         && bool_decide ("tar" ∈ installed) then
        match match_argv [Lit "--format=pax"; Lit "-cv"; Any] targs with
        | Some [nm] => pack nm tool stdout w
        | _ => (inl (OSError "unsupported pipeline"), w)
        end
      else (inl (OSError "FileNotFoundError"), w)
  | [[tool; flag]; (tar :: targs)] =>
      if is_compressor tool && String.eqb flag "-d" && String.eqb tar "tar"
         && bool_decide ("tar" ∈ installed) then
        match match_argv [Lit "-xf"; Lit "-"; Lit "-C"; Any;
                          Lit "--strip-components=1"] targs with
        | Some [dst] => unpack tool dst stdin w
        | _ => (inl (OSError "unsupported pipeline"), w)
        end
      else (inl (OSError "FileNotFoundError"), w)
  | _ => (inl (OSError "unsupported pipeline"), w)
  end.

(** [tempfile.mkdtemp()]: a new directory under /tmp. *)
Definition ref_mkdtemp (w : world) : string * world :=
  let d := "/tmp/tmp" +:+ pretty (tmp_seq w) in
  (d, World (<[d := Dir None]> (fs w)) (cwd w) (environ w) (mounts w)
            (S (tmp_seq w)) (trace w)).

(** A decoder for the one document the engine prints. *)
Definition ref_json_loads (s : string) : option json :=
  if String.eqb s info_text
  then Some (JObj [("cache", JObj [("path", JStr cache_dir)]);
                   ("security_dir", JStr security_dir)])
  else None.

Definition host : platform :=
  Platform ref_which ref_spawn ref_spawn_pipeline ref_mkdtemp ref_json_loads.
End host.
End Ref.

(** ** Worlds and platforms used as concrete instances *)

Module Example.
Definition tools : list string := ["borg"; "tar"; "zstd"].
Definition tools_squashfs : list string :=
  ["borg"; "tar"; "zstd"; "mksquashfs"; "unsquashfs"; "umount"].

(** A home directory with a data directory, an empty directory and a
    repository holding the tags 1 and 2. *)
Definition home : gmap string node :=
  list_to_map
    [("/tmp", Dir None); ("/home", Dir None); ("/home/u", Dir None);
     ("/home/u/data", Dir None); ("/home/u/data/f", File "x");
     ("/home/u/empty", Dir None);
     ("/home/u/sub", Dir None);
     ("/home/u/sub/repo", Dir (Some [("1", "T0"); ("2", "T1")]));
     ("/home/u/repo", Dir (Some [("1", "T0"); ("2", "T1")]))].

Definition w0 : world := World home "/home/u" ∅ ∅ 0 [].

(** The same, with an archive of the repository next to it. *)
Definition tar_archive : string :=
  Ref.zstd_magic +:+ Ref.encode (Some [("1", "T0"); ("2", "T1")]).

Definition w1 : world :=
  World (<["/home/u/a.baz" := File tar_archive]> home) "/home/u" ∅ ∅ 0 [].




(** A handle on an archive, inside its [with] block, and the world with its
    scratch directory. *)
Definition handle : BorgArchive :=
  Self (Some "/home/u/a.baz") (Some "/tmp/tmp0/borg-repo") (Some "/tmp/tmp0")
     false false (Some true).

Definition scratch : world :=
  World (<["/tmp/tmp0/borg-repo" := Dir None]> (<["/tmp/tmp0" := Dir None]>
         (<["/home/u/a.baz" := File tar_archive]> home)))
      "/home/u" ∅ ∅ 1 [].

(** A handle on the expanded repository. *)
Definition persistent : BorgArchive :=
  Self None (Some "/home/u/repo") (Some "/tmp/tmp0") false false (Some false).
End Example.

(** ** Readings of the specification that the properties are compared with *)

Definition probe_cmd (p : string) : list string :=
  ["borg"; "init"; p; "--encryption"; "none"].


(** The exit statuses of the stages. *)
Definition codes (procs : list proc_result) : list Z :=
  (λ pr : proc_result, pr.1.1) <$> procs.

(** The first stage of a pipeline that exited with a non-zero status. *)
Definition first_failing (procs : list proc_result) : option (nat * proc_result) :=
  list_find (λ pr : proc_result, pr.1.1 ≠ 0) procs.

(** The error of a failed pipeline as the specification words it: command,
    exit status and stdout of the first failing stage, stderr of the last. *)
Definition pipeline_error_by_stage (cmds : list (list string))
           (procs : list proc_result) : option exn :=
  match first_failing procs, last procs with
  | Some (i, (rc, out, _)), Some (_, _, err_last) =>
    match cmds !! i with
    | Some cmd => Some (CalledProcessError rc cmd out err_last)
    | None => None
    end
  | _, _ => None
  end.

(** A method is quiet when it runs no command and leaves the instance as
    it is. *)
Definition quiet {A} (m : M A) : Prop :=
  ∀ s, (m s).2.1 = s.1 ∧ trace (m s).2.2 = trace s.2.

(** No node is left at [d] or below it. *)
Definition gone (d : string) (w : world) : Prop :=
  ∀ q, within d q = true → fs w !! q = None.

(** The commands of the teardown. *)
Definition umount_cmd (b : string) : list string := ["umount"; b].
Definition info_cmd (b : string) : list string :=
  ["borg"; "info"; "--error"; "--json"; b].
Definition delete_cmd (b : string) : list string :=
  ["borg"; "delete"; "--error"; "--force"; b].

(** What a teardown runs, given the flags of the handle. *)
Definition teardown_events (self : BorgArchive) (b : string) (temp : bool)
  : list event :=
  (if sqfs_is_mounted self then [Run (umount_cmd b)] else []) ++
  (if temp then [Run (info_cmd b); Run (delete_cmd b)] else []).

(** The directory at [p] holds a repository. *)
Definition is_repository (w : world) (p : string) : Prop :=
  ∃ r, lookup_path w p = Some (Dir (Some r)).

(** [p] is a directory with nothing in it. *)
Definition is_empty_dir (w : world) (p : string) : Prop :=
  lookup_path w p = Some (Dir None) ∧
  ∀ q, String.prefix (abspath w p +:+ "/") q = true → fs w !! q = None.

(** What the program relies on when it runs [borg init]: the engine makes a
    repository of an empty directory, and refuses to initialise over an
    existing repository with exit status 2 and a diagnostic that opens its
    stderr. *)
Record init_contract (P : platform) : Prop := {
  init_on_empty_dir :
    ∀ w p, is_empty_dir w p →
      ∃ out err w', spawn P (probe_cmd p) w = (inr (0, out, err), w') ∧
                    cwd w' = cwd w ∧ is_repository w' p;
  init_on_repository :
    ∀ w p, is_repository w p →
      ∃ out err w', spawn P (probe_cmd p) w = (inr (2, out, err), w') ∧
                    startswith err "A repository already exists at" = true
  }.

(** The commands of a trace that take a snapshot or write an archive. *)
Definition writes_repository (e : event) : bool :=
  match e with
  | Run ("borg" :: "create" :: _) => true
  | Run ("mksquashfs" :: _) => true
  | Pipe (("tar" :: _) :: _) _ _ => true
  | _ => false
  end.

(** The command of [get_tag_list]. *)
Definition list_cmd (full_output : bool) (b : string) : list string :=
  ["borg"; "list"; "--error"; "--format";
 if full_output then "{archive:<36} {time}{NL}" else "{archive}{NL}"; b].

(** The command of the squashfs branch of [__create_compressed_archive]. *)
Definition mksquashfs_cmd (repo_dir a : string) : list string :=
  ["mksquashfs"; repo_dir; a; "-quiet"; "-noappend"; "-no-xattrs"].

(** ** Commands, exceptions and predicates named in further statements *)

(** The exceptions the program raises by itself, with their messages. *)
Definition not_found (cmd : string) : exn :=
  Err CommandNotFoundError ("Required command '" +:+ cmd +:+ "' not found in PATH") None.

Definition invalid_repository (d : string) : exn :=
  Err RepoError ("Invalid repository path supplied: " +:+ dq +:+ d +:+ dq) None.

Definition not_a_repository (repo_dir : string) : exn :=
  Err CollapseError
      ("Failed to collapse repository " +:+ dq +:+ repo_dir +:+ dq
       +:+ ": Not a valid repository directory.") None.

Definition no_mount_directory (mount_dir : string) : exn :=
  Err MountError ("Mount directory '" +:+ mount_dir +:+ "' does not exist") None.

Definition duplicate_tag (tag : string) : exn :=
  Err DuplicateTagException ("Tag " +:+ dq +:+ tag +:+ dq +:+ " already exists.") None.

Definition repository_locked (b : string) : exn :=
  Err UpdateError
      (nl +:+ "Cannot update expanded repository " +:+ dq +:+ name b
       +:+ dq +:+ ". The repository is locked, possibly due to being mounted."
       +:+ nl +:+ "If you have mounted an archive, use `borg-archive unmount` "
       +:+ "to unmount it, then try updating again.") None.

(** [shutil.which(cmd)] finds the command. *)
Definition on_path (P : platform) (cmd : string) : Prop :=
  truthy (which P cmd) = true.



Definition extract_cmd (b tag : string) : list string :=
  ["borg"; "extract"; "--error"; "--progress"; b +:+ "::" +:+ tag].

(** The world after [__set_borg_environ]. *)
Definition borg_environ (w : world) : world :=
  set_environ "BORG_UNKNOWN_UNENCRYPTED_REPO_ACCESS_IS_OK" "yes"
    (set_environ "BORG_RELOCATED_REPO_ACCESS_IS_OK" "yes" w).

(** A method preserves the attribute [f] of the instance when [f] reads the
    same before and after it, whatever the method returns or raises. *)
Definition preserves {X A} (f : BorgArchive → X) (m : M A) : Prop :=
  ∀ s, f (m s).2.1 = f s.1.

(** What is fixed when the instance is constructed: the archive path and
    the squashfs flag. *)
Definition keeps_construction {A} (m : M A) : Prop :=
  preserves archive_path m ∧ preserves sqfs_is_mounted m.

(** A string of ASCII characters none of which ends a line: [splitlines]
    leaves it in one piece. *)
Fixpoint single_line (s : string) : bool :=
  match s with
  | EmptyString => true
  | String c rest =>
      Nat.ltb (nat_of_ascii c) 128 && negb (Nat.eqb (nat_of_ascii c) 13)
      && negb (is_linebreak c) && single_line rest
  end.

(** Every string of the list on a line of its own. *)
Fixpoint unlines (l : list string) : string :=
  match l with
  | [] => ""
  | t :: rest => t +:+ nl +:+ unlines rest
  end.

(** No [BorgArchiveError] leaves the command. *)
Definition contains_errors (m : W unit) : Prop :=
  ∀ w e w', m w = (Raise e, w') → is_instance BorgArchiveError e = false.

(** * Properties *)

(** ** Running a computation step by step *)

Lemma bind_eq {S A B} (m : ST S A) (k : A → ST S B) (s s1 : S) (a : A) :
  m s = (Ok a, s1) → bind m k s = k a s1.
Proof. unfold bind. by intros ->. Qed.

Lemma bind_ok {S A B} (m : ST S A) (k : A → ST S B) (s s' : S) (b : B) :
  bind m k s = (Ok b, s') → ∃ a s1, m s = (Ok a, s1) ∧ k a s1 = (Ok b, s').
Proof.
  unfold bind. destruct (m s) as [[a|e] s1]; [eauto|discriminate].
Qed.

Lemma bind_raise {S A B} (m : ST S A) (k : A → ST S B) (s s1 : S) (e : exn) :
  m s = (Raise e, s1) → bind m k s = (Raise e, s1).
Proof. unfold bind. by intros ->. Qed.

Lemma liftW_eq {A} (m : W A) (self : BorgArchive) (w w' : world) (r : result A) :
  m w = (r, w') → liftW m (self, w) = (r, (self, w')).
Proof. unfold liftW. cbn. by intros ->. Qed.

Lemma try_except_ok {S A} (m : ST S A) (h : exn → ST S A) (s s1 : S) (a : A) :
  m s = (Ok a, s1) → try_except m h s = (Ok a, s1).
Proof. unfold try_except. by intros ->. Qed.

Lemma try_except_raise {S A} (m : ST S A) (h : exn → ST S A) (s s1 : S) (e : exn) :
  m s = (Raise e, s1) → try_except m h s = h e s1.
Proof. unfold try_except. by intros ->. Qed.

Lemma try_finally_eq {S A} (m : ST S A) (f : ST S unit) (s s1 s2 : S)
      (r : result A) :
  m s = (r, s1) → f s1 = (Ok tt, s2) → try_finally m f s = (r, s2).
Proof. unfold try_finally. by intros -> ->. Qed.

(** One step of a computation: the first action is run with the given
    tactic and the computation goes on with its result. *)
Ltac step_by tac := erewrite bind_eq by tac.
Ltac step := step_by ltac:(reflexivity).
Ltac step_with H := step_by ltac:(exact H).
Ltac step_world H := step_by ltac:(apply liftW_eq; exact H).

(** ** Paths *)

Lemma abspath_absolute (w : world) (p : string) :
  String.prefix "/" p = true → abspath w p = p.
Proof. unfold abspath. by intros ->. Qed.


Lemma length_append (a b : string) :
  String.length (a +:+ b) = (String.length a + String.length b)%nat.
Proof. induction a as [|c a IH]; simpl; [done|]. f_equal. exact IH. Qed.

Lemma prefix_slash_cons (a : ascii) (s : string) :
  String.prefix "/" (String a s) = if Ascii.ascii_dec "/" a then true else false.
Proof.
  change (String.prefix "/" (String a s))
    with (if Ascii.ascii_dec "/" a then String.prefix "" s else false).
  destruct (Ascii.ascii_dec "/" a); [by destruct s|done].
Qed.


Lemma joinpath_absolute (d c : string) :
  String.prefix "/" d = true → String.prefix "/" (joinpath d c) = true.
Proof.
  intros Hd. unfold joinpath.
  destruct (String.prefix "/" c) eqn:Hc; [done|].
  destruct (String.eqb d "/").
  { change ("/" +:+ c) with (String "/" c). rewrite prefix_slash_cons.
    by destruct (Ascii.ascii_dec "/" "/"). }
  destruct (String.eqb_spec d ".") as [->|_].
  { rewrite prefix_slash_cons in Hd. by destruct (Ascii.ascii_dec "/" "."). }
  destruct d as [|a d]; [done|].
  change (String a d +:+ "/" +:+ c) with (String a (d +:+ "/" +:+ c)).
  by rewrite prefix_slash_cons in *.
Qed.

Lemma joinpath_relative (d c : string) :
  String.prefix "/" c = false → String.eqb d "/" = false → String.eqb d "." = false →
  joinpath d c = d +:+ "/" +:+ c.
Proof. unfold joinpath. by intros -> -> ->. Qed.

Lemma absolute_not_dot (d : string) :
  String.prefix "/" d = true → String.eqb d "." = false.
Proof.
  intros Hd. apply String.eqb_neq. intros ->.
  rewrite prefix_slash_cons in Hd. by destruct (Ascii.ascii_dec "/" ".").
Qed.

Lemma absolute_nonempty (d : string) :
  String.prefix "/" d = true → (1 ≤ String.length d)%nat.
Proof. destruct d; [discriminate|cbn; lia]. Qed.

(** Below an absolute directory every relative path is longer than the
    directory. *)
Lemma joinpath_absolute_longer (d c : string) :
  String.prefix "/" d = true → String.prefix "/" c = false →
  (String.length d + String.length c ≤ String.length (joinpath d c))%nat.
Proof.
  intros Hd Hc. unfold joinpath. rewrite Hc, (absolute_not_dot d Hd).
  destruct (String.eqb_spec d "/") as [->|_]; rewrite !length_append; cbn; lia.
Qed.


(** ** Format negotiation *)

(** C7: for an existing archive file, [get_best_archiver] looks at the first
    four bytes only: the answer is squashfs when they are the squashfs magic
    and tar for every other value, whatever tools the platform has; the world
    is left as it was. *)
Theorem get_best_archiver_sniffs_magic (P : platform) (w : world) (p data : string) :
  lookup_path w p = Some (File data) →
  get_best_archiver P (Some p) w =
    (Ok (if String.eqb (take_str 4 data) "hsqs" then "squashfs" else "tar"), w).
Proof.
  intros Hfile.
  unfold get_best_archiver, bind, is_file, read_file, gets, ret.
  cbn beta. rewrite !Hfile.
  destruct (String.eqb (take_str 4 data) "hsqs"); reflexivity.
Qed.

Lemma get_best_archiver_sniffs_magic_witness :
  get_best_archiver (Ref.host Example.tools_squashfs) (Some "a.baz") Example.w1 =
    (Ok "tar", Example.w1).
Proof.
  exact (get_best_archiver_sniffs_magic (Ref.host Example.tools_squashfs)
           Example.w1 "a.baz" Example.tar_archive eq_refl).
Defined.

(** ** Required commands *)

Lemma check_commands_ok (P : platform) (l : list string) :
  check_commands P l = Ok tt ↔ ∀ cmd, cmd ∈ l → truthy (which P cmd) = true.
Proof.
  induction l as [|c l IH]; simpl.
  - split; [intros _ cmd Hin; inversion Hin | reflexivity].
  - destruct (truthy (which P c)) eqn:Hc; simpl.
    + rewrite IH. split.
      * intros H cmd Hin. apply elem_of_cons in Hin as [->|Hin]; auto.
      * intros H cmd Hin. apply H. by right.
    + split; [discriminate|].
      intros H. specialize (H c (list_elem_of_here _ _)). congruence.
Qed.

Lemma check_commands_raises (P : platform) (l : list string) :
  (∃ cmd, cmd ∈ l ∧ truthy (which P cmd) = false) →
  ∃ text, check_commands P l = Raise (Err CommandNotFoundError text None).
Proof.
  induction l as [|c l IH]; simpl.
  - intros (cmd & Hin & _). inversion Hin.
  - intros (cmd & Hin & Hcmd).
    destruct (truthy (which P c)) eqn:Hc; simpl; [|eauto].
    apply IH. exists cmd. split; [|done].
    apply elem_of_cons in Hin as [->|Hin]; [congruence|done].
Qed.

(** What [__init__] does once its path arguments are sorted out. *)
Lemma init_outcome (P : platform) (a r : option string) (w : world) :
  ∃ self,
    __init__ P a r w =
      match check_required_commands P with
      | Ok _ => (Ok self, w)
      | Raise e => (Raise e, w)
      end.
Proof.
  unfold __init__. generalize (check_required_commands P). intros c.
  unfold bind, resolve, is_dir, gets, ret, of_result, raise.
  destruct a as [a|], r as [r|]; cbn;
    repeat match goal with
           | |- context [match lookup_path ?w ?p with _ => _ end] =>
               destruct (lookup_path w p) as [[?|?]|]; cbn
           end;
    destruct c as [[]|e]; cbn; eauto;
    by exists (Self None None None false false None).
Qed.

(** C10: constructing a [BorgArchive] raises [CommandNotFoundError] as soon
    as one of borg, tar and zstd is not on PATH; so wherever an instance was
    constructed, [get_best_compressor("tar")] answers with the zstd pair and
    its pigz, gzip and error branches are not taken. *)
Theorem init_requires_borg_tar_zstd (P : platform) (a r : option string) (w : world) :
  (∀ cmd, cmd ∈ ["borg"; "tar"; "zstd"] → truthy (which P cmd) = false →
     ∃ text w', __init__ P a r w = (Raise (Err CommandNotFoundError text None), w'))
  ∧ (∀ self w', __init__ P a r w = (Ok self, w') →
       get_best_compressor P "tar" = Ok ("zstd -9", "zstd -d")).
Proof.
  destruct (init_outcome P a r w) as [self Hinit]. split.
  - intros cmd Hin Hmissing.
    destruct (check_commands_raises P ["borg"; "tar"; "zstd"]) as [text Htext];
      [eauto|].
    unfold check_required_commands in Hinit. rewrite Htext in Hinit. eauto.
  - intros self' w' Hok. rewrite Hinit in Hok.
    destruct (check_required_commands P) as [[]|e] eqn:Hchk; [|discriminate].
    pose proof (proj1 (check_commands_ok P _) Hchk) as Hall.
    unfold get_best_compressor. simpl.
    rewrite (Hall "zstd"); [reflexivity|]. set_solver.
Qed.

Lemma init_requires_borg_tar_zstd_witness :
  (∃ text w', __init__ (Ref.host ["borg"; "tar"]) (Some "a.baz") None Example.w1
              = (Raise (Err CommandNotFoundError text None), w'))
  ∧ get_best_compressor (Ref.host Example.tools) "tar" = Ok ("zstd -9", "zstd -d").
Proof.
  split.
  - apply (proj1 (init_requires_borg_tar_zstd (Ref.host ["borg"; "tar"])
                    (Some "a.baz") None Example.w1) "zstd").
    + set_solver.
    + reflexivity.
  - eapply (proj2 (init_requires_borg_tar_zstd (Ref.host Example.tools)
                     (Some "a.baz") None Example.w1)).
    vm_compute. reflexivity.
Defined.

(** ** The repository-validity probe *)

(** What the probe answers when the engine ran to completion. *)
Lemma dir_is_repo_exited (P : platform) (p : string) (w w' : world)
      (rc : Z) (out err : string) :
  spawn P (probe_cmd p) w = (inr (rc, out, err), w') →
  dir_is_repo P p w =
    (Ok ((rc =? 2) && startswith err "A repository already exists at"),
     log (Run (probe_cmd p)) w w').
Proof.
  intros Hrun.
  unfold dir_is_repo, try_except, bind, subprocess_run. fold (probe_cmd p).
  rewrite Hrun. cbn.
  destruct (Z.eqb_spec rc 0) as [->|Hne]; cbn; [reflexivity|].
  unfold from_option, bind, ret. cbn.
  destruct ((rc =? 2) && startswith err "A repository already exists at");
    reflexivity.
Qed.

(** When the engine cannot be started, the exception is passed on. *)
Lemma dir_is_repo_not_started (P : platform) (p : string) (w w' : world) (e : exn) :
  is_CalledProcessError e = false →
  spawn P (probe_cmd p) w = (inl e, w') →
  dir_is_repo P p w = (Raise e, log (Run (probe_cmd p)) w w').
Proof.
  intros He Hrun.
  unfold dir_is_repo, try_except, bind, subprocess_run. fold (probe_cmd p).
  rewrite Hrun. cbn. destruct e; try reflexivity. discriminate.
Qed.




(** ** Pipelines *)

Section pipeline.
Context (suppress_stderr : bool).

(** The loop over the stages before the last one only collects exit codes. *)
Lemma communicate_before_last (n : nat) (procs : list proc_result) :
  (length procs < n)%nat →
  fold_left (communicate_step n suppress_stderr) (imap pair procs) (None, None, []) =
    (None, if procs is [] then None else Some "", codes procs).
Proof.
  induction procs as [|pr procs IH] using rev_ind; [reflexivity|].
  rewrite length_app. cbn [length]. intros Hlen.
  rewrite imap_app, fold_left_app, IH by lia. cbn.
  destruct pr as [[rc out] err]. cbn.
  replace (length procs + 0 =? n - 1)%nat with false
    by (symmetry; apply Nat.eqb_neq; lia).
  cbn. unfold codes. rewrite fmap_app. cbn.
  destruct procs; reflexivity.
Qed.

(** After the loop: the exit codes of all stages, and the output and the
    stderr of the last one. *)
Lemma communicate_all_last (procs : list proc_result) (rc : Z)
      (out err : option string) :
  communicate_all (procs ++ [(rc, out, err)]) suppress_stderr =
    (out, if suppress_stderr then Some "" else err, codes procs ++ [rc]).
Proof.
  unfold communicate_all.
  rewrite imap_app, fold_left_app, length_app. cbn [length].
  rewrite communicate_before_last by lia. cbn.
  replace (length procs + 0 =? length procs + 1 - 1)%nat with true
    by (symmetry; apply Nat.eqb_eq; lia).
  cbn. destruct suppress_stderr; reflexivity.
Qed.
End pipeline.

Lemma first_failing_codes (procs : list proc_result) (i : nat) (pr : proc_result) :
  first_failing procs = Some (i, pr) →
  Exists (λ code, code ≠ 0) (codes procs) ∧
  next_nonzero (codes procs) = Some pr.1.1 ∧
  index pr.1.1 (codes procs) = Some i.
Proof.
  unfold first_failing, next_nonzero. revert i.
  induction procs as [|q procs IH]; intros i; cbn; [discriminate|].
  destruct (decide (q.1.1 ≠ 0)) as [Hq|Hq]; cbn.
  - intros [= <- <-]. rewrite Z.eqb_refl.
    split; [by left|]. split; reflexivity.
  - destruct (list_find _ procs) as [[j r]|] eqn:Hfind; cbn; [|discriminate].
    intros [= <- <-]. destruct (IH j eq_refl) as (Hex & Hnext & Hidx).
    split; [|split].
    + by right.
    + exact Hnext.
    + assert (q.1.1 = 0) as -> by (destruct (decide (q.1.1 = 0)); [done|tauto]).
      destruct (Z.eqb_spec 0 r.1.1) as [Heq|_].
      * apply list_find_Some in Hfind as (_ & Hr & _). congruence.
      * fold (codes procs). rewrite Hidx. reflexivity.
Qed.

Lemma first_failing_none (procs : list proc_result) :
  first_failing procs = None → ¬ Exists (λ code, code ≠ 0) (codes procs).
Proof.
  unfold first_failing. intros Hnone Hex.
  apply list_find_None in Hnone.
  apply Exists_exists in Hex as (c & Hin & Hc).
  apply list_elem_of_fmap in Hin as (pr & -> & Hpr).
  rewrite Forall_forall in Hnone. exact (Hnone pr Hpr Hc).
Qed.

Lemma codes_snoc (procs : list proc_result) (rc : Z) (out err : option string) :
  codes (procs ++ [(rc, out, err)]) = codes procs ++ [rc].
Proof. unfold codes. by rewrite fmap_app. Qed.

(** C8, as stated, fails: tar is asked to archive a directory that does not
    exist and fails with status 2, the compressor after it exits with status
    0.  The error names tar but carries status 0 and the stdout of the
    compressor, not the status and stdout of tar. *)
Lemma run_pipeline_stage_counterexample :
  let P := Ref.host Example.tools in
  let tar := ["tar"; "--format=pax"; "-cv"; "missing"] in
  let cmds := [tar; ["zstd"; "-9"]] in
  let diagnostic :=
    "tar: missing: Cannot stat: No such file or directory" +:+ Ref.nl in
  let procs := [(2, Some "", Some diagnostic); (0, None, Some "")] in
  ∃ w1 e w',
    spawn_pipeline P cmds None (Some "/home/u/a.baz") Example.w0 = (inr procs, w1) ∧
    run_pipeline P cmds true None (Some "/home/u/a.baz") false Example.w0
      = (Raise e, w') ∧
    e = CalledProcessError 0 tar None (Some "") ∧
    pipeline_error_by_stage cmds procs =
      Some (CalledProcessError 2 tar (Some "") (Some "")) ∧
    Some e ≠ pipeline_error_by_stage cmds procs.
Proof.
  cbn zeta. eexists _, _, _. split; [vm_compute; reflexivity|].
  split; [vm_compute; reflexivity|].
  split; [reflexivity|]. split; [vm_compute; reflexivity|].
  vm_compute. discriminate.
Qed.

(** C8, amended: when checking is enabled and some stage exits non-zero,
    [run_pipeline] raises an error that names the command of the first failing
    stage (stage [i] failed and every stage before it exited with zero) and
    carries the stdout of the final stage and the stderr of the
    final stage (the empty string when stderr is suppressed); when checking
    is disabled or every stage exits with zero, it returns a completed process
    for the final stage. *)
Theorem run_pipeline_outcome (P : platform) (cmds : list (list string))
        (check : bool) (stdin stdout : option string) (suppress_stderr : bool)
        (w w' : world) (procs : list proc_result) :
  spawn_pipeline P cmds stdin stdout w = (inr procs, w') →
  length procs = length cmds →
  cmds ≠ [] →
  ∃ rc_last out_last err_last last_cmd,
    last procs = Some (rc_last, out_last, err_last) ∧
    last cmds = Some last_cmd ∧
    let stderr_output := if suppress_stderr then Some "" else err_last in
    let w'' := log (Pipe cmds stdin stdout) w w' in
    match (if check then first_failing procs else None) with
    | Some (i, pr) =>
        ∃ failed_cmd rc,
          procs !! i = Some pr ∧ pr.1.1 ≠ 0 ∧
          (∀ j pr', procs !! j = Some pr' → (j < i)%nat → pr'.1.1 = 0) ∧
          cmds !! i = Some failed_cmd ∧
          run_pipeline P cmds check stdin stdout suppress_stderr w =
            (Raise (CalledProcessError rc failed_cmd out_last stderr_output), w'')
    | None =>
        run_pipeline P cmds check stdin stdout suppress_stderr w =
          (Ok (Completed last_cmd rc_last out_last stderr_output), w'')
    end.
Proof.
  intros Hspawn Hlen Hcmds.
  assert (procs ≠ []) as Hprocs by (intros ->; destruct cmds; done).
  destruct (exists_last Hprocs) as (front & [[rc out] err] & Hp).
  destruct (exists_last Hcmds) as (cfront & last_cmd & Hc).
  assert (last procs = Some (rc, out, err)) as Hlastp
    by (rewrite Hp; apply last_snoc).
  assert (last cmds = Some last_cmd) as Hlastc by (rewrite Hc; apply last_snoc).
  assert (last (codes procs) = Some rc) as Hlast
    by (rewrite Hp, codes_snoc; apply last_snoc).
  assert (communicate_all procs suppress_stderr =
          (out, if suppress_stderr then Some "" else err, codes procs)) as Hcomm
    by (rewrite Hp, communicate_all_last, codes_snoc; reflexivity).
  exists rc, out, err, last_cmd.
  split; [done|]. split; [done|]. cbn zeta.
  assert (run_pipeline P cmds check stdin stdout suppress_stderr w =
          (let '(stdout, stderr_output, return_codes) :=
             communicate_all procs suppress_stderr in
           if check && bool_decide (Exists (λ code, code ≠ 0) return_codes) then
             code <- from_option IndexError (next_nonzero return_codes) ;;
             i <- from_option (ValueError "not in list") (index code return_codes) ;;
             failed_cmd <- from_option IndexError (cmds !! i) ;;
             rc_last <- from_option IndexError (last return_codes) ;;
             raise (CalledProcessError rc_last failed_cmd stdout stderr_output)
           else
             rc_last <- from_option IndexError (last return_codes) ;;
             last_cmd <- from_option IndexError (last cmds) ;;
             ret (Completed last_cmd rc_last stdout stderr_output))
            (log (Pipe cmds stdin stdout) w w')) as ->.
  { destruct cmds as [|c cs]; [done|].
    unfold run_pipeline, bind at 1, popen_pipeline. by rewrite Hspawn. }
  rewrite Hcomm.
  destruct check; cbn [andb]; cbv iota.
  - destruct (first_failing procs) as [[i pr]|] eqn:Hff.
    + destruct (first_failing_codes _ _ _ Hff) as (Hex & Hnext & Hidx).
      rewrite (bool_decide_eq_true_2 _ Hex).
      apply list_find_Some in Hff as (Hi & Hpr & Hleast).
      pose proof (lookup_lt_Some _ _ _ Hi) as Hlt.
      assert ((i < length cmds)%nat) as Hi' by (rewrite <- Hlen; exact Hlt).
      destruct (lookup_lt_is_Some_2 cmds i Hi') as [failed_cmd Hfc].
      exists failed_cmd, rc. split; [done|]. split; [done|].
      split.
      { intros j pr' Hj Hji. specialize (Hleast j pr' Hj Hji). cbn in Hleast. lia. }
      split; [done|].
      unfold bind, from_option, raise, ret.
      rewrite Hnext, Hidx, Hfc, Hlast. reflexivity.
    + rewrite (bool_decide_eq_false_2 _ (first_failing_none _ Hff)).
      unfold bind, from_option, raise, ret. rewrite Hlast, Hlastc. reflexivity.
  - unfold bind, from_option, raise, ret. rewrite Hlast, Hlastc. reflexivity.
Qed.

Lemma run_pipeline_outcome_witness :
  let P := Ref.host Example.tools in
  let cmds := [["tar"; "--format=pax"; "-cv"; "missing"]; ["zstd"; "-9"]] in
  let diagnostic :=
    "tar: missing: Cannot stat: No such file or directory" +:+ Ref.nl in
  let procs := [(2, Some "", Some diagnostic); (0, None, Some "")] in
  let w1 := (spawn_pipeline P cmds None (Some "/home/u/a.baz") Example.w0).2 in
  ∃ rc_last out_last err_last last_cmd,
    last procs = Some (rc_last, out_last, err_last) ∧
    last cmds = Some last_cmd ∧
    match first_failing procs with
    | Some (i, pr) =>
        ∃ failed_cmd rc,
          procs !! i = Some pr ∧ pr.1.1 ≠ 0 ∧
          (∀ j pr', procs !! j = Some pr' → (j < i)%nat → pr'.1.1 = 0) ∧
          cmds !! i = Some failed_cmd ∧
          run_pipeline P cmds true None (Some "/home/u/a.baz") false Example.w0 =
            (Raise (CalledProcessError rc failed_cmd out_last err_last),
             log (Pipe cmds None (Some "/home/u/a.baz")) Example.w0 w1)
    | None =>
        run_pipeline P cmds true None (Some "/home/u/a.baz") false Example.w0 =
          (Ok (Completed last_cmd rc_last out_last err_last),
           log (Pipe cmds None (Some "/home/u/a.baz")) Example.w0 w1)
    end.
Proof.
  intros P cmds diagnostic procs w1.
  apply (run_pipeline_outcome P cmds true None (Some "/home/u/a.baz") false
           Example.w0 w1 procs).
  - vm_compute. reflexivity.
  - reflexivity.
  - discriminate.
Defined.

(** ** The tag registry *)

(** Where the loop stops, every candidate before it is taken and the one it
    stops at is free. *)
Lemma skip_used_sound (fuel : nat) (tags : gset string) (c n : Z) :
  skip_used fuel tags c = Some n →
  c ≤ n ∧ (pretty n ∉ tags) ∧ ∀ m, c ≤ m < n → pretty m ∈ tags.
Proof.
  revert c. induction fuel as [|fuel IH]; intros c; cbn; [discriminate|].
  case_bool_decide as Hc.
  - intros Hn. destruct (IH _ Hn) as (Hle & Hfree & Hused).
    split; [lia|]. split; [done|].
    intros m Hm. destruct (decide (m = c)) as [->|Hne]; [done|].
    apply Hused. lia.
  - intros [= <-]. split; [lia|]. split; [done|]. intros m Hm. lia.
Qed.

(** When the fuel runs out, as many candidates as there was fuel are taken. *)
Lemma skip_used_out_of_fuel (fuel : nat) (tags : gset string) (c : Z) :
  skip_used fuel tags c = None →
  ∀ m, c ≤ m < c + Z.of_nat fuel → pretty m ∈ tags.
Proof.
  revert c. induction fuel as [|fuel IH]; intros c; cbn.
  - intros _ m Hm. lia.
  - case_bool_decide as Hc; [|discriminate].
    intros Hnone m Hm. destruct (decide (m = c)) as [->|Hne]; [done|].
    apply (IH _ Hnone). lia.
Qed.

(** A set of [k] tags cannot hold [k + 1] different decimal numerals, so the
    loop ends within [k + 1] tests. *)
Lemma skip_used_terminates (tags : gset string) (c : Z) :
  is_Some (skip_used (S (size tags)) tags c).
Proof.
  destruct (skip_used (S (size tags)) tags c) as [n|] eqn:Hloop; [by eexists|].
  exfalso.
  pose proof (skip_used_out_of_fuel _ _ _ Hloop) as Hall.
  set (l := (pretty : Z → string) <$> seqZ c (Z.of_nat (S (size tags)))).
  assert (NoDup l) as Hnodup by (apply (NoDup_fmap_2 _), NoDup_seqZ).
  assert (l ⊆+ elements tags) as Hsub.
  { apply NoDup_submseteq; [done|].
    intros s Hs. apply list_elem_of_fmap in Hs as (m & -> & Hm).
    apply elem_of_seqZ in Hm. apply elem_of_elements, Hall. lia. }
  apply submseteq_length in Hsub.
  unfold l in Hsub. rewrite length_fmap, length_seqZ in Hsub.
  change (length (elements tags)) with (size tags) in Hsub. lia.
Qed.

(** C1: whatever list of tags the engine reports, [generate_next_tag(None)]
    returns the decimal numeral of a number [n] that is at least the number
    of tags plus one, is not a tag, and is the smallest such: every numeral
    from the tag count plus one up to [n - 1] is a tag. *)
Theorem generate_next_tag_fresh (P : platform) (self : BorgArchive) (w : world)
        (l : list string) (s' : BorgArchive * world) :
  get_tag_list P false (self, w) = (Ok l, s') →
  let tags : gset string := list_to_set l in
  ∃ n : Z,
    generate_next_tag P None (self, w) = (Ok (pretty n), s') ∧
    (pretty n ∉ tags) ∧
    Z.of_nat (size tags) + 1 ≤ n ∧
    ∀ m, Z.of_nat (size tags) + 1 ≤ m < n → pretty m ∈ tags.
Proof.
  intros Hlist tags.
  destruct (skip_used_terminates tags (Z.of_nat (size tags) + 1)) as [n Hn].
  exists n.
  destruct (skip_used_sound _ _ _ _ Hn) as (Hle & Hfree & Hused).
  split; [|done].
  unfold generate_next_tag, bind at 1. rewrite Hlist.
  fold tags. unfold bind, from_option, ret. rewrite Hn. reflexivity.
Qed.

Lemma generate_next_tag_fresh_witness :
  let P := Ref.host Example.tools in
  let self := Self None (Some "/home/u/repo") None false false (Some false) in
  let tags : gset string := list_to_set ["1"; "2"] in
  ∃ n : Z,
    generate_next_tag P None (self, Example.w0) =
      (Ok (pretty n), (get_tag_list P false (self, Example.w0)).2) ∧
    (pretty n ∉ tags) ∧
    Z.of_nat (size tags) + 1 ≤ n ∧
    ∀ m, Z.of_nat (size tags) + 1 ≤ m < n → pretty m ∈ tags.
Proof.
  cbn zeta.
  apply (generate_next_tag_fresh (Ref.host Example.tools)
           (Self None (Some "/home/u/repo") None false false (Some false))
           Example.w0 ["1"; "2"]).
  vm_compute. reflexivity.
Defined.

(** ** Teardown *)

Lemma quiet_ret {A} (a : A) : quiet (ret a).
Proof. by intros s. Qed.

Lemma quiet_raise {A} (e : exn) : quiet (raise (A:=A) e).
Proof. by intros s. Qed.

Lemma quiet_bind {A B} (m : M A) (k : A → M B) :
  quiet m → (∀ a, quiet (k a)) → quiet (bind m k).
Proof.
  intros Hm Hk s. unfold bind. specialize (Hm s).
  destruct (m s) as [[a|e] s1]; cbn in *; [|done].
  specialize (Hk a s1). destruct (k a s1) as [r s2]; cbn in *.
  destruct Hm, Hk. split; congruence.
Qed.

Lemma quiet_of_result {A} (r : result A) : quiet (of_result r).
Proof. destruct r; [apply quiet_ret | apply quiet_raise]. Qed.

Lemma quiet_liftW {A} (m : W A) :
  (∀ w, trace (m w).2 = trace w) → quiet (liftW m).
Proof.
  intros Hm s. unfold liftW. specialize (Hm s.2).
  destruct (m s.2) as [r w']; by cbn in *.
Qed.

Lemma remove_if_exists_trace (p : string) (w : world) :
  trace (remove_if_exists p w).2 = trace w.
Proof.
  unfold remove_if_exists, bind, exists_, gets, rmtree, ret.
  destruct (lookup_path w p) as [n|] eqn:Hp; cbn; [|done].
  unfold lookup_path in Hp. rewrite Hp. by destruct n.
Qed.

Lemma purge_side_files_quiet (info : json) : quiet (purge_side_files info).
Proof.
  unfold purge_side_files.
  repeat first
    [ apply quiet_bind; [|intros ?]
    | apply quiet_of_result
    | apply quiet_ret
    | apply quiet_liftW, remove_if_exists_trace
    | match goal with |- quiet (if ?b then _ else _) => destruct b end ].
Qed.

Lemma run_command_logs (P : platform) (cmd : list string)
      (check capture_output suppress_stderr : bool) (w : world) :
  ∃ r w1, run_command P cmd check capture_output suppress_stderr w = (r, w1) ∧
          trace w1 = trace w ++ [Run cmd].
Proof.
  unfold run_command, try_except, subprocess_run, raise, log.
  destruct (spawn P cmd w) as [[e|[[rc o] er]] w']; cbn; [eauto|].
  destruct (check && negb (rc =? 0)); cbn; eauto.
Qed.

(** The purge of the side files asks the engine once and never fails. *)
Lemma cleanup_borg_files_logs (P : platform) (self : BorgArchive) (w : world)
      (o : option string) (b : string) :
  (if o is Some p then Some p else borg_dir self) = Some b →
  ∃ w1, __cleanup_borg_files P o (self, w) = (Ok tt, (self, w1)) ∧
        trace w1 = trace w ++ [Run (info_cmd b)].
Proof.
  intros Hb.
  assert (__cleanup_borg_files P o (self, w) =
          try_except
            (liftW (__set_borg_environ) ;;;
             repo <- need (Some b) ;;
             result <- liftW (run_command P (info_cmd repo) false true true) ;;
             if negb (returncode result =? 0) then ret tt
             else
               out <- need (stdout result) ;;
               info <- from_option JSONDecodeError (json_loads P out) ;;
               purge_side_files info)
            (λ _, ret tt) (self, w)) as ->.
  { unfold __cleanup_borg_files, bind at 1. destruct o as [p|]; cbn in Hb.
    - injection Hb as ->. reflexivity.
    - unfold self_, gets. cbn. rewrite Hb. reflexivity. }
  unfold try_except, bind at 1. cbn.
  unfold bind at 1. cbn. unfold bind at 1, liftW at 1. cbn.
  set (w0 := set_environ _ _ (set_environ _ _ w)).
  destruct (run_command_logs P (info_cmd b) false true true w0)
    as (r & w1 & Hrun & Htrace).
  rewrite Hrun. change (trace w0) with (trace w) in Htrace.
  destruct r as [res|e]; cbn; [|eauto].
  destruct (negb (returncode res =? 0)); cbn; [eauto|].
  destruct (stdout res) as [out|]; cbn; [|eauto].
  unfold bind at 1.
  destruct (json_loads P out) as [info|]; cbn; [|eauto].
  destruct (purge_side_files_quiet info (self, w1)) as [Hself Htr].
  destruct (purge_side_files info (self, w1)) as [r [self' w2]]; cbn in *.
  subst self'. exists w2. split; [by destruct r as [[]|]|]. congruence.
Qed.

(** Deleting the repository asks the engine twice and never fails. *)
Lemma delete_borg_repo_logs (P : platform) (self : BorgArchive) (w : world)
      (b : string) :
  borg_dir self = Some b →
  ∃ w1, __delete_borg_repo P (self, w) = (Ok tt, (self, w1)) ∧
        trace w1 = trace w ++ [Run (info_cmd b); Run (delete_cmd b)].
Proof.
  intros Hb. unfold __delete_borg_repo, bind at 1.
  destruct (cleanup_borg_files_logs P self w None b) as (w1 & -> & Htr1); [done|].
  unfold try_except, bind at 1. cbn. unfold bind at 1, self_, gets. cbn.
  rewrite Hb. cbn. unfold bind at 1, liftW at 1. cbn.
  set (w0 := set_environ _ _ (set_environ _ _ w1)).
  destruct (run_command_logs P (delete_cmd b) false false true w0)
    as (r & w2 & Hrun & Htrace).
  fold (delete_cmd b). rewrite Hrun. change (trace w0) with (trace w1) in Htrace.
  exists w2. split; [by destruct r|].
  rewrite Htrace, Htr1, <- app_assoc. reflexivity.
Qed.

Lemma umount_step_logs (P : platform) (self : BorgArchive) (w : world) (b : string) :
  borg_dir self = Some b →
  ∃ w1,
    try_except
      (d <- self_ borg_dir ;;
       d <- need d ;;
       liftW (run_command P ["umount"; d] true false false) ;;;
       ret tt)
      (λ _, ret tt) (self, w) = (Ok tt, (self, w1)) ∧
    trace w1 = trace w ++ [Run (umount_cmd b)].
Proof.
  intros Hb. unfold try_except, bind at 1, self_, gets. cbn. rewrite Hb. cbn.
  unfold bind at 1, liftW. cbn.
  destruct (run_command_logs P (umount_cmd b) true false false w)
    as (r & w1 & Hrun & Htrace).
  fold (umount_cmd b). rewrite Hrun. exists w1. by destruct r.
Qed.

Lemma rmtree_gone (a : string) (m : gmap string node) :
  ∀ q, within a q = true →
       filter (λ kv : string * node, within a kv.1 = false) m !! q = None.
Proof.
  intros q Hq. apply map_lookup_filter_None. right. intros x _. cbn. congruence.
Qed.

Lemma rmtree_frame (a : string) (m : gmap string node) :
  ∀ q, within a q = false →
       filter (λ kv : string * node, within a kv.1 = false) m !! q = m !! q.
Proof.
  intros q Hq. destruct (m !! q) as [x|] eqn:Hx.
  - by apply map_lookup_filter_Some.
  - apply map_lookup_filter_None. by left.
Qed.

(** Removing the scratch directory: the whole tree goes, nothing else. *)
Lemma remove_temp_dir_spec (self : BorgArchive) (w : world) (d : string) :
  temp_dir self = Some d →
  match lookup_path w d with
  | Some (Dir _) =>
      ∃ w3, __remove_temp_dir None (self, w) = (Ok tt, (self, w3)) ∧
            gone (abspath w d) w3 ∧
            (∀ q, within (abspath w d) q = false → fs w3 !! q = fs w !! q) ∧
            trace w3 = trace w
  | Some (File _) =>
      __remove_temp_dir None (self, w) =
        (Raise (OSError "NotADirectoryError"), (self, w))
  | None => __remove_temp_dir None (self, w) = (Ok tt, (self, w))
  end.
Proof.
  intros Hd.
  unfold __remove_temp_dir, bind, self_, gets, need, ret, liftW, exists_, rmtree.
  cbn. rewrite Hd. cbn.
  destruct (lookup_path w d) as [[data|r]|] eqn:Hp; cbn;
    unfold lookup_path in Hp; rewrite ?Hp; try reflexivity.
  eexists. split; [reflexivity|]. cbn.
  split; [intros q; apply rmtree_gone|].
  split; [intros q; apply rmtree_frame | reflexivity].
Qed.

Lemma liftW_self {A} (m : W A) (s s' : BorgArchive * world) (r : result A) :
  liftW m s = (r, s') → s'.1 = s.1.
Proof. unfold liftW. destruct (m s.2). by intros [= _ <-]. Qed.

(** Entering the [with] block gives the handle its repository path, its
    scratch directory and its temporary flag; the mount flags stay. *)
Lemma enter_prepares_handle (P : platform) (s s' : BorgArchive * world) :
  __enter__ P s = (Ok tt, s') →
  is_Some (borg_dir s'.1) ∧ is_Some (temp_dir s'.1) ∧
  is_Some (borg_dir_is_temp s'.1) ∧
  is_mounted s'.1 = is_mounted s.1 ∧
  sqfs_is_mounted s'.1 = sqfs_is_mounted s.1.
Proof.
  unfold __enter__. change (negb DEBUG) with true. cbv iota. intros H.
  apply bind_ok in H as (d & s1 & H1 & H). apply liftW_self in H1.
  apply bind_ok in H as ([] & s2 & [= <-] & H).
  apply bind_ok in H as (b & s3 & [= <- <-] & H).
  apply bind_ok in H as ([] & s4 & H4 & H).
  apply bind_ok in H as (b' & s5 & [= <- <-] & H).
  apply bind_ok in H as (b'' & s6 & H6 & H).
  apply liftW_self in H. rewrite H. clear H.
  destruct (borg_dir s4.1) as [x|] eqn:Hb; [|discriminate].
  injection H6 as <- <-.
  assert (temp_dir s4.1 = Some d ∧ is_Some (borg_dir_is_temp s4.1) ∧
          is_mounted s4.1 = is_mounted s.1 ∧
          sqfs_is_mounted s4.1 = sqfs_is_mounted s.1) as (Ht & Hf & Hm & Hq).
  { destruct s as [self w], s1 as [self1 w1]. cbn in *. subst self1.
    destruct (borg_dir self) as [repo|] eqn:Hrepo; cbn in H4.
    - apply bind_ok in H4 as (r & s3 & H3 & H4). apply liftW_self in H3.
      destruct r; [|discriminate]. injection H4 as <-.
      destruct s3 as [self3 w3]. cbn in *. subst self3. by eauto.
    - injection H4 as <-. cbn. by eauto. }
  rewrite Hb, Ht. by eauto.
Qed.

(** A mount that returns has marked the handle. *)
Lemma mount_marks_mounted (P : platform) (mount_dir : string) (tag : option string)
      (s s' : BorgArchive * world) :
  mount P mount_dir tag s = (Ok tt, s') → is_mounted s'.1 = true.
Proof.
  unfold mount. intros H.
  apply bind_ok in H as (? & s1 & _ & H).
  apply bind_ok in H as (? & s2 & _ & H).
  apply bind_ok in H as (? & s3 & _ & H).
  apply bind_ok in H as (? & s4 & _ & H).
  unfold set_self, modify in H. by injection H as <-.
Qed.

(** C4: a handle that [mount] has marked is left alone on exit: nothing is
    run, nothing is removed.  A handle that is not marked is torn down: the
    squashfs loop mount, if any, is unmounted, the repository is deleted when
    it is flagged temporary, and the scratch directory is removed with
    everything in it. *)
Theorem exit_tears_down_unless_mounted (P : platform) :
  (∀ mount_dir tag s s',
     mount P mount_dir tag s = (Ok tt, s') → is_mounted s'.1 = true) ∧
  (∀ self w, is_mounted self = true → __exit__ P (self, w) = (Ok tt, (self, w))) ∧
  (∀ self w b d temp,
     is_mounted self = false →
     borg_dir self = Some b →
     temp_dir self = Some d →
     borg_dir_is_temp self = Some temp →
     ∃ w2,
       trace w2 = trace w ++ teardown_events self b temp ∧
       match lookup_path w2 d with
       | Some (Dir _) =>
           ∃ w3, __exit__ P (self, w) = (Ok tt, (self, w3)) ∧
                 gone (abspath w2 d) w3 ∧
                 (∀ q, within (abspath w2 d) q = false → fs w3 !! q = fs w2 !! q) ∧
                 trace w3 = trace w2
       | Some (File _) =>
           __exit__ P (self, w) = (Raise (OSError "NotADirectoryError"), (self, w2))
       | None => __exit__ P (self, w) = (Ok tt, (self, w2))
       end).
Proof.
  split; [apply mount_marks_mounted|]. split.
  - intros self w Hm. unfold __exit__, bind, self_, gets. cbn. by rewrite Hm.
  - intros self w b d temp Hm Hb Hd Ht.
    assert (∃ w1, (if sqfs_is_mounted self then
                     try_except
                       (d <- self_ borg_dir ;;
                        d <- need d ;;
                        liftW (run_command P ["umount"; d] true false false) ;;;
                        ret tt)
                       (λ _, ret tt)
                   else ret tt) (self, w) = (Ok tt, (self, w1)) ∧
                  trace w1 = trace w ++
                    (if sqfs_is_mounted self then [Run (umount_cmd b)] else []))
      as (w1 & Hstep1 & Htr1).
    { destruct (sqfs_is_mounted self).
      - apply umount_step_logs, Hb.
      - exists w. by rewrite app_nil_r. }
    assert (∃ w2, (if temp then __delete_borg_repo P else ret tt) (self, w1)
                  = (Ok tt, (self, w2)) ∧
                  trace w2 = trace w1 ++
                    (if temp then [Run (info_cmd b); Run (delete_cmd b)] else []))
      as (w2 & Hstep2 & Htr2).
    { destruct temp.
      - apply delete_borg_repo_logs, Hb.
      - exists w1. by rewrite app_nil_r. }
    exists w2. split.
    { unfold teardown_events. by rewrite Htr2, Htr1, <- app_assoc. }
    assert (__exit__ P (self, w) = __remove_temp_dir None (self, w2)) as ->.
    { assert (get_borg_dir_is_temp (self, w1) = (Ok temp, (self, w1))) as Htemp
        by (unfold get_borg_dir_is_temp, bind, self_, gets; cbn; by rewrite Ht).
      unfold __exit__.
      step. cbn [fst]. rewrite Hm.
      change (negb false && negb DEBUG) with true. cbv iota.
      step.
      step_with Hstep1.
      step_with Htemp.
      step_with Hstep2.
      reflexivity. }
    apply remove_temp_dir_spec, Hd.
Qed.

Lemma exit_tears_down_unless_mounted_witness :
  let P := Ref.host Example.tools in
  is_mounted (mount P "mnt" None (Example.persistent, Example.w0)).2.1 = true ∧
  __exit__ P (with_is_mounted true Example.handle, Example.scratch) =
    (Ok tt, (with_is_mounted true Example.handle, Example.scratch)) ∧
  ∃ w2,
    trace w2 = trace Example.scratch ++
               teardown_events Example.handle "/tmp/tmp0/borg-repo" true ∧
    match lookup_path w2 "/tmp/tmp0" with
    | Some (Dir _) =>
        ∃ w3, __exit__ P (Example.handle, Example.scratch) =
                (Ok tt, (Example.handle, w3)) ∧
              gone (abspath w2 "/tmp/tmp0") w3 ∧
              (∀ q, within (abspath w2 "/tmp/tmp0") q = false →
                    fs w3 !! q = fs w2 !! q) ∧
              trace w3 = trace w2
    | Some (File _) =>
        __exit__ P (Example.handle, Example.scratch) =
          (Raise (OSError "NotADirectoryError"), (Example.handle, w2))
    | None => __exit__ P (Example.handle, Example.scratch) =
                (Ok tt, (Example.handle, w2))
    end.
Proof.
  cbn zeta.
  destruct (exit_tears_down_unless_mounted (Ref.host Example.tools))
    as (Hmount & Hkeep & Hteardown).
  split.
  - apply (Hmount "mnt" None (Example.persistent, Example.w0)).
    vm_compute. reflexivity.
  - split.
    + apply Hkeep. reflexivity.
    + apply (Hteardown Example.handle Example.scratch "/tmp/tmp0/borg-repo"
               "/tmp/tmp0" true); reflexivity.
Defined.

(** ** The probe changes what it probes *)

Lemma is_repository_log (e : event) (w w' : world) (p : string) :
  is_repository w' p → is_repository (log e w w') p.
Proof. by intros [r Hr]; exists r. Qed.

Lemma empty_dir_not_repository (w : world) (p : string) :
  is_empty_dir w p → ¬ is_repository w p.
Proof. intros [Hp _] [r Hr]. congruence. Qed.

(** C9: on an engine that initialises empty directories and refuses existing
    repositories, the probe of an empty directory answers [False], leaves a
    repository behind where there was none, and therefore answers [True] when
    it is asked again. *)
Theorem dir_is_repo_initialises_empty_dir (P : platform) (w : world) (d : string) :
  init_contract P →
  is_empty_dir w d →
  ∃ w1,
    dir_is_repo P d w = (Ok false, w1) ∧
    ¬ is_repository w d ∧
    is_repository w1 d ∧
    ∃ w2, dir_is_repo P d w1 = (Ok true, w2).
Proof.
  intros [Hfresh Hexisting] Hempty.
  destruct (Hfresh w d Hempty) as (out & err & w' & Hrun & _ & Hrepo).
  exists (log (Run (probe_cmd d)) w w').
  split; [exact (dir_is_repo_exited P d w w' 0 out err Hrun)|].
  split; [by apply empty_dir_not_repository|].
  split; [by apply is_repository_log|].
  destruct (Hexisting _ d (is_repository_log (Run (probe_cmd d)) w w' d Hrepo))
    as (out2 & err2 & w2 & Hrun2 & Hmsg).
  eexists. rewrite (dir_is_repo_exited P d _ w2 2 out2 err2 Hrun2), Hmsg.
  reflexivity.
Qed.

Lemma has_children_spec (a : string) (w : world) :
  Ref.has_children a w = false ↔
  ∀ q, String.prefix (a +:+ "/") q = true → fs w !! q = None.
Proof.
  unfold Ref.has_children. split.
  - intros Hnone q Hq. destruct (fs w !! q) as [n|] eqn:Hn; [|done].
    apply elem_of_map_to_list, list_elem_of_In in Hn.
    assert (existsb (λ kv : string * node, String.prefix (a +:+ "/") kv.1)
                    (map_to_list (fs w)) = true) as Hex
      by (apply existsb_exists; by exists (q, n)).
    congruence.
  - intros Hall.
    destruct (existsb _ _) eqn:Hex; [|done].
    apply existsb_exists in Hex as ([q n] & Hin & Hq).
    apply list_elem_of_In, elem_of_map_to_list in Hin.
    rewrite (Hall q Hq) in Hin. discriminate.
Qed.

(** The reference engine keeps the contract. *)
Lemma ref_init_contract : init_contract (Ref.host Example.tools).
Proof.
  split.
  - intros w p [Hdir Hnone].
    exists "", "", (set_fs (<[abspath w p := Dir (Some [])]>) w).
    split; [|split; [reflexivity|]].
    + cbn. unfold Ref.borg_init. unfold lookup_path in Hdir. rewrite Hdir.
      by rewrite (proj2 (has_children_spec _ _) Hnone).
    + exists []. unfold lookup_path. cbn. apply lookup_insert_eq.
  - intros w p [r Hr].
    exists "", ("A repository already exists at " +:+ abspath w p +:+ "." +:+ Ref.nl), w.
    split; [|reflexivity].
    cbn. unfold Ref.borg_init. unfold lookup_path in Hr. by rewrite Hr.
Qed.

Lemma dir_is_repo_initialises_empty_dir_witness :
  ∃ w1,
    dir_is_repo (Ref.host Example.tools) "empty" Example.w0 = (Ok false, w1) ∧
    ¬ is_repository Example.w0 "empty" ∧
    is_repository w1 "empty" ∧
    ∃ w2, dir_is_repo (Ref.host Example.tools) "empty" w1 = (Ok true, w2).
Proof.
  apply (dir_is_repo_initialises_empty_dir (Ref.host Example.tools)
           Example.w0 "empty" ref_init_contract).
  split; [reflexivity|].
  apply has_children_spec. vm_compute. reflexivity.
Defined.

(** ** Where the code parts from its documentation *)

Lemma get_tag_list_logs (P : platform) (self : BorgArchive) (w : world)
      (full : bool) (l : list string) (s' : BorgArchive * world) :
  get_tag_list P full (self, w) = (Ok l, s') →
  s'.1 = self ∧
  trace s'.2 = trace w ++ [Run (list_cmd full (str_opt (borg_dir self)))].
Proof.
  unfold get_tag_list, bind at 1. cbn. unfold bind at 1, self_, gets. cbn.
  unfold bind at 1, liftW at 1. cbn.
  set (w0 := set_environ _ _ (set_environ _ _ w)).
  destruct (run_command_logs P (list_cmd full (str_opt (borg_dir self)))
                             true true true w0) as (r & w1 & Hrun & Htrace).
  change (run_command P _ true true true w0) with
    (run_command P (list_cmd full (str_opt (borg_dir self))) true true true w0).
  rewrite Hrun.
  change (trace w0) with (trace w) in Htrace.
  destruct r as [proc1|e]; cbn; [|discriminate].
  unfold bind, from_option. destruct (stdout proc1); cbn; [|discriminate].
  by intros [= _ <-].
Qed.

(** C2: when [update] is given a directory that the probe rejects and a tag
    that the engine already lists, the duplicate is detected after the listing
    and nothing else is run: no snapshot is taken and nothing is compressed.
    But the exception that leaves [update] is an [UpdateError] that wraps the
    [DuplicateTagException]; a handler for [DuplicateTagException] does not
    catch it. *)
Theorem update_wraps_duplicate_tag (P : platform) (self : BorgArchive)
        (w w1 w2 w3 w4 w5 : world) (source tag b : string) (temp : bool)
        (c : option repository) (l : list string) :
  let src := abspath w source in
  let duplicate :=
    Err DuplicateTagException ("Tag " +:+ dq +:+ tag +:+ dq +:+ " already exists.") None in
  lookup_path w src = Some (Dir c) →
  dir_is_repo P src w = (Ok false, w1) →
  borg_dir self = Some b →
  borg_dir_is_temp self = Some temp →
  (if temp then __extract_compressed_archive P None None else ret tt) (self, w1)
    = (Ok tt, (self, w2)) →
  is_file (joinpath b "lock.roster") w2 = (Ok false, w2) →
  chdir (parent src) w2 = (Ok tt, w3) →
  get_tag_list P false (self, w3) = (Ok l, (self, w4)) →
  tag ∈ l →
  chdir (cwd w2) w4 = (Ok tt, w5) →
  update P source (Some tag) (self, w) =
    (Raise (Err UpdateError "Failed to update archive: " (Some duplicate)), (self, w5)) ∧
  is_instance DuplicateTagException
    (Err UpdateError "Failed to update archive: " (Some duplicate)) = false ∧
  trace w5 = trace w2 ++ [Run (list_cmd false b)].
Proof.
  intros src duplicate Hsrc Hprobe Hb Htemp Hprep Hlock Hcd Hlist Hin Hback.
  subst src. split; [|split; [reflexivity|]].
  - unfold update.
    step. cbn [fst snd].
    step_by
      ltac:(apply liftW_eq; unfold is_dir, gets; by rewrite Hsrc).
    cbn [negb]. cbv iota.
    step_world Hprobe.
    step.
    step.
    step_by
      ltac:(unfold get_borg_dir_is_temp, bind, self_, gets; cbn; by rewrite Htemp).
    step_by
      ltac:(destruct temp; [apply try_except_ok|]; exact Hprep).
    erewrite try_except_raise; [reflexivity|].
    apply bind_raise. cbn [negb]. cbv iota.
    step. cbn [fst]. rewrite Hb.
    step.
    step_world Hlock. cbv iota.
    step_by ltac:(apply liftW_eq; reflexivity).
    step_world Hcd.
    eapply try_finally_eq; [|apply liftW_eq; exact Hback].
    apply bind_raise. unfold generate_next_tag.
    step_with Hlist.
    rewrite bool_decide_eq_true_2 by (by apply elem_of_list_to_set).
    reflexivity.
  - destruct (get_tag_list_logs _ _ _ _ _ _ Hlist) as [_ Htr]. cbn in Htr.
    rewrite Hb in Htr. cbn in Htr.
    assert (trace w3 = trace w2) as <-.
    { unfold chdir in Hcd.
      destruct (lookup_path w2 (parent (abspath w source))) as [[?|?]|];
        try discriminate; [by injection Hcd as <-|].
      destruct (String.eqb _ _); [by injection Hcd as <-|discriminate]. }
    assert (trace w5 = trace w4) as ->; [|exact Htr].
    unfold chdir in Hback. destruct (lookup_path w4 (cwd w2)) as [[?|?]|];
      try discriminate; [by injection Hback as <-|].
    destruct (String.eqb _ _); [by injection Hback as <-|discriminate].
Qed.

Lemma update_wraps_duplicate_tag_witness :
  let P := Ref.host Example.tools in
  let w1 := (dir_is_repo P "/home/u/data" Example.scratch).2 in
  let w2 := (__extract_compressed_archive P None None (Example.handle, w1)).2.2 in
  let w3 := (chdir "/home/u" w2).2 in
  let w4 := (get_tag_list P false (Example.handle, w3)).2.2 in
  let w5 := (chdir "/home/u" w4).2 in
  let duplicate :=
    Err DuplicateTagException ("Tag " +:+ dq +:+ "2" +:+ dq +:+ " already exists.") None in
  update P "data" (Some "2") (Example.handle, Example.scratch) =
    (Raise (Err UpdateError "Failed to update archive: " (Some duplicate)),
     (Example.handle, w5)) ∧
  is_instance DuplicateTagException
    (Err UpdateError "Failed to update archive: " (Some duplicate)) = false ∧
  trace w5 = trace w2 ++ [Run (list_cmd false "/tmp/tmp0/borg-repo")].
Proof.
  intros P w1 w2 w3 w4 w5 duplicate. subst duplicate.
  apply (update_wraps_duplicate_tag P Example.handle
           Example.scratch w1 w2 w3 w4 w5 "data" "2" "/tmp/tmp0/borg-repo" true
           None ["1"; "2"]).
  - reflexivity.
  - vm_compute. reflexivity.
  - reflexivity.
  - reflexivity.
  - vm_compute. reflexivity.
  - vm_compute. reflexivity.
  - vm_compute. reflexivity.
  - vm_compute. reflexivity.
  - apply list_elem_of_further, list_elem_of_here.
  - vm_compute. reflexivity.
Defined.

(** The same through the command line: updating the archive a.baz from the
    directory data with the tag 2, which the archive has.  The archive file is
    as before and no command that writes was run. *)
Lemma update_command_duplicate_tag :
  let P := Ref.host Example.tools in
  let r := update_command P "a.baz" "data" (Some "2") Example.w1 in
  let duplicate :=
    Err DuplicateTagException ("Tag " +:+ dq +:+ "2" +:+ dq +:+ " already exists.") None in
  r.1 = Raise (Err UpdateError "Failed to update archive: " (Some duplicate)) ∧
  fs r.2 !! "/home/u/a.baz" = Some (File Example.tar_archive) ∧
  existsb writes_repository (trace r.2) = false.
Proof. vm_compute. repeat split; reflexivity. Qed.





(** The same through the command line: mounting the archive a.baz on mnt and
    unmounting it again.  The sidecar file and the temporary repository are
    removed and the archive is as before, but the scratch directory that was
    made for the mount is still there, empty. *)
Lemma mount_unmount_leaves_scratch_dir :
  let P := Ref.host Example.tools in
  let mounted := mount_command P "a.baz" "mnt" None Example.w1 in
  let r := do_unmount P "mnt" mounted.2 in
  mounted.1 = Ok tt ∧
  fs mounted.2 !! "/home/u/mnt/.borg-repo" = Some (File "/tmp/tmp0/borg-repo") ∧
  r.1 = Ok tt ∧
  fs r.2 !! "/home/u/mnt/.borg-repo" = None ∧
  fs r.2 !! "/tmp/tmp0/borg-repo" = None ∧
  fs r.2 !! "/home/u/a.baz" = Some (File Example.tar_archive) ∧
  fs r.2 !! "/tmp/tmp0" = Some (Dir None).
Proof. vm_compute. repeat split; reflexivity. Qed.

(** C6: the squashfs branch of [__create_compressed_archive] changes into
    the parent of the repository directory and then starts mksquashfs with the
    path as it was given.  For a relative path with a directory part the
    command is thus pointed at another place than the repository: the
    collapse cannot archive the repository it was asked to. *)
Theorem squashfs_branch_misses_relative_repo (P : platform) (self : BorgArchive)
        (w : world) (repo_dir : string) (c : option repository) :
  let w1 := set_cwd (abspath w (parent repo_dir)) w in
  truthy (which P "mksquashfs") = true →
  String.prefix "/" (cwd w) = true →
  String.prefix "/" repo_dir = false →
  String.prefix "/" (parent repo_dir) = false →
  parent repo_dir ≠ "." →
  parent repo_dir ≠ "" →
  lookup_path w (parent repo_dir) = Some (Dir c) →
  __create_compressed_archive P (Some repo_dir) (self, w) =
    try_finally
      (try_except
         (liftW (run_command P (mksquashfs_cmd repo_dir (str_opt (archive_path self)))
                             true false false) ;;;
          ret tt)
         (λ e, raise (Err ArchiveError "Failed to create squashfs archive: " (Some e))))
      (liftW (chdir (cwd w))) (self, w1) ∧
  abspath w1 repo_dir ≠ abspath w repo_dir.
Proof.
  intros w1 Hsq Hcwd Hrel Hprel Hpdot Hpnil Hparent. split.
  - unfold __create_compressed_archive.
    step.
    step_by
      ltac:(apply liftW_eq; unfold get_best_archiver, bind, ret; cbn; by rewrite Hsq).
    change (String.eqb "squashfs" "tar") with false. cbv iota.
    change (String.eqb "squashfs" "squashfs") with true. cbv iota.
    step.
    step. cbn [fst snd].
    step_by
      ltac:(apply liftW_eq; unfold chdir; by rewrite Hparent).
    unfold try_finally, try_except, bind, self_, gets, mksquashfs_cmd.
    reflexivity.
  - assert (String.eqb repo_dir "." = false) as Hrdot.
    { apply String.eqb_neq. intros ->. by apply Hpdot. }
    assert (String.eqb (parent repo_dir) "." = false) as Hpdot'
      by (by apply String.eqb_neq).
    unfold abspath at 2. rewrite Hrel, Hrdot.
    unfold abspath at 1. rewrite Hrel, Hrdot. cbn [cwd w1 set_cwd].
    unfold abspath. rewrite Hprel, Hpdot'.
    set (x := joinpath (cwd w) (parent repo_dir)).
    assert (String.prefix "/" x = true) as Hx by (by apply joinpath_absolute).
    pose proof (joinpath_absolute_longer (cwd w) (parent repo_dir) Hcwd Hprel) as Hlen.
    fold x in Hlen.
    assert (1 ≤ String.length (parent repo_dir))%nat as Hplen
      by (destruct (parent repo_dir); [done|cbn; lia]).
    pose proof (absolute_nonempty _ Hcwd) as Hclen.
    assert (String.eqb x "/" = false) as Hxroot.
    { apply String.eqb_neq. intros Heq. rewrite Heq in Hlen. cbn in Hlen. lia. }
    rewrite (joinpath_relative x repo_dir Hrel Hxroot (absolute_not_dot _ Hx)).
    intros Heq. apply (f_equal String.length) in Heq.
    rewrite !length_append in Heq.
    unfold joinpath in Heq. rewrite Hrel, (absolute_not_dot _ Hcwd) in Heq.
    destruct (String.eqb (cwd w) "/"); rewrite ?length_append in Heq;
      cbn in Heq; lia.
Qed.

Lemma squashfs_branch_misses_relative_repo_witness :
  let P := Ref.host Example.tools_squashfs in
  let self := with_borg_dir (Some "sub/repo") Example.handle in
  let w1 := set_cwd (abspath Example.scratch (parent "sub/repo")) Example.scratch in
  __create_compressed_archive P (Some "sub/repo") (self, Example.scratch) =
    try_finally
      (try_except
         (liftW (run_command P (mksquashfs_cmd "sub/repo" (str_opt (archive_path self)))
                             true false false) ;;;
          ret tt)
         (λ e, raise (Err ArchiveError "Failed to create squashfs archive: " (Some e))))
      (liftW (chdir (cwd Example.scratch))) (self, w1) ∧
  abspath w1 "sub/repo" ≠ abspath Example.scratch "sub/repo".
Proof.
  apply (squashfs_branch_misses_relative_repo (Ref.host Example.tools_squashfs)
           (with_borg_dir (Some "sub/repo") Example.handle) Example.scratch
           "sub/repo" None).
  - reflexivity.
  - reflexivity.
  - reflexivity.
  - reflexivity.
  - discriminate.
  - discriminate.
  - reflexivity.
Defined.

(** The same through the command line: collapsing the repository sub/repo on
    a host that has mksquashfs.  The command fails and no archive is written.
    On a host without mksquashfs the tar branch passes the last component of
    the path, and the archive expands to the same tags; so it does with
    mksquashfs when the repository is named by its absolute path. *)
Lemma collapse_relative_path_squashfs :
  let squash := Ref.host Example.tools_squashfs in
  let r := collapse_command squash "sub/repo" "a.baz" true Example.w0 in
  let failure :=
    CalledProcessError 1 (mksquashfs_cmd "sub/repo" "/home/u/a.baz") None None in
  let tar := Ref.host Example.tools in
  let r' := (collapse_command tar "sub/repo" "a.baz" true ;;;
             expand_command tar "a.baz" "fresh") Example.w0 in
  let r'' := (collapse_command squash "/home/u/sub/repo" "a.baz" true ;;;
              expand_command squash "a.baz" "fresh") Example.w0 in
  is_repository Example.w0 "sub/repo" ∧
  r.1 = Raise (Err ArchiveError "Failed to create archive file: "
                   (Some (Err ArchiveError "Failed to create squashfs archive: "
                              (Some failure)))) ∧
  fs r.2 !! "/home/u/a.baz" = None ∧
  r'.1 = Ok tt ∧
  fs r'.2 !! "/home/u/fresh" = fs Example.w0 !! "/home/u/sub/repo" ∧
  r''.1 = Ok tt ∧
  fs r''.2 !! "/home/u/fresh" = fs Example.w0 !! "/home/u/sub/repo".
Proof.
  cbn zeta. split; [by eexists|]. vm_compute. repeat split; reflexivity.
Qed.

(** * Further properties of the code *)

(** ** More steps of computations *)

Lemma try_finally_raise {S A} (m : ST S A) (f : ST S unit) (s s1 s2 : S)
      (r : result A) (e : exn) :
  m s = (r, s1) → f s1 = (Raise e, s2) → try_finally m f s = (Raise e, s2).
Proof. unfold try_finally. by intros -> ->. Qed.

Lemma try_except_wraps {S A} (m : ST S A) (wrap : exn → exn) (s s' : S) (e : exn) :
  try_except m (λ e, raise (wrap e)) s = (Raise e, s') → ∃ e0, e = wrap e0.
Proof.
  unfold try_except, raise. destruct (m s) as [[a|e0] s1]; [discriminate|].
  intros [= <- _]. by exists e0.
Qed.

Lemma bind_inv {S A B} (m : ST S A) (k : A → ST S B) (s s' : S) (r : result B) :
  bind m k s = (r, s') →
  (∃ a s1, m s = (Ok a, s1) ∧ k a s1 = (r, s')) ∨
  (∃ e, m s = (Raise e, s') ∧ r = Raise e).
Proof.
  unfold bind. destruct (m s) as [[a|e] s1]; [eauto|].
  intros [= <- <-]. eauto.
Qed.

(** ** Strings *)

Lemma append_nil_r (s : string) : s +:+ "" = s.
Proof.
  induction s as [|c s IH]; [done|].
  change (String c s +:+ "") with (String c (s +:+ "")). by rewrite IH.
Qed.

Lemma append_assoc (a b c : string) : (a +:+ b) +:+ c = a +:+ (b +:+ c).
Proof.
  induction a as [|x a IH]; [done|].
  change (String x ((a +:+ b) +:+ c) = String x (a +:+ (b +:+ c))). by rewrite IH.
Qed.

(** ** Required commands and the choice of tools *)

(** The loop raises for the first command of the list that is not found, and
    for no other. *)
Lemma check_commands_first_missing (P : platform) (l : list string) (e : exn) :
  check_commands P l = Raise e ↔
  ∃ pre cmd post,
    l = pre ++ cmd :: post ∧ Forall (on_path P) pre ∧ ¬ on_path P cmd ∧
    e = not_found cmd.
Proof.
  unfold on_path. revert e. induction l as [|c l IH]; intros e; simpl.
  - split; [discriminate|]. intros (pre & cmd & post & Hl & _). by destruct pre.
  - destruct (truthy (which P c)) eqn:Hc; simpl.
    + rewrite IH. split.
      * intros (pre & cmd & post & -> & Hpre & Hcmd & ->).
        exists (c :: pre), cmd, post. split; [done|]. split; [|done].
        by constructor.
      * intros (pre & cmd & post & Hl & Hpre & Hcmd & ->).
        destruct pre as [|c' pre]; simplify_eq/=; try congruence.
        apply Forall_cons in Hpre as [_ Hpre]. by exists pre, cmd, post.
    + split.
      * intros [= <-]. exists [], c, l. split; [done|]. split; [constructor|].
        split; [congruence|done].
      * intros (pre & cmd & post & Hl & Hpre & Hcmd & ->).
        destruct pre as [|c' pre]; simplify_eq/=; try done.
        apply Forall_cons in Hpre as [Hc' _]. congruence.
Qed.

(** X1: [check_required_commands] returns when borg, tar and zstd are all
    found, and otherwise raises [CommandNotFoundError] with the message that
    names the first of them, in this order, that is missing: every command
    before it in the list is found. *)
Theorem check_required_commands_first_missing (P : platform) :
  match check_required_commands P with
  | Ok _ => Forall (on_path P) ["borg"; "tar"; "zstd"]
  | Raise e =>
      ∃ pre cmd post,
        ["borg"; "tar"; "zstd"] = pre ++ cmd :: post ∧
        Forall (on_path P) pre ∧ ¬ on_path P cmd ∧ e = not_found cmd
  end.
Proof.
  destruct (check_required_commands P) as [[]|e] eqn:Hchk.
  - apply Forall_forall. intros cmd Hin.
    exact (proj1 (check_commands_ok P _) Hchk cmd Hin).
  - by apply check_commands_first_missing.
Qed.

(** X2: [get_best_compressor] prefers zstd to pigz to gzip for tar, and zstd to
    gzip for squashfs: the tool it answers with is found on PATH, every tool
    before it in the order is missing, and the decompression command names the
    same tool as the compression command.  It raises [CommandNotFoundError]
    only when none of the tools is found, and [RuntimeError] for every
    archiver other than tar and squashfs, whatever is installed. *)
Theorem get_best_compressor_choice (P : platform) :
  match get_best_compressor P "tar" with
  | Ok (c, d) =>
      ∃ pre tool post,
        ["zstd"; "pigz"; "gzip"] = pre ++ tool :: post ∧
        Forall (λ t, ¬ on_path P t) pre ∧ on_path P tool ∧
        split c = [tool; "-9"] ∧ split d = [tool; "-d"]
  | Raise e =>
      Forall (λ t, ¬ on_path P t) ["zstd"; "pigz"; "gzip"] ∧
      is_instance CommandNotFoundError e = true
  end ∧
  match get_best_compressor P "squashfs" with
  | Ok (c, d) =>
      ∃ pre tool post,
        ["zstd"; "gzip"] = pre ++ tool :: post ∧
        Forall (λ t, ¬ on_path P t) pre ∧ on_path P tool ∧
        split c = ["-comp"; tool; "-Xcompression-level"; "9"] ∧
        split d = ["-comp"; tool]
  | Raise e =>
      Forall (λ t, ¬ on_path P t) ["zstd"; "gzip"] ∧
      is_instance CommandNotFoundError e = true
  end ∧
  ∀ archiver, archiver ≠ "tar" → archiver ≠ "squashfs" →
    ∃ msg, get_best_compressor P archiver = Raise (RuntimeError msg).
Proof.
  unfold on_path. split; [|split].
  - unfold get_best_compressor. cbn [String.eqb Ascii.eqb Bool.eqb]. cbv iota.
    destruct (truthy (which P "zstd")) eqn:Hz.
    { exists [], "zstd", ["pigz"; "gzip"]. repeat split; done. }
    destruct (truthy (which P "pigz")) eqn:Hp.
    { exists ["zstd"], "pigz", ["gzip"]. repeat split; try done.
      repeat constructor; congruence. }
    destruct (truthy (which P "gzip")) eqn:Hg.
    { exists ["zstd"; "pigz"], "gzip", []. repeat split; try done.
      repeat constructor; congruence. }
    split; [|done]. repeat constructor; congruence.
  - unfold get_best_compressor. cbn [String.eqb Ascii.eqb Bool.eqb]. cbv iota.
    destruct (truthy (which P "zstd")) eqn:Hz.
    { exists [], "zstd", ["gzip"]. repeat split; done. }
    destruct (truthy (which P "gzip")) eqn:Hg.
    { exists ["zstd"], "gzip", []. repeat split; try done.
      repeat constructor; congruence. }
    split; [|done]. repeat constructor; congruence.
  - intros archiver Ht Hs. unfold get_best_compressor.
    destruct (String.eqb_spec archiver "tar"); [done|].
    destruct (String.eqb_spec archiver "squashfs"); [done|]. by eexists.
Qed.

Lemma get_best_archiver_not_file (P : platform) (w : world) (p : string) :
  (∀ data, lookup_path w p ≠ Some (File data)) →
  get_best_archiver P (Some p) w = (Ok "tar", w).
Proof.
  intros Hp. unfold get_best_archiver, bind, is_file, gets, ret. cbn beta.
  destruct (lookup_path w p) as [[data|r]|] eqn:Hl; [by destruct (Hp data)|done..].
Qed.

Lemma get_best_archiver_world (P : platform) (o : option string) (w : world) :
  (get_best_archiver P o w).2 = w.
Proof.
  unfold get_best_archiver, bind, is_file, read_file, gets, ret.
  destruct o as [p|]; cbn beta iota.
  - destruct (lookup_path w p) as [[data|c]|] eqn:Hp; cbn beta iota;
      rewrite ?Hp; cbn beta iota; try reflexivity.
    destruct (String.eqb (take_str 4 data) "hsqs"); reflexivity.
  - by destruct (truthy (which P "mksquashfs")).
Qed.

(** X3: without a path [get_best_archiver] answers squashfs exactly when
    mksquashfs is found; for a path that is not a regular file (missing, or a
    directory) it answers tar even if mksquashfs is found.  It leaves the
    world as it is. *)
Theorem get_best_archiver_without_file (P : platform) (w : world) :
  get_best_archiver P None w =
    (Ok (if truthy (which P "mksquashfs") then "squashfs" else "tar"), w) ∧
  ∀ p, (∀ data, lookup_path w p ≠ Some (File data)) →
       get_best_archiver P (Some p) w = (Ok "tar", w).
Proof.
  split; [|intros p; apply get_best_archiver_not_file].
  unfold get_best_archiver, bind, ret. cbn.
  by destruct (truthy (which P "mksquashfs")).
Qed.

Lemma get_best_archiver_without_file_witness :
  get_best_archiver (Ref.host Example.tools_squashfs) (Some "missing.baz") Example.w0
    = (Ok "tar", Example.w0).
Proof.
  apply (proj2 (get_best_archiver_without_file (Ref.host Example.tools_squashfs)
                  Example.w0) "missing.baz").
  intros data. vm_compute. discriminate.
Defined.

(** ** Directories *)

(** The walk of [mkdir(parents=True)] ends at the path itself. *)
Lemma dir_chain_last (acc s : string) : last (dir_chain acc s) = Some (acc +:+ s).
Proof.
  revert acc. induction s as [|c s IH]; intros acc; cbn [dir_chain].
  - by rewrite append_nil_r.
  - destruct (Ascii.eqb c "/" && negb (String.eqb acc "" || String.eqb acc "/"))
      eqn:Hsep.
    + apply andb_true_iff in Hsep as [Hc _]. apply Ascii.eqb_eq in Hc as ->.
      rewrite last_cons, IH, append_assoc. reflexivity.
    + rewrite IH, append_assoc. reflexivity.
Qed.

(** The walk keeps every node, adds empty directories only, and after a normal
    return every directory of the walk exists. *)
Lemma mkdir_chain_spec (ds : list string) (w : world) :
  ∃ r w', mkdir_chain ds w = (r, w') ∧
    fs w ⊆ fs w' ∧ cwd w' = cwd w ∧ trace w' = trace w ∧
    (∀ q n, fs w' !! q = Some n → fs w !! q = Some n ∨ n = Dir None) ∧
    match r with
    | Ok _ => ∀ d, d ∈ ds → ∃ c, fs w' !! d = Some (Dir c)
    | Raise e => e = OSError "FileExistsError"
    end.
Proof.
  revert w. induction ds as [|d ds IH]; intros w; simpl.
  - exists (Ok tt), w. repeat split; auto. intros d Hd. inversion Hd.
  - unfold bind, mkdir_step.
    destruct (fs w !! d) as [[data|c]|] eqn:Hd.
    + exists (Raise (OSError "FileExistsError")), w. repeat split; auto.
    + destruct (IH w) as (r & w' & -> & Hsub & Hcwd & Htr & Hnew & Hr).
      exists r, w'. repeat split; auto.
      destruct r as [[]|e]; [|done].
      intros d' Hd'. apply elem_of_cons in Hd' as [->|Hd']; [|by apply Hr].
      exists c. by apply (lookup_weaken _ _ _ _ Hd).
    + destruct (IH (set_fs <[d:=Dir None]> w))
        as (r & w' & -> & Hsub & Hcwd & Htr & Hnew & Hr).
      cbn in Hsub, Hcwd, Htr.
      exists r, w'. split; [done|]. split.
      { etrans; [|exact Hsub]. by apply insert_subseteq. }
      split; [done|]. split; [done|]. split.
      { intros q n Hq. destruct (Hnew q n Hq) as [Hold | ->]; [|by right].
        cbn in Hold. destruct (decide (d = q)) as [->|Hne].
        - rewrite lookup_insert_eq in Hold. injection Hold as <-. by right.
        - rewrite lookup_insert_ne in Hold by done. by left. }
      destruct r as [[]|e]; [|done].
      intros d' Hd'. apply elem_of_cons in Hd' as [->|Hd']; [|by apply Hr].
      exists None. apply (lookup_weaken _ _ _ _ (lookup_insert_eq _ _ _) Hsub).
Qed.

Lemma ensure_dir_spec (path : string) (w : world) :
  ∃ r w', ensure_dir path w = (r, w') ∧
    fs w ⊆ fs w' ∧ cwd w' = cwd w ∧ trace w' = trace w ∧
    (∀ q n, fs w' !! q = Some n → fs w !! q = Some n ∨ n = Dir None) ∧
    match r with
    | Ok _ => ∃ c, lookup_path w' path = Some (Dir c)
    | Raise e => ∃ what, e = OSError what
    end.
Proof.
  unfold ensure_dir.
  destruct (mkdir_chain_spec (dir_chain "" (abspath w path)) w)
    as (r & w' & Hrun & Hsub & Hcwd & Htr & Hnew & Hr).
  exists r, w'. repeat split; auto.
  destruct r as [[]|e]; [|by eexists].
  unfold lookup_path.
  assert (abspath w' path = abspath w path) as -> by (unfold abspath; by rewrite Hcwd).
  apply Hr. apply list_elem_of_In.
  pose proof (dir_chain_last "" (abspath w path)) as Hlast. cbn in Hlast.
  apply last_Some in Hlast as [l ->]. apply in_or_app. right. by left.
Qed.

Lemma mkdir_chain_existing (ds : list string) (w : world) :
  (∀ d, d ∈ ds → ∃ c, fs w !! d = Some (Dir c)) → mkdir_chain ds w = (Ok tt, w).
Proof.
  induction ds as [|d ds IH]; intros Hall; simpl; [done|].
  unfold bind, mkdir_step.
  destruct (Hall d) as [c ->]; [by left|].
  apply IH. intros d' Hd'. apply Hall. by right.
Qed.

(** X4: when [ensure_dir] returns, the path is a directory; every node that
    was there before is still there, unchanged, and what was added are empty
    directories; a second [ensure_dir] of the same path changes nothing. *)
Theorem ensure_dir_idempotent (path : string) (w w' : world) :
  ensure_dir path w = (Ok tt, w') →
  (∃ c, lookup_path w' path = Some (Dir c)) ∧
  (∀ q n, fs w !! q = Some n → fs w' !! q = Some n) ∧
  (∀ q n, fs w' !! q = Some n → fs w !! q = Some n ∨ n = Dir None) ∧
  ensure_dir path w' = (Ok tt, w').
Proof.
  intros Hrun.
  destruct (ensure_dir_spec path w) as (r & w1 & Hrun' & Hsub & Hcwd & _ & Hnew & Hr).
  rewrite Hrun in Hrun'. injection Hrun' as <- <-.
  split; [exact Hr|]. split.
  { intros q n Hq. by apply (lookup_weaken _ _ _ _ Hq). }
  split; [exact Hnew|].
  unfold ensure_dir in *.
  assert (abspath w' path = abspath w path) as -> by (unfold abspath; by rewrite Hcwd).
  apply mkdir_chain_existing.
  destruct (mkdir_chain_spec (dir_chain "" (abspath w path)) w)
    as (r & w1 & Hrun' & _ & _ & _ & _ & Hall).
  rewrite Hrun in Hrun'. injection Hrun' as <- <-. exact Hall.
Qed.

Lemma ensure_dir_idempotent_witness :
  let w' := (ensure_dir "mnt/deep" Example.w0).2 in
  (∃ c, lookup_path w' "mnt/deep" = Some (Dir c)) ∧
  (∀ q n, fs Example.w0 !! q = Some n → fs w' !! q = Some n) ∧
  (∀ q n, fs w' !! q = Some n → fs Example.w0 !! q = Some n ∨ n = Dir None) ∧
  ensure_dir "mnt/deep" w' = (Ok tt, w').
Proof.
  apply (ensure_dir_idempotent "mnt/deep" Example.w0). vm_compute. reflexivity.
Defined.

Lemma chdir_spec (p : string) (w : world) :
  ∃ r w', chdir p w = (r, w') ∧ trace w' = trace w ∧ fs w' = fs w ∧
    match r with
    | Ok _ => cwd w' = abspath w p
    | Raise e => w' = w ∧ ∃ what, e = OSError what
    end.
Proof.
  unfold chdir. destruct (lookup_path w p) as [[data|c]|]; cbn; eauto 10.
  destruct (String.eqb_spec (abspath w p) "/") as [->|_]; eauto 10.
Qed.

Lemma chdir_raises (p : string) (w w' : world) (e : exn) :
  chdir p w = (Raise e, w') → w' = w ∧ ∃ what, e = OSError what.
Proof.
  intros H. destruct (chdir_spec p w) as (r & w1 & Hcd & _ & _ & Hr).
  rewrite H in Hcd. injection Hcd as <- <-. exact Hr.
Qed.

(** After [try: ... finally: os.chdir(c)] the process is in [c], unless the
    change of directory itself failed. *)
Lemma finally_chdir {A} (m : M A) (c : string) (s s' : BorgArchive * world)
      (r : result A) :
  String.prefix "/" c = true →
  try_finally m (liftW (chdir c)) s = (r, s') →
  cwd s'.2 = c ∨ ∃ what, r = Raise (OSError what).
Proof.
  intros Hc. unfold try_finally, liftW. destruct (m s) as [r0 s1].
  destruct (chdir_spec c s1.2) as (r1 & w2 & -> & _ & _ & Hr1).
  destruct r1 as [[]|e].
  - intros [= <- <-]. left. cbn. by rewrite Hr1, abspath_absolute.
  - destruct Hr1 as [_ [what ->]]. intros [= <- _]. right. by eexists.
Qed.

(** ** What a step leaves in the trace *)

(** The probe starts the engine once, whatever comes of it. *)
Lemma dir_is_repo_logs (P : platform) (p : string) (w : world) :
  ∃ r w1, dir_is_repo P p w = (r, w1) ∧ trace w1 = trace w ++ [Run (probe_cmd p)].
Proof.
  unfold dir_is_repo, try_except, bind, subprocess_run. fold (probe_cmd p).
  destruct (spawn P (probe_cmd p) w) as [[e|[[rc o] er]] w']; cbn.
  - destruct e as [rc c o [er|]| | | | | | | | | | |]; cbn; eauto.
    unfold from_option, bind, ret. cbn.
    destruct ((rc =? 2) && _); eauto.
  - destruct (rc =? 0); cbn; [eauto|].
    unfold from_option, bind, ret. cbn.
    destruct ((rc =? 2) && _); eauto.
Qed.

Lemma set_borg_environ_eq (w : world) : __set_borg_environ w = (Ok tt, borg_environ w).
Proof. reflexivity. Qed.


(** The listing starts the engine once and leaves the instance as it is. *)
Lemma get_tag_list_runs (P : platform) (self : BorgArchive) (w : world) (full : bool) :
  ∃ r w', get_tag_list P full (self, w) = (r, (self, w')) ∧
          trace w' = trace w ++ [Run (list_cmd full (str_opt (borg_dir self)))].
Proof.
  destruct (run_command_logs P (list_cmd full (str_opt (borg_dir self)))
                             true true true (borg_environ w))
    as (r & w1 & Hrun & Htrace).
  change (trace (borg_environ w)) with (trace w) in Htrace.
  unfold get_tag_list.
  destruct r as [proc1|e].
  - destruct (stdout proc1) as [out|] eqn:Hout.
    + exists (Ok (splitlines out)), w1. split; [|done].
      step_by ltac:(apply liftW_eq, set_borg_environ_eq).
      step. step_world Hrun. by rewrite Hout.
    + exists (Raise AttributeError), w1. split; [|done].
      step_by ltac:(apply liftW_eq, set_borg_environ_eq).
      step. step_world Hrun. by rewrite Hout.
  - exists (Raise e), w1. split; [|done].
    step_by ltac:(apply liftW_eq, set_borg_environ_eq).
    step. apply bind_raise, liftW_eq. exact Hrun.
Qed.

Lemma remove_temp_dir_trace (o : option string) (s : BorgArchive * world) :
  trace (__remove_temp_dir o s).2.2 = trace s.2.
Proof.
  destruct s as [self w].
  unfold __remove_temp_dir, bind, self_, gets, need, ret, raise, liftW, exists_, rmtree.
  cbn.
  destruct (match o with Some p => Some p | None => temp_dir self end) as [p|] eqn:Hp;
    destruct o as [p'|]; cbn in *; rewrite ?Hp; cbn; try done;
    destruct (lookup_path w _) as [[data|c]|] eqn:Hl; cbn; try done;
    unfold lookup_path in Hl; rewrite Hl; done.
Qed.

(** ** The attributes of the instance *)

Section preserves.
Context {X : Type} (f : BorgArchive → X).

Lemma preserves_ret {A} (a : A) : preserves f (ret a).
Proof. by intros s. Qed.

Lemma preserves_raise {A} (e : exn) : preserves f (raise (A:=A) e).
Proof. by intros s. Qed.

Lemma preserves_gets {A} (g : BorgArchive * world → A) : preserves f (gets g).
Proof. by intros s. Qed.

Lemma preserves_bind {A B} (m : M A) (k : A → M B) :
  preserves f m → (∀ a, preserves f (k a)) → preserves f (bind m k).
Proof.
  intros Hm Hk s. unfold bind. specialize (Hm s).
  destruct (m s) as [[a|e] s1]; cbn in *; [|done].
  rewrite <- Hm. apply Hk.
Qed.

Lemma preserves_try_except {A} (m : M A) (h : exn → M A) :
  preserves f m → (∀ e, preserves f (h e)) → preserves f (try_except m h).
Proof.
  intros Hm Hh s. unfold try_except. specialize (Hm s).
  destruct (m s) as [[a|e] s1]; cbn in *; [done|].
  rewrite <- Hm. apply Hh.
Qed.

Lemma preserves_try_finally {A} (m : M A) (fin : M unit) :
  preserves f m → preserves f fin → preserves f (try_finally m fin).
Proof.
  intros Hm Hf s. unfold try_finally. specialize (Hm s).
  destruct (m s) as [r s1]. specialize (Hf s1).
  destruct (fin s1) as [[[]|e] s2]; cbn in *; congruence.
Qed.

Lemma preserves_liftW {A} (m : W A) : preserves f (liftW m).
Proof. intros s. unfold liftW. by destruct (m s.2). Qed.

Lemma preserves_set_self (g : BorgArchive → BorgArchive) :
  (∀ o, f (g o) = f o) → preserves f (set_self g).
Proof. intros Hg s. apply Hg. Qed.

Lemma preserves_of_result {A} (r : result A) : preserves f (of_result r).
Proof. by destruct r. Qed.

Lemma preserves_need {A} (o : option A) : preserves f (need o).
Proof. by destruct o. Qed.

Lemma preserves_need_attr {A} (o : option A) : preserves f (need_attr o).
Proof. by destruct o. Qed.

Lemma preserves_from_option {A} (e : exn) (o : option A) :
  preserves f (from_option e o).
Proof. by destruct o. Qed.
End preserves.

(** Decompose a method into its steps. *)
Ltac preserve_step :=
  first
    [ apply preserves_ret | apply preserves_raise | apply preserves_gets
    | apply preserves_liftW | apply preserves_of_result | apply preserves_need
    | apply preserves_need_attr | apply preserves_from_option
    | apply preserves_set_self; intros ?; reflexivity
    | apply preserves_bind; [|intros ?]
    | apply preserves_try_except; [|intros ?]
    | apply preserves_try_finally
    | match goal with
      | |- preserves _ (if ?b then _ else _) => destruct b
      | |- preserves _ (match ?x with _ => _ end) => destruct x
      | |- preserves _ (let '(_, _) := ?x in _) => destruct x
      | |- preserves _ (let _ := _ in _) => cbv zeta
      end ].
Ltac preserve := repeat preserve_step.

Ltac preserve_method :=
  unfold __enter__, __exit__, create, collapse, expand, extract, mount, unmount,
    update, list_tags, self_;
  preserve.

Lemma preserves_remove_temp_dir {X} (f : BorgArchive → X) (o : option string) :
  preserves f (__remove_temp_dir o).
Proof. unfold __remove_temp_dir, self_. preserve. Qed.

Lemma preserves_create_archive (P : platform) {X} (f : BorgArchive → X)
      (o : option string) :
  preserves f (__create_compressed_archive P o).
Proof. unfold __create_compressed_archive, self_. preserve. Qed.

(** [__init__] leaves the world as it is and sets neither the scratch
    directory nor a flag. *)
Lemma init_flags (P : platform) (a r : option string) (w w' : world)
      (self : BorgArchive) :
  __init__ P a r w = (Ok self, w') →
  w' = w ∧ temp_dir self = None ∧ is_mounted self = false ∧
  sqfs_is_mounted self = false ∧ borg_dir_is_temp self = None.
Proof.
  unfold __init__. generalize (check_required_commands P). intros c.
  unfold bind, resolve, is_dir, gets, ret, of_result, raise.
  destruct a as [a|], r as [r|]; cbn;
    repeat match goal with
           | |- context [match lookup_path ?w ?p with _ => _ end] =>
               destruct (lookup_path w p) as [[?|?]|]; cbn
           end;
    destruct c as [[]|e]; cbn; intros [= <- <-]; done.
Qed.

(** X5: which attributes the methods change.  [__init__] sets no scratch
    directory and both mount flags to [False].  No method changes
    [archive_path] or [sqfs_is_mounted]; [temp_dir] is set by [__enter__]
    only and [is_mounted] by [mount] only; [collapse] leaves the temporary
    flag as [__enter__] set it, and [mount] leaves the repository path and
    the flag; [expand], [extract], [unmount], [list_tags] and [__exit__]
    change no attribute at all.  This holds for every outcome of the method,
    an exception included. *)
Theorem methods_keep_attributes (P : platform) :
  (∀ a r w self w',
     __init__ P a r w = (Ok self, w') →
     temp_dir self = None ∧ is_mounted self = false ∧ sqfs_is_mounted self = false) ∧
  (keeps_construction (__enter__ P) ∧
   (∀ s e x o, keeps_construction (create P s e x o)) ∧
   (∀ d k, keeps_construction (collapse P d k)) ∧
   (∀ d t, keeps_construction (mount P d t)) ∧
   (∀ s t, keeps_construction (update P s t))) ∧
  ((∀ s e x o, preserves temp_dir (create P s e x o)) ∧
   (∀ d k, preserves temp_dir (collapse P d k)) ∧
   (∀ d t, preserves temp_dir (mount P d t)) ∧
   (∀ s t, preserves temp_dir (update P s t))) ∧
  (preserves is_mounted (__enter__ P) ∧
   (∀ s e x o, preserves is_mounted (create P s e x o)) ∧
   (∀ d k, preserves is_mounted (collapse P d k)) ∧
   (∀ s t, preserves is_mounted (update P s t))) ∧
  ((∀ d k, preserves borg_dir_is_temp (collapse P d k)) ∧
   (∀ d t, preserves borg_dir_is_temp (mount P d t)) ∧
   (∀ d t, preserves borg_dir (mount P d t))) ∧
  ((∀ d, preserves (λ o, o) (expand P d)) ∧
   (∀ d t, preserves (λ o, o) (extract P d t)) ∧
   (∀ d, preserves (λ o, o) (unmount P d)) ∧
   preserves (λ o, o) (list_tags P) ∧
   preserves (λ o, o) (__exit__ P)).
Proof.
  split.
  { intros a r w self w' Hinit.
    destruct (init_flags P a r w w' self Hinit) as (_ & Ht & Hm & Hs & _). done. }
  unfold keeps_construction. repeat split; intros; preserve_method.
Qed.

(** ** Construction and entry *)



(** [__enter__], step by step. *)
Lemma enter_eq (P : platform) (self : BorgArchive) (w : world) :
  __enter__ P (self, w) =
    let '(t, w1) := mkdtemp P w in
    let self1 := with_temp_dir (Some t) self in
    match borg_dir self with
    | Some d =>
        match dir_is_repo P d w1 with
        | (Ok true, w2) =>
            match ensure_dir d w2 with
            | (r, w3) => (r, (with_borg_dir_is_temp false self1, w3))
            end
        | (Ok false, w2) => (Raise (invalid_repository d), (self1, w2))
        | (Raise e, w2) => (Raise e, (self1, w2))
        end
    | None =>
        let b := joinpath t "borg-repo" in
        match ensure_dir b w1 with
        | (r, w3) =>
            (r, (with_borg_dir_is_temp true (with_borg_dir (Some b) self1), w3))
        end
    end.
Proof.
  unfold __enter__. change (negb DEBUG) with true. cbv iota.
  unfold bind at 1, liftW at 1. cbn [fst snd].
  destruct (mkdtemp P w) as [t w1].
  unfold bind at 1, set_self at 1, modify. cbn [fst snd].
  unfold bind at 1, self_ at 1, gets. cbn [fst snd].
  destruct self as [a b td m sq tmp]. cbn [borg_dir with_temp_dir archive_path
    temp_dir is_mounted sqfs_is_mounted borg_dir_is_temp].
  destruct b as [d|].
  - unfold bind at 1. unfold bind at 1, liftW at 1. cbn [fst snd].
    destruct (dir_is_repo P d w1) as [[[]|e] w2]; cbn; reflexivity.
  - cbn. unfold liftW. cbn. by destruct (ensure_dir _ w1).
Qed.

(** X7: when [__enter__] returns, the scratch directory is the one [mkdtemp]
    made; the repository path is the one supplied, or [borg-repo] inside the
    scratch directory when none was supplied, and is an existing directory;
    the temporary flag is set exactly when no path was supplied; the other
    attributes are as before.  The engine was started once, for the probe,
    when a path was supplied, and not at all otherwise. *)
Theorem enter_outcome (P : platform) (self : BorgArchive) (w : world)
        (s' : BorgArchive * world) :
  __enter__ P (self, w) = (Ok tt, s') →
  let t := (mkdtemp P w).1 in
  let b := default (joinpath t "borg-repo") (borg_dir self) in
  s'.1 = Self (archive_path self) (Some b) (Some t) (is_mounted self)
              (sqfs_is_mounted self) (Some (bool_decide (borg_dir self = None))) ∧
  (∃ c, lookup_path s'.2 b = Some (Dir c)) ∧
  trace s'.2 = trace (mkdtemp P w).2 ++
               (if borg_dir self is Some d then [Run (probe_cmd d)] else []).
Proof.
  rewrite enter_eq. destruct (mkdtemp P w) as [t w1]. cbn [fst snd].
  destruct self as [a b td m sq tmp]. cbn [borg_dir archive_path is_mounted
    sqfs_is_mounted with_temp_dir with_borg_dir with_borg_dir_is_temp temp_dir
    borg_dir_is_temp default].
  destruct b as [d|]; cbn [default].
  - destruct (dir_is_repo_logs P d w1) as (r & w2 & Hprobe & Htr). rewrite Hprobe.
    destruct r as [[]|e]; try discriminate.
    destruct (ensure_dir_spec d w2) as (r & w3 & -> & _ & _ & Htr3 & _ & Hr).
    intros [= -> <-]. cbn. split; [done|]. split; [exact Hr|]. congruence.
  - cbn zeta.
    destruct (ensure_dir_spec (joinpath t "borg-repo") w1)
      as (r & w3 & -> & _ & _ & Htr3 & _ & Hr).
    intros [= -> <-]. cbn. split; [done|]. split; [exact Hr|].
    by rewrite app_nil_r.
Qed.

Lemma enter_outcome_witness :
  let P := Ref.host Example.tools in
  let self := Self (Some "/home/u/a.baz") None None false false None in
  let s' := (__enter__ P (self, Example.w1)).2 in
  let t := (mkdtemp P Example.w1).1 in
  let b := default (joinpath t "borg-repo") (borg_dir self) in
  s'.1 = Self (archive_path self) (Some b) (Some t) (is_mounted self)
              (sqfs_is_mounted self) (Some (bool_decide (borg_dir self = None))) ∧
  (∃ c, lookup_path s'.2 b = Some (Dir c)) ∧
  trace s'.2 = trace (mkdtemp P Example.w1).2 ++
               (if borg_dir self is Some d then [Run (probe_cmd d)] else []).
Proof.
  apply (enter_outcome (Ref.host Example.tools)
           (Self (Some "/home/u/a.baz") None None false false None) Example.w1).
  vm_compute. reflexivity.
Defined.

(** X8: when the repository path of the instance is rejected by the probe,
    the [with] statement raises [RepoError] out of [__enter__]: the body is
    not run, whatever it is, and [__exit__] is not run either, so the world is
    as the probe left it, with the scratch directory that [mkdtemp] made. *)
Theorem with_block_rejects_non_repository (P : platform)
        (a r : option string) (self : BorgArchive) (w w2 : world) (d : string)
        (body : M unit) :
  __init__ P a r w = (Ok self, w) →
  borg_dir self = Some d →
  dir_is_repo P d (mkdtemp P w).2 = (Ok false, w2) →
  with_BorgArchive P a r body w = (Raise (invalid_repository d), w2).
Proof.
  intros Hinit Hd Hprobe. unfold with_BorgArchive.
  step_with Hinit. unfold bind at 1. rewrite enter_eq.
  destruct (mkdtemp P w) as [t w1]. cbn [snd] in Hprobe.
  by rewrite Hd, Hprobe.
Qed.

Lemma with_block_rejects_non_repository_witness :
  let P := Ref.host Example.tools in
  let w2 := (dir_is_repo P "/home/u/data" (mkdtemp P Example.w0).2).2 in
  with_BorgArchive P None (Some "data") (list_tags P) Example.w0 =
    (Raise (invalid_repository "/home/u/data"), w2) ∧
  fs w2 !! "/tmp/tmp0" = Some (Dir None).
Proof.
  split; [|reflexivity].
  apply (with_block_rejects_non_repository (Ref.host Example.tools) None (Some "data")
           (Self None (Some "/home/u/data") None false false None)).
  - vm_compute. reflexivity.
  - reflexivity.
  - vm_compute. reflexivity.
Defined.

(** ** create and extract *)



Lemma falsy_tag (tag : string) : tag ≠ "" → falsy (Some tag) = false.
Proof.
  intros Hne. unfold falsy, truthy. by destruct (String.eqb_spec tag "").
Qed.

(** X10: [extract(output_dir, tag)] with a tag, on an expanded repository,
    expands nothing and starts at most one command, [borg extract] of that
    tag, and leaves the instance as it is.  When it returns normally, the
    engine was started with the output directory as working directory and
    returned with status zero, and the working directory is afterwards what
    it was before. *)
Theorem extract_from_repository (P : platform) (self : BorgArchive) (w : world)
        (output_dir tag b : string) :
  borg_dir_is_temp self = Some false →
  borg_dir self = Some b →
  tag ≠ "" →
  String.prefix "/" (cwd w) = true →
  ∃ r w',
    extract P output_dir (Some tag) (self, w) = (r, (self, w')) ∧
    (trace w' = trace w ∨ trace w' = trace w ++ [Run (extract_cmd b tag)]) ∧
    (r = Ok tt →
     ∃ w_in w_out cp,
       cwd w_in = abspath w output_dir ∧
       run_command P (extract_cmd b tag) true false true w_in = (Ok cp, w_out) ∧
       w' = set_cwd (cwd w) w_out).
Proof.
  intros Ht Hb Htag Hcwd. unfold extract.
  destruct (ensure_dir_spec output_dir w) as (r0 & w0 & Hens & _ & Hcwd0 & Htr0 & _ & _).
  destruct r0 as [[]|e0].
  2:{ exists (Raise e0), w0. split; [by apply bind_raise, liftW_eq|].
      split; [by left|discriminate]. }
  step_world Hens.
  step_by ltac:(unfold try_except, get_borg_dir_is_temp, bind, self_, gets; cbn;
                rewrite Ht; reflexivity).
  step. cbn [fst snd].
  destruct (chdir_spec output_dir w0) as (r1 & w1 & Hcd & Htr1 & _ & Hr1).
  destruct r1 as [[]|e1].
  2:{ destruct Hr1 as [-> _]. exists (Raise e1), w0.
      split; [by apply bind_raise, liftW_eq|]. split; [by left|discriminate]. }
  step_world Hcd.
  destruct (run_command_logs P (extract_cmd b tag) true false true (borg_environ w1))
    as (r2 & w2 & Hrun & Htr2).
  change (trace (borg_environ w1)) with (trace w1) in Htr2.
  assert (try_except
            (tag0 <- (if falsy (Some tag) then get_most_recent_tag P
                      else ret (default "" (Some tag))) ;;
             liftW (__set_borg_environ) ;;;
             b0 <- self_ borg_dir ;;
             liftW (run_command P
                      ["borg"; "extract"; "--error"; "--progress";
                       str_opt b0 +:+ "::" +:+ tag0] true false true) ;;;
             ret tt)
            (λ e, raise (Err ExtractError "Failed to extract archive: " (Some e)))
            (self, w1) =
          (match r2 with
           | Ok _ => Ok tt
           | Raise e => Raise (Err ExtractError "Failed to extract archive: " (Some e))
           end, (self, w2))) as Hbody.
  { rewrite (falsy_tag tag Htag). unfold try_except.
    step. cbn [default].
    step_by ltac:(apply liftW_eq, set_borg_environ_eq).
    step. cbn [fst]. rewrite Hb. cbn [str_opt default].
    fold (extract_cmd b tag). unfold bind.
    erewrite liftW_eq by exact Hrun. by destruct r2. }
  destruct (chdir_spec (cwd w0) w2) as (r3 & w3 & Hback & Htr3 & _ & Hr3).
  assert (trace w3 = trace w ++ [Run (extract_cmd b tag)]) as Htr
    by (rewrite Htr3, Htr2, Htr1, Htr0; reflexivity).
  destruct r3 as [[]|e3].
  - eexists _, w3. split.
    { eapply try_finally_eq; [exact Hbody|by apply liftW_eq]. }
    split; [by right|]. intros Hok.
    destruct r2 as [cp|e2]; [|discriminate].
    exists (borg_environ w1), w2, cp. split.
    { cbn. rewrite Hr1. unfold abspath. by rewrite Hcwd0. }
    split; [exact Hrun|].
    unfold chdir in Hback. rewrite Hcwd0 in Hback.
    unfold lookup_path in Hback. rewrite (abspath_absolute _ _ Hcwd) in Hback.
    destruct (fs w2 !! cwd w) as [[data|c]|]; [discriminate|by injection Hback|].
    destruct (String.eqb_spec (cwd w) "/") as [Heq|]; [|discriminate].
    injection Hback as <-. by rewrite Heq.
  - destruct Hr3 as [-> _]. exists (Raise e3), w2. split.
    { eapply try_finally_raise; [exact Hbody|by apply liftW_eq]. }
    split; [right; by rewrite Htr2, Htr1, Htr0|discriminate].
Qed.

Lemma extract_from_repository_witness :
  let P := Ref.host Example.tools in
  ∃ r w',
    extract P "out" (Some "1") (Example.persistent, Example.w0) =
      (r, (Example.persistent, w')) ∧
    (trace w' = trace Example.w0 ∨
     trace w' = trace Example.w0 ++ [Run (extract_cmd "/home/u/repo" "1")]) ∧
    (r = Ok tt →
     ∃ w_in w_out cp,
       cwd w_in = abspath Example.w0 "out" ∧
       run_command P (extract_cmd "/home/u/repo" "1") true false true w_in
         = (Ok cp, w_out) ∧
       w' = set_cwd (cwd Example.w0) w_out).
Proof.
  apply (extract_from_repository (Ref.host Example.tools) Example.persistent
           Example.w0 "out" "1" "/home/u/repo"); [reflexivity..|discriminate|reflexivity].
Defined.

(** ** collapse, and the teardown after it *)

(** X11: when the probe rejects the directory, [collapse] raises
    [CollapseError] naming it; only the probe was run, so nothing was archived
    or deleted, and the instance is as before. *)
Theorem collapse_rejects_non_repository (P : platform) (self : BorgArchive)
        (w w1 : world) (repo_dir : string) (retain_repo : bool) :
  dir_is_repo P repo_dir w = (Ok false, w1) →
  collapse P repo_dir retain_repo (self, w) =
    (Raise (not_a_repository repo_dir), (self, w1)) ∧
  trace w1 = trace w ++ [Run (probe_cmd repo_dir)].
Proof.
  intros Hprobe. split.
  - unfold collapse. step_world Hprobe. reflexivity.
  - destruct (dir_is_repo_logs P repo_dir w) as (r & w' & Hrun & Htr). congruence.
Qed.

Lemma collapse_rejects_non_repository_witness :
  let P := Ref.host Example.tools in
  let w1 := (dir_is_repo P "data" Example.scratch).2 in
  collapse P "data" false (Example.handle, Example.scratch) =
    (Raise (not_a_repository "data"), (Example.handle, w1)) ∧
  trace w1 = trace Example.scratch ++ [Run (probe_cmd "data")].
Proof.
  apply (collapse_rejects_non_repository (Ref.host Example.tools)).
  vm_compute. reflexivity.
Defined.

(** What leaving the [with] block runs on a handle that is not mounted. *)
Lemma exit_logs (P : platform) (self : BorgArchive) (w : world)
      (b : string) (temp : bool) :
  is_mounted self = false → borg_dir self = Some b →
  borg_dir_is_temp self = Some temp →
  ∃ r w', __exit__ P (self, w) = (r, (self, w')) ∧
          trace w' = trace w ++ teardown_events self b temp.
Proof.
  intros Hm Hb Ht.
  assert (∃ w1, (if sqfs_is_mounted self then
                   try_except
                     (d <- self_ borg_dir ;;
                      d <- need d ;;
                      liftW (run_command P ["umount"; d] true false false) ;;;
                      ret tt)
                     (λ _, ret tt)
                 else ret tt) (self, w) = (Ok tt, (self, w1)) ∧
                trace w1 = trace w ++
                  (if sqfs_is_mounted self then [Run (umount_cmd b)] else []))
    as (w1 & Hstep1 & Htr1).
  { destruct (sqfs_is_mounted self).
    - apply umount_step_logs, Hb.
    - exists w. by rewrite app_nil_r. }
  assert (∃ w2, (if temp then __delete_borg_repo P else ret tt) (self, w1)
                = (Ok tt, (self, w2)) ∧
                trace w2 = trace w1 ++
                  (if temp then [Run (info_cmd b); Run (delete_cmd b)] else []))
    as (w2 & Hstep2 & Htr2).
  { destruct temp.
    - apply delete_borg_repo_logs, Hb.
    - exists w1. by rewrite app_nil_r. }
  assert (__exit__ P (self, w) = __remove_temp_dir None (self, w2)) as ->.
  { assert (get_borg_dir_is_temp (self, w1) = (Ok temp, (self, w1))) as Htemp
      by (unfold get_borg_dir_is_temp, bind, self_, gets; cbn; by rewrite Ht).
    unfold __exit__.
    step. cbn [fst]. rewrite Hm.
    change (negb false && negb DEBUG) with true. cbv iota.
    step.
    step_with Hstep1.
    step_with Htemp.
    step_with Hstep2.
    reflexivity. }
  pose proof (remove_temp_dir_trace None (self, w2)) as Htr3.
  pose proof (preserves_remove_temp_dir (λ o, o) None (self, w2)) as Hself.
  destruct (__remove_temp_dir None (self, w2)) as [r [self' w3]]. cbn in *.
  subst self'. exists r, w3. split; [done|].
  unfold teardown_events. by rewrite Htr3, Htr2, Htr1, <- app_assoc.
Qed.

(** X12: after [collapse(repo_dir, retain_repo=True)] has returned on a
    handle that [__enter__] flagged temporary, the handle points at
    [repo_dir] and is still flagged temporary; leaving the [with] block
    therefore runs [borg info] and [borg delete --force] on [repo_dir], the
    repository that was to be retained. *)
Theorem collapse_keep_repo_deleted_on_exit (P : platform) (self : BorgArchive)
        (w : world) (repo_dir : string) (s1 : BorgArchive * world) :
  is_mounted self = false →
  borg_dir_is_temp self = Some true →
  collapse P repo_dir true (self, w) = (Ok tt, s1) →
  s1.1 = with_borg_dir (Some repo_dir) self ∧
  ∃ r w2, __exit__ P s1 = (r, (s1.1, w2)) ∧
          trace w2 = trace s1.2 ++
            (if sqfs_is_mounted self then [Run (umount_cmd repo_dir)] else []) ++
            [Run (info_cmd repo_dir); Run (delete_cmd repo_dir)].
Proof.
  intros Hm Ht Hrun.
  assert (s1.1 = with_borg_dir (Some repo_dir) self) as Hself.
  { unfold collapse in Hrun.
    apply bind_ok in Hrun as (r & s2 & Hprobe & Hrun).
    apply liftW_self in Hprobe. cbn in Hprobe.
    destruct r; [|discriminate]. cbn [negb] in Hrun. cbv iota in Hrun.
    apply bind_ok in Hrun as ([] & s3 & [= <-] & Hrun).
    apply bind_ok in Hrun as ([] & s4 & Harch & [= <-]).
    assert (preserves (λ o : BorgArchive, o)
              (try_except (__create_compressed_archive P (Some repo_dir))
                 (λ e, raise (Err ArchiveError "Failed to create archive file: "
                                  (Some e))))) as Hkeep
      by (unfold __create_compressed_archive, self_; preserve).
    specialize (Hkeep (with_borg_dir (Some repo_dir) s2.1, s2.2)).
    rewrite Harch in Hkeep. cbn in Hkeep. by rewrite Hkeep, Hprobe. }
  split; [done|].
  destruct s1 as [self1 w1]. cbn in Hself. subst self1. cbn [fst snd].
  apply (exit_logs P (with_borg_dir (Some repo_dir) self) w1 repo_dir true);
    [done..|by destruct self].
Qed.

Lemma collapse_keep_repo_deleted_on_exit_witness :
  let P := Ref.host Example.tools in
  let s1 := (collapse P "repo" true (Example.handle, Example.scratch)).2 in
  s1.1 = with_borg_dir (Some "repo") Example.handle ∧
  ∃ r w2, __exit__ P s1 = (r, (s1.1, w2)) ∧
          trace w2 = trace s1.2 ++
            (if sqfs_is_mounted Example.handle then [Run (umount_cmd "repo")] else []) ++
            [Run (info_cmd "repo"); Run (delete_cmd "repo")].
Proof.
  apply (collapse_keep_repo_deleted_on_exit (Ref.host Example.tools) Example.handle
           Example.scratch "repo").
  - reflexivity.
  - reflexivity.
  - vm_compute. reflexivity.
Defined.

(** The same through the command line, on the reference platform: collapsing
    the repository repo with --keep-repo succeeds, and the repository is
    gone afterwards. *)
Lemma collapse_command_keep_repo :
  let P := Ref.host Example.tools in
  let r := collapse_command P "repo" "a.baz" true Example.w0 in
  is_repository Example.w0 "repo" ∧ r.1 = Ok tt ∧
  fs r.2 !! "/home/u/repo" = None ∧
  Run (delete_cmd "repo") ∈ trace r.2.
Proof.
  cbn zeta. split; [by eexists|]. vm_compute. repeat split.
  repeat first [apply list_elem_of_here | apply list_elem_of_further].
Qed.

(** ** Tags *)

(** X13: whenever the listing succeeds, [generate_next_tag] either returns a
    tag that is not listed (the given tag itself, unchanged, when one was
    given) or raises [DuplicateTagException], and it raises exactly for a
    given tag that is listed; nothing else is raised, the search for a free
    number always ends, and nothing is run besides the listing. *)
Theorem generate_next_tag_never_reuses (P : platform) (tag : option string)
        (self : BorgArchive) (w : world) (l : list string)
        (s1 : BorgArchive * world) :
  get_tag_list P false (self, w) = (Ok l, s1) →
  match generate_next_tag P tag (self, w) with
  | (Ok t, s') => s' = s1 ∧ (t ∉ l) ∧ (∀ t0, tag = Some t0 → t = t0)
  | (Raise e, s') => s' = s1 ∧ ∃ t0, tag = Some t0 ∧ t0 ∈ l ∧ e = duplicate_tag t0
  end.
Proof.
  intros Hlist. unfold generate_next_tag. step_with Hlist.
  destruct tag as [t|].
  - case_bool_decide as Hin; cbn.
    + split; [done|]. exists t. split; [done|]. split; [|done].
      by apply elem_of_list_to_set in Hin.
    + split; [done|]. split; [|by intros t0 [= ->]].
      intros Hl. apply Hin. by apply elem_of_list_to_set.
  - destruct (skip_used_terminates (list_to_set l)
                (Z.of_nat (size (list_to_set l : gset string)) + 1)) as [n Hn].
    unfold bind, from_option. rewrite Hn. cbn.
    destruct (skip_used_sound _ _ _ _ Hn) as (_ & Hfree & _).
    split; [done|]. split; [|done].
    intros Hl. apply Hfree. by apply elem_of_list_to_set.
Qed.

Lemma generate_next_tag_never_reuses_witness :
  let P := Ref.host Example.tools in
  let s1 := (get_tag_list P false (Example.persistent, Example.w0)).2 in
  match generate_next_tag P (Some "v3") (Example.persistent, Example.w0) with
  | (Ok t, s') => s' = s1 ∧ (t ∉ ["1"; "2"]) ∧ (∀ t0, Some "v3" = Some t0 → t = t0)
  | (Raise e, s') =>
      s' = s1 ∧ ∃ t0, Some "v3" = Some t0 ∧ t0 ∈ ["1"; "2"] ∧ e = duplicate_tag t0
  end.
Proof.
  apply (generate_next_tag_never_reuses (Ref.host Example.tools) (Some "v3")
           Example.persistent Example.w0 ["1"; "2"]).
  vm_compute. reflexivity.
Defined.

Lemma splitlines_go_line (cur t rest : string) :
  single_line t = true →
  splitlines_go cur (t +:+ nl +:+ rest) = (cur +:+ t) :: splitlines_go "" rest.
Proof.
  revert cur. induction t as [|c t IH]; intros cur Ht.
  - by rewrite append_nil_r.
  - cbn [single_line] in Ht. apply andb_true_iff in Ht as [Hc Ht].
    apply andb_true_iff in Hc as [Hcr Hlb].
    apply andb_true_iff in Hcr as [_ Hcr].
    apply negb_true_iff in Hcr, Hlb.
    change (String c t +:+ nl +:+ rest) with (String c (t +:+ nl +:+ rest)).
    cbn [splitlines_go]. rewrite Hcr, Hlb, IH by done.
    by rewrite append_assoc.
Qed.

Lemma splitlines_unlines (l : list string) :
  forallb single_line l = true → splitlines (unlines l) = l.
Proof.
  unfold splitlines. induction l as [|t l IH]; [done|].
  cbn [forallb unlines]. intros Hl. apply andb_true_iff in Hl as [Ht Hl].
  rewrite splitlines_go_line by done. by rewrite IH.
Qed.

(** X14: when the engine, started with both access variables set to yes in
    the environment, exits with status zero and prints the tags one per line,
    [get_tag_list] returns exactly these tags in this order, provided each is
    made of ASCII characters none of which ends a line. *)
Theorem get_tag_list_lines (P : platform) (self : BorgArchive) (w w' : world)
        (tags : list string) (err : string) :
  let cmd := list_cmd false (str_opt (borg_dir self)) in
  forallb single_line tags = true →
  spawn P cmd (borg_environ w) = (inr (0, unlines tags, err), w') →
  get_tag_list P false (self, w) =
    (Ok tags, (self, log (Run cmd) (borg_environ w) w')).
Proof.
  intros cmd Htags Hrun.
  assert (run_command P cmd true true true (borg_environ w) =
          (Ok (Completed cmd 0 (Some (unlines tags)) (Some err)),
           log (Run cmd) (borg_environ w) w')) as Hcmd
    by (unfold run_command, try_except, subprocess_run; by rewrite Hrun).
  unfold get_tag_list.
  step_by ltac:(apply liftW_eq, set_borg_environ_eq).
  step. cbn [fst].
  step_world Hcmd.
  cbn. by rewrite splitlines_unlines.
Qed.

Lemma get_tag_list_lines_witness :
  let P := Ref.host Example.tools in
  let cmd := list_cmd false "/home/u/repo" in
  get_tag_list P false (Example.persistent, Example.w0) =
    (Ok ["1"; "2"],
     (Example.persistent, log (Run cmd) (borg_environ Example.w0) (borg_environ Example.w0))).
Proof.
  apply (get_tag_list_lines (Ref.host Example.tools) Example.persistent Example.w0
           (borg_environ Example.w0) ["1"; "2"] "").
  - reflexivity.
  - vm_compute. reflexivity.
Defined.

(** X15: [mount] without a tag (or with the empty tag) on an expanded
    repository that lists no archive raises [MountError] wrapping the
    [IndexError] of the empty list; only the listing was run, not
    [borg mount], and the handle is not marked as mounted. *)
Theorem mount_empty_repository (P : platform) (self : BorgArchive) (w w1 : world)
        (mount_dir : string) (tag : option string) (s2 : BorgArchive * world) :
  borg_dir_is_temp self = Some false →
  falsy tag = true →
  ensure_dir mount_dir w = (Ok tt, w1) →
  get_tag_list P false (self, w1) = (Ok [], s2) →
  mount P mount_dir tag (self, w) =
    (Raise (Err MountError "Failed to mount archive: " (Some IndexError)), s2) ∧
  s2.1 = self ∧
  trace s2.2 = trace w ++ [Run (list_cmd false (str_opt (borg_dir self)))].
Proof.
  intros Ht Htag Hens Hlist.
  destruct (get_tag_list_logs _ _ _ _ _ _ Hlist) as [Hself Htr].
  destruct (ensure_dir_spec mount_dir w) as (r & w' & Hens' & _ & _ & Htr1 & _).
  rewrite Hens in Hens'. injection Hens' as <- <-.
  split; [|split; [done|by rewrite Htr, Htr1]].
  unfold mount.
  step_world Hens.
  step_by ltac:(unfold get_borg_dir_is_temp, bind, self_, gets; cbn; by rewrite Ht).
  step.
  apply bind_raise. erewrite try_except_raise; [reflexivity|].
  rewrite Htag. apply bind_raise. unfold get_most_recent_tag.
  step_with Hlist. reflexivity.
Qed.

Lemma mount_empty_repository_witness :
  let P := Ref.host Example.tools in
  let self := Self None (Some "/home/u/empty") (Some "/tmp/tmp0") false false (Some false) in
  let w := (dir_is_repo P "empty" Example.w0).2 in
  let w1 := (ensure_dir "mnt" w).2 in
  let s2 := (get_tag_list P false (self, w1)).2 in
  mount P "mnt" None (self, w) =
    (Raise (Err MountError "Failed to mount archive: " (Some IndexError)), s2) ∧
  s2.1 = self ∧
  trace s2.2 = trace w ++ [Run (list_cmd false (str_opt (borg_dir self)))].
Proof.
  intros P self w w1 s2.
  apply (mount_empty_repository P self w w1 "mnt" None s2).
  - reflexivity.
  - reflexivity.
  - vm_compute. reflexivity.
  - vm_compute. reflexivity.
Defined.

(** X16: [list_tags] on an expanded repository extracts nothing: whatever
    comes of it, exactly one command was run, the listing with the timestamp
    format, the instance is as before, and a failure is an [ArchiveError]
    that wraps its cause. *)
Theorem list_tags_of_repository (P : platform) (self : BorgArchive) (w : world) :
  borg_dir_is_temp self = Some false →
  ∃ r w',
    list_tags P (self, w) = (r, (self, w')) ∧
    trace w' = trace w ++ [Run (list_cmd true (str_opt (borg_dir self)))] ∧
    match r with
    | Ok _ => True
    | Raise e => ∃ cause, e = Err ArchiveError "Failed to read repository: " (Some cause)
    end.
Proof.
  intros Ht.
  destruct (get_tag_list_runs P self w true) as (r & w' & Hlist & Htr).
  unfold list_tags.
  step_by ltac:(unfold get_borg_dir_is_temp, bind, self_, gets; cbn; by rewrite Ht).
  step. unfold try_except, bind. rewrite Hlist.
  destruct r as [l|e]; eexists _, w'; (split; [reflexivity|]); split; eauto.
Qed.

Lemma list_tags_of_repository_witness :
  let P := Ref.host Example.tools in
  ∃ r w',
    list_tags P (Example.persistent, Example.w0) = (r, (Example.persistent, w')) ∧
    trace w' = trace Example.w0 ++ [Run (list_cmd true "/home/u/repo")] ∧
    match r with
    | Ok _ => True
    | Raise e => ∃ cause, e = Err ArchiveError "Failed to read repository: " (Some cause)
    end.
Proof.
  apply (list_tags_of_repository (Ref.host Example.tools) Example.persistent Example.w0).
  reflexivity.
Defined.

(** ** update *)

(** X17: [update] from a source directory that the probe rejects, on an
    expanded repository that holds the lock file [lock.roster], raises
    [UpdateError] (wrapping the [UpdateError] with the advice to unmount);
    nothing was run but the probe: no tag is generated and no snapshot is
    taken. *)
Theorem update_refuses_locked_repository (P : platform) (self : BorgArchive)
        (w w1 : world) (source b data : string) (tag : option string)
        (c : option repository) :
  let src := abspath w source in
  lookup_path w src = Some (Dir c) →
  dir_is_repo P src w = (Ok false, w1) →
  borg_dir self = Some b →
  borg_dir_is_temp self = Some false →
  lookup_path w1 (joinpath b "lock.roster") = Some (File data) →
  update P source tag (self, w) =
    (Raise (Err UpdateError "Failed to update archive: " (Some (repository_locked b))),
     (self, w1)) ∧
  trace w1 = trace w ++ [Run (probe_cmd src)].
Proof.
  intros src Hsrc Hprobe Hb Ht Hlock. subst src. split.
  - unfold update.
    step. cbn [fst snd].
    step_by ltac:(apply liftW_eq; unfold is_dir, gets; by rewrite Hsrc).
    cbn [negb]. cbv iota.
    step_world Hprobe.
    step.
    step.
    step_by ltac:(unfold get_borg_dir_is_temp, bind, self_, gets; cbn; by rewrite Ht).
    step.
    erewrite try_except_raise; [reflexivity|].
    apply bind_raise. cbn [negb]. cbv iota.
    step. cbn [fst]. rewrite Hb.
    step.
    step_by ltac:(apply liftW_eq; unfold is_file, gets; by rewrite Hlock).
    reflexivity.
  - destruct (dir_is_repo_logs P (abspath w source) w) as (r & w' & Hrun & Htr).
    congruence.
Qed.

Lemma update_refuses_locked_repository_witness :
  let P := Ref.host Example.tools in
  let w := (mount P "mnt" None (Example.persistent, Example.w0)).2.2 in
  let w1 := (dir_is_repo P "/home/u/data" w).2 in
  update P "data" None (Example.persistent, w) =
    (Raise (Err UpdateError "Failed to update archive: "
                (Some (repository_locked "/home/u/repo"))),
     (Example.persistent, w1)) ∧
  trace w1 = trace w ++ [Run (probe_cmd "/home/u/data")].
Proof.
  intros P w w1.
  apply (update_refuses_locked_repository P Example.persistent w w1 "data"
           "/home/u/repo" "" None None).
  - vm_compute. reflexivity.
  - vm_compute. reflexivity.
  - reflexivity.
  - reflexivity.
  - vm_compute. reflexivity.
Defined.

(** X18: when the source of [update] is itself a repository, the handle is
    pointed at it and its temporary flag is cleared, and all that follows is
    the rewriting of the archive file, if the handle has one: nothing is
    extracted, no snapshot is taken, and the tag argument is not looked at.
    With no archive path, [update] returns after the probe. *)
Theorem update_from_repository (P : platform) (self : BorgArchive) (w w1 : world)
        (source : string) (tag : option string) (c : option repository) :
  let src := abspath w source in
  let self1 := with_borg_dir_is_temp false (with_borg_dir (Some src) self) in
  lookup_path w src = Some (Dir c) →
  dir_is_repo P src w = (Ok true, w1) →
  update P source tag (self, w) =
    try_except
      (if bool_decide (archive_path self ≠ None)
       then __create_compressed_archive P None else ret tt)
      (λ e, raise (Err UpdateError "Failed to update archive: " (Some e)))
      (self1, w1) ∧
  (archive_path self = None → update P source tag (self, w) = (Ok tt, (self1, w1))).
Proof.
  intros src self1 Hsrc Hprobe. subst src.
  assert (update P source tag (self, w) =
    try_except
      (if bool_decide (archive_path self ≠ None)
       then __create_compressed_archive P None else ret tt)
      (λ e, raise (Err UpdateError "Failed to update archive: " (Some e)))
      (self1, w1)) as Heq.
  { unfold update.
    step. cbn [fst snd].
    step_by ltac:(apply liftW_eq; unfold is_dir, gets; by rewrite Hsrc).
    cbn [negb]. cbv iota.
    step_world Hprobe.
    step.
    step.
    step.
    step.
    unfold try_except. cbn [negb]. cbv iota.
    unfold bind at 1. cbn [fst snd ret].
    destruct self; reflexivity. }
  split; [exact Heq|].
  intros Ha. rewrite Heq, Ha. reflexivity.
Qed.

Lemma update_from_repository_witness :
  let P := Ref.host Example.tools in
  let w1 := (dir_is_repo P "/home/u/repo" Example.scratch).2 in
  let self1 := with_borg_dir_is_temp false
                 (with_borg_dir (Some "/home/u/repo") Example.handle) in
  update P "repo" (Some "9") (Example.handle, Example.scratch) =
    try_except
      (if bool_decide (archive_path Example.handle ≠ None)
       then __create_compressed_archive P None else ret tt)
      (λ e, raise (Err UpdateError "Failed to update archive: " (Some e)))
      (self1, w1) ∧
  (archive_path Example.handle = None →
   update P "repo" (Some "9") (Example.handle, Example.scratch) = (Ok tt, (self1, w1))).
Proof.
  intros P w1 self1.
  apply (update_from_repository P Example.handle Example.scratch w1 "repo"
           (Some "9") (Some [("1", "T0"); ("2", "T1")])).
  - reflexivity.
  - vm_compute. reflexivity.
Defined.

(** ** The archive file *)

(** X19: whatever [__create_compressed_archive] does, tar or squashfs, and
    whether it returns or raises, it leaves the instance as it is and the
    process in the working directory it was started in, unless what it raised
    is the [OSError] of a change of directory. *)
Theorem create_compressed_archive_restores_cwd (P : platform)
        (repo_dir : option string) (self : BorgArchive) (w : world)
        (r : result unit) (s' : BorgArchive * world) :
  String.prefix "/" (cwd w) = true →
  __create_compressed_archive P repo_dir (self, w) = (r, s') →
  s'.1 = self ∧ (cwd s'.2 = cwd w ∨ ∃ what, r = Raise (OSError what)).
Proof.
  intros Hcwd Hrun. split.
  { pose proof (preserves_create_archive P (λ o, o) repo_dir (self, w)) as Hk.
    by rewrite Hrun in Hk. }
  unfold __create_compressed_archive in Hrun.
  apply bind_inv in Hrun as [(rd & s1 & Hrd & Hrun)|(e & Hrd & ->)].
  2:{ destruct repo_dir; injection Hrd as _ <-; by left. }
  assert (s1 = (self, w)) as -> by (destruct repo_dir; by injection Hrd as _ <-).
  apply bind_inv in Hrun as [(best & s2 & Hbest & Hrun)|(e & Hbest & ->)];
    unfold liftW in Hbest; cbn [fst snd] in Hbest;
    pose proof (get_best_archiver_world P None w) as Hw;
    destruct (get_best_archiver P None w) as [rb wb]; cbn in Hw; subst wb;
    injection Hbest as -> <-; [|by left].
  destruct (String.eqb best "tar"); [|destruct (String.eqb best "squashfs")].
  - apply bind_inv in Hrun as [(cmp & s3 & Hcmp & Hrun)|(e & Hcmp & ->)].
    2:{ destruct (get_best_compressor P "tar"); injection Hcmp as _ <-; by left. }
    assert (s3 = (self, w)) as ->
      by (destruct (get_best_compressor P "tar"); by injection Hcmp as _ <-).
    apply bind_inv in Hrun as [(c0 & s4 & [= <- <-] & Hrun)|(e & [=] & _)].
    apply bind_inv in Hrun as [(d & s5 & Hd & Hrun)|(e & Hd & ->)].
    2:{ destruct rd; injection Hd as _ <-; by left. }
    assert (s5 = (self, w)) as -> by (destruct rd; by injection Hd as _ <-).
    apply bind_inv in Hrun as [([] & s6 & Hcd & Hrun)|(e & Hcd & ->)].
    2:{ unfold liftW in Hcd. cbn [fst snd] in Hcd.
        destruct (chdir (parent d) w) as [r0 w0] eqn:Hch.
        injection Hcd as -> <-. apply chdir_raises in Hch as [-> _]. by left. }
    by apply finally_chdir in Hrun.
  - apply bind_inv in Hrun as [(c0 & s4 & [= <- <-] & Hrun)|(e & [=] & _)].
    apply bind_inv in Hrun as [(d & s5 & Hd & Hrun)|(e & Hd & ->)].
    2:{ destruct rd; injection Hd as _ <-; by left. }
    assert (s5 = (self, w)) as -> by (destruct rd; by injection Hd as _ <-).
    apply bind_inv in Hrun as [([] & s6 & Hcd & Hrun)|(e & Hcd & ->)].
    2:{ unfold liftW in Hcd. cbn [fst snd] in Hcd.
        destruct (chdir (parent d) w) as [r0 w0] eqn:Hch.
        injection Hcd as -> <-. apply chdir_raises in Hch as [-> _]. by left. }
    by apply finally_chdir in Hrun.
  - injection Hrun as _ <-. by left.
Qed.

Lemma create_compressed_archive_restores_cwd_witness :
  let P := Ref.host Example.tools in
  let out := __create_compressed_archive P (Some "repo") (Example.handle, Example.scratch) in
  out.2.1 = Example.handle ∧
  (cwd out.2.2 = cwd Example.scratch ∨ ∃ what, out.1 = Raise (OSError what)).
Proof.
  intros P out.
  apply (create_compressed_archive_restores_cwd P (Some "repo") Example.handle
           Example.scratch out.1 out.2).
  - reflexivity.
  - apply surjective_pairing.
Defined.

(** X20: when the archive path names no regular file (nothing, or a
    directory) and zstd is found, [__extract_compressed_archive] takes the tar
    branch whether or not the squashfs tools are installed, fails to open the
    archive, and raises [ExpandError] wrapping the [OSError]; no process is
    started and the world is as before. *)
Theorem extract_archive_not_a_file (P : platform) (self : BorgArchive) (w : world)
        (o repo_dir : option string) (a : string) :
  (if o is Some p then Some p else archive_path self) = Some a →
  (∀ data, lookup_path w a ≠ Some (File data)) →
  on_path P "zstd" →
  ∃ what,
    __extract_compressed_archive P o repo_dir (self, w) =
      (Raise (Err ExpandError "Failed to expand tar archive: " (Some (OSError what))),
       (self, w)).
Proof.
  intros Ha Hfile Hzstd.
  assert ((match o with
           | Some a => ret (Some a)
           | None => self_ archive_path
           end) (self, w) = (Ok (Some a), (self, w))) as Hfirst.
  { destruct o; cbn in Ha; [by injection Ha as ->|].
    unfold self_, gets. cbn. by rewrite Ha. }
  assert ((match repo_dir with
           | Some d => ret (Some d)
           | None => self_ borg_dir
           end) (self, w) =
          (Ok (if repo_dir is Some d then Some d else borg_dir self), (self, w)))
    as Hsecond by (by destruct repo_dir).
  assert (∃ what, read_file a w = (Raise (OSError what), w)) as [what Hread].
  { unfold read_file. destruct (lookup_path w a) as [[data|c]|] eqn:Hl;
      [by destruct (Hfile data)|by eexists..]. }
  exists what.
  unfold __extract_compressed_archive.
  step_with Hfirst.
  step_with Hsecond.
  step_by ltac:(apply liftW_eq, get_best_archiver_not_file, Hfile).
  change (String.eqb "tar" "tar") with true. cbv iota.
  unfold get_best_compressor. change (String.eqb "tar" "tar") with true. cbv iota.
  unfold on_path in Hzstd. rewrite Hzstd.
  step. cbn [snd].
  erewrite try_except_raise; [reflexivity|].
  step. apply bind_raise. apply liftW_eq. unfold open_rb. by apply bind_raise.
Qed.

Lemma extract_archive_not_a_file_witness :
  ∃ what,
    __extract_compressed_archive (Ref.host Example.tools_squashfs) None None
      (Example.handle, Example.w0) =
      (Raise (Err ExpandError "Failed to expand tar archive: " (Some (OSError what))),
       (Example.handle, Example.w0)).
Proof.
  apply (extract_archive_not_a_file (Ref.host Example.tools_squashfs) Example.handle
           Example.w0 None None "/home/u/a.baz").
  - reflexivity.
  - intros data. vm_compute. discriminate.
  - reflexivity.
Defined.

(** ** The side files of a repository *)

Lemma json_get_in (k : string) (j v : json) :
  json_get k j = Ok v → json_in k j = Ok true.
Proof.
  destruct j as [s|fields|]; cbn; try discriminate.
  destruct (list_find _ fields) as [[i kv]|] eqn:Hfind; [|discriminate].
  intros _. apply list_find_Some in Hfind as (Hi & Hk & _).
  f_equal. apply bool_decide_eq_true_2. rewrite <- Hk.
  apply list_elem_of_fmap. exists kv. split; [done|].
  by eapply list_elem_of_lookup_2.
Qed.

Lemma remove_if_exists_dir (p : string) (w : world) (c : option repository) :
  String.prefix "/" p = true → fs w !! p = Some (Dir c) →
  remove_if_exists p w =
    (Ok tt, set_fs (filter (λ kv, within p kv.1 = false)) w).
Proof.
  intros Hp Hdir.
  unfold remove_if_exists.
  step_by ltac:(unfold exists_, gets, lookup_path;
                by rewrite (abspath_absolute _ _ Hp), Hdir).
  unfold rmtree. by rewrite (abspath_absolute _ _ Hp), Hdir.
Qed.

(** X21: when [borg info] exits with status zero and its JSON answer names a
    cache path and a security directory, two separate directories,
    [__cleanup_borg_files] returns normally, has removed both trees, and has
    changed no other node of the file system the engine left; the one command
    it ran is [borg info], and the instance is as before. *)
Theorem cleanup_removes_side_directories (P : platform) (self : BorgArchive)
        (w w1 : world) (o : option string) (b out err c s : string)
        (info cache : json) (rc rs : option repository) :
  (if o is Some p then Some p else borg_dir self) = Some b →
  spawn P (info_cmd b) (borg_environ w) = (inr (0, out, err), w1) →
  json_loads P out = Some info →
  json_get "cache" info = Ok cache →
  json_get "path" cache = Ok (JStr c) →
  json_get "security_dir" info = Ok (JStr s) →
  String.prefix "/" c = true → String.prefix "/" s = true →
  within c s = false → within s c = false →
  fs w1 !! c = Some (Dir rc) → fs w1 !! s = Some (Dir rs) →
  ∃ w2,
    __cleanup_borg_files P o (self, w) = (Ok tt, (self, w2)) ∧
    gone c w2 ∧ gone s w2 ∧
    (∀ q, within c q = false → within s q = false → fs w2 !! q = fs w1 !! q) ∧
    trace w2 = trace w ++ [Run (info_cmd b)].
Proof.
  intros Hb Hrun Hjson Hcache Hpath Hsec Hc Hs Hcs Hsc Hcdir Hsdir.
  set (wl := log (Run (info_cmd b)) (borg_environ w) w1).
  set (wc := set_fs (filter (λ kv, within c kv.1 = false)) wl).
  set (ws := set_fs (filter (λ kv, within s kv.1 = false)) wc).
  exists ws.
  assert (run_command P (info_cmd b) false true true (borg_environ w) =
          (Ok (Completed (info_cmd b) 0 (Some out) (Some err)), wl)) as Hcmd
    by (unfold run_command, try_except, subprocess_run; by rewrite Hrun).
  assert (remove_if_exists c wl = (Ok tt, wc)) as Hrc
    by (by apply (remove_if_exists_dir c wl rc)).
  assert (remove_if_exists s wc = (Ok tt, ws)) as Hrs.
  { apply (remove_if_exists_dir s wc rs); [done|].
    cbn. by rewrite rmtree_frame. }
  split; [|split; [|split; [|split]]].
  - assert (purge_side_files info (self, wl) = (Ok tt, (self, ws))) as Hpurge.
    { unfold purge_side_files.
      rewrite (json_get_in _ _ _ Hcache), Hcache, (json_get_in _ _ _ Hsec), Hsec.
      step. cbv iota.
      step_by ltac:(step; rewrite (json_get_in _ _ _ Hpath); reflexivity).
      cbv iota.
      step_by ltac:(step; rewrite Hpath; step; step; apply liftW_eq; exact Hrc).
      step. cbv iota. step. step. by apply liftW_eq. }
    assert ((match o with
             | Some p => ret (Some p)
             | None => self_ borg_dir
             end) (self, w) = (Ok (Some b), (self, w))) as Hfirst.
    { destruct o; cbn in Hb; [by injection Hb as ->|].
      unfold self_, gets. cbn. by rewrite Hb. }
    unfold __cleanup_borg_files.
    step_with Hfirst.
    unfold try_except.
    step_by ltac:(apply liftW_eq, set_borg_environ_eq).
    step.
    step_world Hcmd.
    cbn [returncode stdout Z.eqb negb]. cbv iota.
    step. unfold bind at 1. rewrite Hjson. cbn [from_option ret].
    by rewrite Hpurge.
  - intros q Hq. cbn.
    destruct (within s q) eqn:Hsq; [by apply rmtree_gone|].
    rewrite rmtree_frame by done. by apply rmtree_gone.
  - intros q Hq. cbn. by apply rmtree_gone.
  - intros q Hcq Hsq. cbn. by rewrite !rmtree_frame.
  - reflexivity.
Qed.

Lemma cleanup_removes_side_directories_witness :
  let P := Ref.host Example.tools in
  let w := set_fs (λ m, <[Ref.cache_dir := Dir None]>
                          (<[Ref.security_dir := Dir None]>
                             (<["/home/user/.cache/borg/0/chunks" := File "x"]> m)))
                  Example.w0 in
  ∃ w2,
    __cleanup_borg_files P None (Example.persistent, w) =
      (Ok tt, (Example.persistent, w2)) ∧
    gone Ref.cache_dir w2 ∧ gone Ref.security_dir w2 ∧
    (∀ q, within Ref.cache_dir q = false → within Ref.security_dir q = false →
          fs w2 !! q = fs (borg_environ w) !! q) ∧
    trace w2 = trace w ++ [Run (info_cmd "/home/u/repo")].
Proof.
  intros P w.
  apply (cleanup_removes_side_directories P Example.persistent w (borg_environ w) None
           "/home/u/repo" Ref.info_text "" Ref.cache_dir Ref.security_dir
           (JObj [("cache", JObj [("path", JStr Ref.cache_dir)]);
                  ("security_dir", JStr Ref.security_dir)])
           (JObj [("path", JStr Ref.cache_dir)]) None None);
    vm_compute; reflexivity.
Defined.

(** ** Error classes *)

(** X22: the classes of the exceptions that leave three methods.  [unmount]
    raises nothing but [MountError], and for a mount directory that does not
    exist it raises it before anything is run.  What [expand] raises is an
    [ExpandError], or what creating the target directory raised.  What
    [list_tags] raises, on a handle that has its temporary flag, is an
    [ArchiveError]. *)
Theorem documented_error_classes (P : platform) (self : BorgArchive) (w : world) :
  (∀ mount_dir,
     (lookup_path w mount_dir = None →
      unmount P mount_dir (self, w) =
        (Raise (no_mount_directory mount_dir), (self, w))) ∧
     (∀ e s', unmount P mount_dir (self, w) = (Raise e, s') →
              is_instance MountError e = true)) ∧
  (∀ repo_dir e s',
     expand P repo_dir (self, w) = (Raise e, s') →
     is_instance ExpandError e = true ∨
     ∃ w1, ensure_dir repo_dir w = (Raise e, w1)) ∧
  (∀ e s',
     is_Some (borg_dir_is_temp self) →
     list_tags P (self, w) = (Raise e, s') →
     is_instance ArchiveError e = true).
Proof.
  split; [|split].
  - intros mount_dir. split.
    + intros Hnone. unfold unmount.
      step_by ltac:(apply liftW_eq; unfold exists_, gets; by rewrite Hnone).
      reflexivity.
    + intros e s'. unfold unmount, bind at 1, liftW at 1, exists_, gets.
      cbn [fst snd].
      destruct (lookup_path w mount_dir); cbn [negb]; cbv iota.
      * intros H. by apply try_except_wraps in H as [e0 ->].
      * by intros [= <- _].
  - intros repo_dir e s'. unfold expand, bind at 1, liftW at 1. cbn [fst snd].
    destruct (ensure_dir repo_dir w) as [[[]|e0] w1].
    + intros H. left. by apply try_except_wraps in H as [e1 ->].
    + intros [= <- _]. right. by eexists.
  - intros e s' [t Ht]. unfold list_tags.
    unfold bind at 1, get_borg_dir_is_temp at 1, bind at 1, self_, gets.
    cbn [fst snd]. rewrite Ht. cbn.
    unfold bind at 1. destruct t.
    + destruct (try_except _ _ (self, w)) as [[[]|e0] s1] eqn:Hprep.
      * intros H. by apply try_except_wraps in H as [e1 ->].
      * intros [= <- _]. by apply try_except_wraps in Hprep as [e1 ->].
    + cbn. intros H. by apply try_except_wraps in H as [e1 ->].
Qed.

Lemma documented_error_classes_witness :
  unmount (Ref.host Example.tools) "nowhere" (Example.persistent, Example.w0) =
    (Raise (no_mount_directory "nowhere"), (Example.persistent, Example.w0)).
Proof.
  apply (proj1 (documented_error_classes (Ref.host Example.tools)
                  Example.persistent Example.w0)).
  reflexivity.
Defined.

(** ** The command line *)

(** X23: [create], [create-expanded] and [extract] ask before they overwrite.
    When the target exists and the user declines, the command ends with exit
    status 0 in the world the prompt left: no instance is constructed and
    nothing is run.  When the target does not exist, the user is not asked:
    the command does not depend on the answer. *)
Theorem overwrite_prompt (P : platform) (ask : W bool) (w : world)
        (target other : string) (opts : list string) (tag : option string) :
  (∀ n w', lookup_path w target = Some n → ask w = (Ok false, w') →
     cli_create P ask target other opts w = (Raise (SystemExit 0), w') ∧
     cli_create_expanded P ask target other opts w = (Raise (SystemExit 0), w') ∧
     cli_extract P ask other target tag w = (Raise (SystemExit 0), w')) ∧
  (lookup_path w target = None →
     ∀ ask',
       cli_create P ask target other opts w = cli_create P ask' target other opts w ∧
       cli_create_expanded P ask target other opts w =
         cli_create_expanded P ask' target other opts w ∧
       cli_extract P ask other target tag w = cli_extract P ask' other target tag w).
Proof.
  split.
  - intros n w' Hn Hask.
    assert (exists_ target w = (Ok true, w)) as Hex
      by (unfold exists_, gets; by rewrite Hn).
    assert (confirm_overwrite ask target w = (Ok false, w')) as Hconfirm.
    { unfold confirm_overwrite. step_with Hex. cbn [negb]. cbv iota.
      step_with Hask. reflexivity. }
    unfold cli_create, cli_create_expanded, cli_extract, exit_on_error,
      create_command, extract_command, try_except.
    repeat split.
    + step_with Hex. cbv iota. step_by ltac:(step_with Hconfirm; reflexivity).
      reflexivity.
    + step_with Hex. cbv iota. step_by ltac:(step_with Hconfirm; reflexivity).
      reflexivity.
    + step_with Hex. cbv iota. step_by ltac:(step_with Hconfirm; reflexivity).
      reflexivity.
  - intros Hnone ask'.
    assert (exists_ target w = (Ok false, w)) as Hex
      by (unfold exists_, gets; by rewrite Hnone).
    unfold cli_create, cli_create_expanded, cli_extract, exit_on_error,
      create_command, extract_command, try_except.
    repeat split; do 2 (step_with Hex; cbv iota; step); reflexivity.
Qed.

Lemma overwrite_prompt_witness :
  let P := Ref.host Example.tools in
  let declined : W bool := ret false in
  cli_create P declined "repo" "data" [] Example.w0 = (Raise (SystemExit 0), Example.w0) ∧
  cli_create_expanded P declined "repo" "data" [] Example.w0 =
    (Raise (SystemExit 0), Example.w0) ∧
  cli_extract P declined "data" "repo" None Example.w0 =
    (Raise (SystemExit 0), Example.w0).
Proof.
  intros P declined.
  apply (proj1 (overwrite_prompt P declined Example.w0 "repo" "data" [] None)
           (Dir (Some [("1", "T0"); ("2", "T1")])) Example.w0); reflexivity.
Defined.

Lemma exit_on_error_contains (m : W unit) : contains_errors (exit_on_error m).
Proof.
  intros w e w'. unfold exit_on_error, try_except.
  destruct (m w) as [[[]|e0] w1]; [discriminate|].
  destruct (is_instance BorgArchiveError e0) eqn:He0; intros [= <- <-]; done.
Qed.

(** X24: no [BorgArchiveError] leaves [collapse], [create],
    [create-expanded], [expand], [extract], [list], [mount] and [umount].
    Where the [with] block of [expand] raises one, the command ends with exit
    status 1; where the [with] block of [collapse] raises one, the command
    returns normally, as its handler prints and does not exit. *)
Theorem commands_contain_errors (P : platform) (ask : W bool) :
  (∀ r a k, contains_errors (cli_collapse P r a k)) ∧
  (∀ a s o, contains_errors (cli_create P ask a s o)) ∧
  (∀ r s o, contains_errors (cli_create_expanded P ask r s o)) ∧
  (∀ a r, contains_errors (cli_expand P a r)) ∧
  (∀ a d t, contains_errors (cli_extract P ask a d t)) ∧
  (∀ a, contains_errors (cli_list P a)) ∧
  (∀ a d t, contains_errors (cli_mount P a d t)) ∧
  (∀ d, contains_errors (cli_umount P d)) ∧
  (∀ r a k w e w',
     collapse_command P r a k w = (Raise e, w') →
     is_instance BorgArchiveError e = true →
     cli_collapse P r a k w = (Ok tt, w')) ∧
  (∀ a r w e w',
     expand_command P a r w = (Raise e, w') →
     is_instance BorgArchiveError e = true →
     cli_expand P a r w = (Raise (SystemExit 1), w')).
Proof.
  repeat split; try (intros; apply exit_on_error_contains).
  - intros r a k w e w'. unfold cli_collapse, try_except.
    destruct (collapse_command P r a k w) as [[[]|e0] w1]; [discriminate|].
    destruct (is_instance BorgArchiveError e0) eqn:He0; intros [= <- <-]; done.
  - intros r a k w e w' Hrun He. unfold cli_collapse, try_except.
    by rewrite Hrun, He.
  - intros a r w e w' Hrun He. unfold cli_expand, exit_on_error, try_except.
    by rewrite Hrun, He.
Qed.

Lemma commands_contain_errors_witness :
  let P := Ref.host Example.tools in
  let w' := (collapse_command P "data" "a.baz" false Example.w0).2 in
  let w'' := (expand_command P "missing.baz" "fresh" Example.w0).2 in
  cli_collapse P "data" "a.baz" false Example.w0 = (Ok tt, w') ∧
  cli_expand P "missing.baz" "fresh" Example.w0 = (Raise (SystemExit 1), w'').
Proof.
  intros P w' w''.
  destruct (commands_contain_errors P (ret false))
    as (_ & _ & _ & _ & _ & _ & _ & _ & Hcollapse & Hexpand).
  split.
  - apply (Hcollapse "data" "a.baz" false Example.w0 (not_a_repository "data") w').
    + vm_compute. reflexivity.
    + reflexivity.
  - apply (Hexpand "missing.baz" "fresh" Example.w0
             (Err ExpandError "Failed to expand archive: "
                (Some (Err ExpandError "Failed to expand tar archive: "
                         (Some (OSError "FileNotFoundError"))))) w'').
    + vm_compute. reflexivity.
    + reflexivity.
Defined.

(** X25: [update] on the command line refuses two repositories.  When both
    arguments are directories and the probe accepts the source, the command
    ends with exit status 1 after the probe: no instance is constructed and
    nothing else is run.  When the first argument is not a directory, the
    guard does not probe at all and the command is the [with] block of the
    update with its handler. *)
Theorem update_guard_refuses_two_repositories (P : platform) (w : world)
        (archive_or_repo source : string) (tag : option string) :
  (∀ c c' w1,
     lookup_path w archive_or_repo = Some (Dir c) →
     lookup_path w source = Some (Dir c') →
     dir_is_repo P source w = (Ok true, w1) →
     cli_update P archive_or_repo source tag w = (Raise (SystemExit 1), w1) ∧
     trace w1 = trace w ++ [Run (probe_cmd source)]) ∧
  ((∀ c, lookup_path w archive_or_repo ≠ Some (Dir c)) →
     cli_update P archive_or_repo source tag w =
       exit_on_error
         (with_BorgArchive P (Some archive_or_repo) None (update P source tag)) w).
Proof.
  split.
  - intros c c' w1 Ha Hs Hprobe. split.
    + unfold cli_update.
      step_by ltac:(unfold is_dir, gets; by rewrite Ha).
      step_by ltac:(unfold is_dir, gets; by rewrite Hs).
      cbn [andb]. step_with Hprobe. reflexivity.
    + destruct (dir_is_repo_logs P source w) as (r & w' & Hrun & Htr). congruence.
  - intros Ha.
    assert (is_dir archive_or_repo w = (Ok false, w)) as Hdir.
    { unfold is_dir, gets.
      destruct (lookup_path w archive_or_repo) as [[data|c]|];
        [reflexivity|by destruct (Ha c)|reflexivity]. }
    unfold cli_update.
    step_with Hdir.
    step_by ltac:(unfold is_dir, gets; reflexivity).
    cbn [andb]. step. reflexivity.
Qed.

Lemma update_guard_refuses_two_repositories_witness :
  let P := Ref.host Example.tools in
  let w1 := (dir_is_repo P "sub/repo" Example.w0).2 in
  cli_update P "repo" "sub/repo" None Example.w0 = (Raise (SystemExit 1), w1) ∧
  trace w1 = trace Example.w0 ++ [Run (probe_cmd "sub/repo")].
Proof.
  intros P w1.
  apply (proj1 (update_guard_refuses_two_repositories P Example.w0 "repo" "sub/repo" None)
           (Some [("1", "T0"); ("2", "T1")]) (Some [("1", "T0"); ("2", "T1")]) w1).
  - reflexivity.
  - reflexivity.
  - vm_compute. reflexivity.
Defined.
